(** * Command execution and privilege escalation: a shallow embedding

    Model of [helpers/subprocess_helper.py] (tokenizer, self-install guard,
    elevation decision, elevation rewrite, execution wiring) and of the
    accepted-exit-code handling of [modules/command/command.py].

    Around them: [run_commands] with the methods of [models/base/command.py]
    it calls, the output store of [models/base/output_store.py], the host
    detection of [helpers/helper.py] and the package managers of
    [models/base/package_manager.py] and [helpers/package_manager_utils.py].

    Python [str] values are lists of characters.  A character is one of the
    256 code points of Latin-1, so [str.isspace], [str.lower] and
    [str.split] are the restrictions of the Python methods to that range. *)

From Stdlib Require Import List Ascii String ZArith Lia Bool.
From stdpp Require Import gmap strings.
Import ListNotations.

Local Open Scope bool_scope.
Local Open Scope list_scope.

Abbreviation pystr := (list ascii).

(** A string literal as a Python string. *)
Definition str (s : string) : pystr := list_ascii_of_string s.

Module Py.

Definition chr (n : N) : ascii := ascii_of_N n.
Definition ord (c : ascii) : N := N_of_ascii c.

Definition space : ascii := chr 32.
Definition newline : ascii := chr 10.
Definition backslash : ascii := chr 92.
Definition squote : ascii := chr 39.
Definition dquote : ascii := chr 34.
Definition dash : ascii := chr 45.
Definition equals : ascii := chr 61.
Definition slash : ascii := chr 47.

(** [c.isspace()]: TAB..CR, FS..US, SPACE, NEL and NBSP. *)
Definition isspace (c : ascii) : bool :=
  let n := ord c in
  ((9 <=? n) && (n <=? 13) || (28 <=? n) && (n <=? 32)
   || (n =? 133) || (n =? 160))%N.

(** [c.lower()] on one character. *)
Definition lower_char (c : ascii) : ascii :=
  let n := ord c in
  (if (65 <=? n) && (n <=? 90) then chr (n + 32)
   else if (192 <=? n) && (n <=? 222) && negb (n =? 215) then chr (n + 32)
   else c)%N.

(** [s.lower()] *)
Definition lower (s : pystr) : pystr := map lower_char s.

Definition char_eqb (a b : ascii) : bool := Ascii.eqb a b.

(** [a == b] on strings. *)
Fixpoint eqb (a b : pystr) : bool :=
  match a, b with
  | [], [] => true
  | x :: a', y :: b' => char_eqb x y && eqb a' b'
  | _, _ => false
  end.

(** [w in ws] for a list of strings. *)
Definition mem (w : pystr) (ws : list pystr) : bool := existsb (eqb w) ws.

(** [c in s] for a character. *)
Definition contains (c : ascii) (s : pystr) : bool := existsb (char_eqb c) s.

(** [s.startswith(c)] for a one-character prefix. *)
Definition startswith (c : ascii) (s : pystr) : bool :=
  match s with
  | x :: _ => char_eqb x c
  | [] => false
  end.

(** [sep.join(ws)] for the one-character separator [" "]. *)
Fixpoint join (ws : list pystr) : pystr :=
  match ws with
  | [] => []
  | [w] => w
  | w :: ws' => w ++ space :: join ws'
  end.

(** [s.split()]: the maximal runs of non-whitespace characters.  [cur] is
    the run being read. *)
Fixpoint split_from (cur : pystr) (s : pystr) : list pystr :=
  match s with
  | [] => match cur with [] => [] | _ => [cur] end
  | c :: s' =>
      if isspace c
      then match cur with
           | [] => split_from [] s'
           | _ => cur :: split_from [] s'
           end
      else split_from (cur ++ [c]) s'
  end.

Definition split (s : pystr) : list pystr := split_from [] s.

(** [s.replace("\\\n", " ")]: every backslash-newline pair becomes a space. *)
Fixpoint replace_continuation (s : pystr) : pystr :=
  match s with
  | [] => []
  | c :: s' =>
      match s' with
      | d :: s'' =>
          if char_eqb c backslash && char_eqb d newline
          then space :: replace_continuation s''
          else c :: replace_continuation s'
      | [] => [c]
      end
  end.

(** [s.split("=")[0]] *)
Fixpoint before_equals (s : pystr) : pystr :=
  match s with
  | [] => []
  | c :: s' => if char_eqb c equals then [] else c :: before_equals s'
  end.

End Py.

(** ** Commands *)

(** A command is a string or a list of words ([isinstance(cmd, list)]). *)
Inductive command :=
| CmdStr (s : pystr)
| CmdList (ws : list pystr).

Definition chain_operators : list pystr := [str "&&"; str "||"; str "|"].

Definition is_chain_operator (w : pystr) : bool := Py.mem w chain_operators.

Definition is_quote (c : ascii) : bool :=
  Py.char_eqb c Py.squote || Py.char_eqb c Py.dquote.

Definition opt_char_eqb (q : option ascii) (c : ascii) : bool :=
  match q with
  | Some d => Py.char_eqb d c
  | None => false
  end.

Arguments is_chain_operator : simpl never.
Arguments is_quote : simpl never.
Arguments Py.isspace : simpl never.
Arguments Py.char_eqb : simpl never.

(** ** [parse_command] *)

(** The local variables of the scanning loop. *)
Record scan_state := ScanState {
  parts : list (list pystr);
  separators : list pystr;
  current_part : list pystr;
  current_word : pystr;
  in_quotes : bool;
  quote_char : option ascii
}.

Definition scan_init : scan_state :=
  ScanState [] [] [] [] false None.

Definition nonempty {A} (l : list A) : bool :=
  match l with [] => false | _ => true end.

(** One iteration of [for char in cmd]. *)
Definition scan_step (st : scan_state) (char : ascii) : scan_state :=
  if is_quote char && (negb (in_quotes st) || opt_char_eqb (quote_char st) char)
  then
    let inq := negb (in_quotes st) in
    ScanState (parts st) (separators st) (current_part st)
              (current_word st ++ [char])
              inq (if inq then Some char else None)
  else if Py.isspace char && negb (in_quotes st)
  then
    if nonempty (current_word st)
    then
      let word := current_word st in
      if is_chain_operator word
      then
        if nonempty (current_part st)
        then ScanState (parts st ++ [current_part st]) (separators st ++ [word])
                       [] [] (in_quotes st) (quote_char st)
        else ScanState (parts st) (separators st)
                       [] [] (in_quotes st) (quote_char st)
      else ScanState (parts st) (separators st)
                     (current_part st ++ [word]) []
                     (in_quotes st) (quote_char st)
    else st
  else
    ScanState (parts st) (separators st) (current_part st)
              (current_word st ++ [char])
              (in_quotes st) (quote_char st).

Definition scan_loop (st : scan_state) (cmd : pystr) : scan_state :=
  fold_left scan_step cmd st.

(** The code after the loop: handle the last word, then
    [return parts or [[]], separators]. *)
Definition scan_finish (st : scan_state) : list (list pystr) * list pystr :=
  let '(ps, ss) :=
    if nonempty (current_word st)
    then
      let word := current_word st in
      if is_chain_operator word
      then
        if nonempty (current_part st)
        then (parts st ++ [current_part st], separators st ++ [word])
        else (parts st, separators st)
      else
        let part := current_part st ++ [word] in
        if nonempty part
        then (parts st ++ [part], separators st)
        else (parts st, separators st)
    else (parts st, separators st) in
  (match ps with [] => [[]] | _ => ps end, ss).

(** The whitespace normalisation of a one-line string. *)
Definition normalize (cmd : pystr) : pystr :=
  Py.join (Py.split (Py.replace_continuation cmd)).

Definition parse_command (cmd : command) : list (list pystr) * list pystr :=
  match cmd with
  | CmdList ws => ([ws], [])
  | CmdStr s =>
      if Py.contains Py.newline s
      then ([[s]], [])
      else scan_finish (scan_loop scan_init (normalize s))
  end.

(** ** Self-install guard *)

Definition sudo : pystr := str "sudo".

Definition starts_with_sudo (words : list pystr) : bool :=
  match words with
  | w :: _ => Py.eqb (Py.lower w) sudo
  | [] => false
  end.

(** [while start_idx < len(words) and words[start_idx].startswith("-")]:
    [rest] is [words[start_idx:]]. *)
Fixpoint skip_flags (rest : list pystr) (start_idx : nat) : nat :=
  match rest with
  | w :: rest' =>
      if Py.startswith Py.dash w then skip_flags rest' (S start_idx)
      else start_idx
  | [] => start_idx
  end.

(** The index of the first word after a leading [sudo] and its flags. *)
Definition sudo_prefix_length (words : list pystr) : nat :=
  if starts_with_sudo words then skip_flags (skipn 1 words) 1 else 0.

Definition install_managers : list pystr :=
  [str "apt"; str "apt-get"; str "yum"; str "dnf"; str "zypper"].

Definition _is_single_command_installing_sudo (words : list pystr) : bool :=
  match words with
  | [] => false
  | _ =>
      let start_idx := sudo_prefix_length words in
      if length words - 1 <=? start_idx then false
      else
        let pkg_manager := Py.lower (nth start_idx words []) in
        let action := nth (start_idx + 1) words [] in
        if Py.eqb pkg_manager (str "pacman") && Py.eqb action (str "-S")
           || Py.mem pkg_manager install_managers
              && Py.eqb (Py.lower action) (str "install")
        then
          let packages :=
            map (fun word => Py.lower (Py.before_equals word))
                (List.filter (fun word => negb (Py.startswith Py.dash word))
                        (skipn (start_idx + 2) words)) in
          Py.mem sudo packages
        else false
  end.

Definition is_installing_sudo (cmd : command) : bool :=
  existsb _is_single_command_installing_sudo (fst (parse_command cmd)).

(** ** Host, sudo cache and exceptions *)

(** What the helper asks of the operating system. *)
Record host := Host {
  os_nt : bool;                     (* os.name == "nt" *)
  which : pystr -> option pystr;    (* shutil.which *)
  path_exists : pystr -> bool;      (* os.path.exists *)
  access_x : pystr -> bool          (* os.access(path, os.X_OK) *)
}.

(** Computations that read and write the module-level [_sudo_available]. *)
Definition Cached (A : Type) : Type := option bool -> A * option bool.

Definition ret {A} (a : A) : Cached A := fun c => (a, c).

Definition bind {A B} (m : Cached A) (k : A -> Cached B) : Cached B :=
  fun c => let '(a, c') := m c in k a c'.

Notation "'call' x ':=' m 'in' k" := (bind m (fun x => k))
  (at level 10, x name, m at level 100, k at level 200).

Definition truthy (p : option pystr) : bool :=
  match p with
  | Some (_ :: _) => true
  | _ => false
  end.

Definition reset_sudo_cache : Cached unit := fun _ => (tt, None).

Definition is_sudo_available (h : host) : Cached bool :=
  fun cache =>
    match cache with
    | Some b => (b, Some b)
    | None => let b := truthy (which h sudo) in (b, Some b)
    end.

Inductive exn :=
| ValueError (msg : string)
| TypeError (msg : string)
| CalledProcessError (returncode : Z)
| OSError
| IndexError
| AttributeError.

Inductive outcome (A : Type) :=
| Return (a : A)
| Raise (e : exn).
Arguments Return {A} a.
Arguments Raise {A} e.

(** ** Elevation decision *)

Definition admin_commands : list pystr :=
  [str "net"; str "sc"; str "reg"; str "bcdedit"; str "diskpart";
   str "chkdsk"; str "format"].

Definition admin_operations : list pystr :=
  [str "user"; str "localgroup"; str "accounts"; str "share"].

Definition sudo_commands : list pystr :=
  [str "apt"; str "apt-get"; str "dnf"; str "yum"; str "pacman"; str "rpm";
   str "dpkg"; str "systemctl"; str "service"; str "mount"; str "umount";
   str "fdisk"; str "mkfs"; str "cryptsetup"; str "lvextend";
   str "resize2fs"].

(** [os.path.isabs] of [posixpath]; it is only reached when
    [os.name != "nt"]. *)
Definition path_isabs (p : pystr) : bool := Py.startswith Py.slash p.

(** [cmd_path and not os.access(cmd_path, os.X_OK)] *)
Definition not_executable (h : host) (word0 : pystr) : bool :=
  let cmd_path :=
    if path_isabs word0 && path_exists h word0 then Some word0
    else which h word0 in
  match cmd_path with
  | Some p => nonempty p && negb (access_x h p)
  | None => false
  end.

(** The loop [for words in parts] of [command_needs_sudo]. *)
Fixpoint needs_sudo_loop (h : host) (parts : list (list pystr)) : bool :=
  match parts with
  | [] => false
  | words :: rest =>
      match words with
      | [] => needs_sudo_loop h rest
      | word0 :: _ =>
          let base_cmd := Py.lower word0 in
          if os_nt h
          then
            if Py.mem base_cmd admin_commands
            then
              if Py.eqb base_cmd (str "net")
              then (1 <? length words)
                   && Py.mem (Py.lower (nth 1 words [])) admin_operations
              else true
            else needs_sudo_loop h rest
          else
            if Py.eqb base_cmd (str "net") && (1 <? length words)
               && Py.eqb (Py.lower (nth 1 words [])) (str "user")
            then true
            else if Py.mem base_cmd sudo_commands then true
            else if not_executable h word0 then true
            else needs_sudo_loop h rest
      end
  end.

Definition command_needs_sudo (h : host) (cmd : command) : Cached bool :=
  call available := is_sudo_available h in
  if negb available then ret false
  else
    let parts := fst (parse_command cmd) in
    if existsb starts_with_sudo parts then ret false
    else ret (needs_sudo_loop h parts).

(** ** Elevation rewrite: the first half of [run_subprocess] *)

(** The loop [for part in parts]. *)
Fixpoint process_parts (h : host) (parts : list (list pystr))
  : Cached (list (list pystr)) :=
  match parts with
  | [] => ret []
  | part :: rest =>
      match part with
      | [] => process_parts h rest
      | _ =>
          if os_nt h
          then
            if starts_with_sudo part
            then
              let start_idx := skip_flags (skipn 1 part) 1 in
              call processed := process_parts h rest in
              ret (skipn start_idx part :: processed)
            else
              call processed := process_parts h rest in
              ret (part :: processed)
          else
            if negb (starts_with_sudo part)
            then
              call needed := command_needs_sudo h (CmdList part) in
              call processed := process_parts h rest in
              ret ((if needed then sudo :: part else part) :: processed)
            else
              call processed := process_parts h rest in
              ret (part :: processed)
      end
  end.

(** The loop [for i, part in enumerate(processed_parts)], from index [i]. *)
Fixpoint reconstruct_from (i : nat) (processed_parts : list (list pystr))
    (separators : list pystr) : list pystr :=
  match processed_parts with
  | [] => []
  | part :: rest =>
      (if (0 <? i) && (i - 1 <? length separators)
       then [nth (i - 1) separators []] else [])
      ++ part ++ reconstruct_from (S i) rest separators
  end.

Definition reconstruct := reconstruct_from 0.

(** [if isinstance(cmd, str): final_cmd = " ".join(final_cmd)] *)
Definition same_format (cmd : command) (final_cmd : list pystr) : command :=
  match cmd with
  | CmdStr _ => CmdStr (Py.join final_cmd)
  | CmdList _ => CmdList final_cmd
  end.

(** Lines 327-363: parse, rewrite every part, rebuild [final_cmd]. *)
Definition final_command (h : host) (cmd : command) : Cached (outcome command) :=
  let '(parts, separators) := parse_command cmd in
  if negb (nonempty parts) then ret (Raise (ValueError "Empty command"))
  else
    call processed_parts := process_parts h parts in
    let final_cmd := reconstruct processed_parts separators in
    ret (Return (same_format cmd final_cmd)).

(** A Unix host on which [sudo] is found. *)
Definition unix_with_sudo : host :=
  Host false (fun w => if Py.eqb w sudo then Some (str "/usr/bin/sudo") else None)
       (fun _ => false) (fun _ => true).

Definition windows_host : host :=
  Host true (fun _ => None) (fun _ => false) (fun _ => true).

(** ** [shlex.split] *)

(** The lexer of the standard library as [shlex.split(s)] configures it:
    POSIX mode, [whitespace_split], no comment characters and no punctuation
    characters.  With [whitespace_split] every character that is not
    whitespace, a quote or the escape character is added to the token, so
    [wordchars] plays no role. *)
Module Shlex.

(** [self.state]: [' '], ['a'], a quote character or the escape character.
    The state [None] is reached at the end of the input only. *)
Inductive lex_state :=
| LSpace
| LWord
| LQuote (q : ascii)
| LEscape (e : ascii).

(** [whitespace = ' \t\r\n'] *)
Definition whitespace (c : ascii) : bool :=
  Py.char_eqb c Py.space || Py.char_eqb c (Py.chr 9)
  || Py.char_eqb c (Py.chr 13) || Py.char_eqb c Py.newline.

(** [quotes] *)
Definition quotes (c : ascii) : bool :=
  Py.char_eqb c Py.squote || Py.char_eqb c Py.dquote.

(** [escape = '\\'] *)
Definition escape (c : ascii) : bool := Py.char_eqb c Py.backslash.

(** [escapedquotes]: the double quote. *)
Definition escapedquotes (c : ascii) : bool := Py.char_eqb c Py.dquote.

(** The token [read_token] returns at a break: [None] (nothing to emit)
    when it is empty and no quote was seen. *)
Definition emit (token : pystr) (quoted : bool) : list pystr :=
  if nonempty token || quoted then [token] else [].

Definition state_in_quotes (st : lex_state) : bool :=
  match st with
  | LQuote _ => true
  | _ => false
  end.

(** All calls of [read_token] in one pass over the input.  [escapedstate],
    [token] and [quoted] are the variables of the current call; [acc] holds
    the tokens returned so far.  A call returns [None], which ends the
    iteration, at the end of the input only. *)
Fixpoint lex (st escapedstate : lex_state) (token : pystr) (quoted : bool)
    (acc : list pystr) (input : pystr) : outcome (list pystr) :=
  match input with
  | [] =>
      match st with
      | LQuote _ => Raise (ValueError "No closing quotation")
      | LEscape _ => Raise (ValueError "No escaped character")
      | _ => Return (acc ++ emit token quoted)
      end
  | nextchar :: rest =>
      match st with
      | LSpace =>
          if whitespace nextchar
          then
            if nonempty token || quoted
            then lex LSpace LSpace [] false (acc ++ [token]) rest
            else lex LSpace escapedstate token quoted acc rest
          else if escape nextchar
          then lex (LEscape nextchar) LWord token quoted acc rest
          else if quotes nextchar
          then lex (LQuote nextchar) escapedstate token quoted acc rest
          else lex LWord escapedstate [nextchar] quoted acc rest
      | LQuote q =>
          if Py.char_eqb nextchar q
          then lex LWord escapedstate token true acc rest
          else if escape nextchar && escapedquotes q
          then lex (LEscape nextchar) (LQuote q) token true acc rest
          else lex (LQuote q) escapedstate (token ++ [nextchar]) true acc rest
      | LEscape e =>
          let token' :=
            if state_in_quotes escapedstate
               && negb (Py.char_eqb nextchar e)
               && negb (match escapedstate with
                        | LQuote q => Py.char_eqb nextchar q
                        | _ => false
                        end)
            then token ++ [e] else token in
          lex escapedstate escapedstate (token' ++ [nextchar]) quoted acc rest
      | LWord =>
          if whitespace nextchar
          then
            if nonempty token || quoted
            then lex LSpace LSpace [] false (acc ++ [token]) rest
            else lex LSpace escapedstate token quoted acc rest
          else if quotes nextchar
          then lex (LQuote nextchar) escapedstate token quoted acc rest
          else if escape nextchar
          then lex (LEscape nextchar) LWord token quoted acc rest
          else lex LWord escapedstate (token ++ [nextchar]) quoted acc rest
      end
  end.

Definition split (s : pystr) : outcome (list pystr) :=
  lex LSpace LSpace [] false [] s.

End Shlex.

(** ** Execution: the second half of [run_subprocess] *)

Module Run.

(** [models.base.command.ShellType] *)
Inductive ShellType := SH | BASH | BAT | CMD | POWERSHELL | ZSH | FISH.

Definition get_shell_command (s : ShellType) : pystr :=
  match s with
  | BASH => str "bash -c"
  | SH => str "sh -c"
  | BAT => str "cmd.exe /c"
  | CMD => str "cmd.exe /c"
  | POWERSHELL => str "powershell.exe -Command"
  | ZSH => str "zsh -c"
  | FISH => str "fish -c"
  end.

(** The [input] argument: a [str] or a bytes object. *)
Inductive payload :=
| Text (s : pystr)
| Bytes (b : list ascii).

(** [if input:] *)
Definition payload_truthy (p : payload) : bool :=
  match p with
  | Text s => nonempty s
  | Bytes b => nonempty b
  end.

(** [s.endswith("\n")] *)
Definition endswith_newline (s : pystr) : bool :=
  match rev s with
  | c :: _ => Py.char_eqb c Py.newline
  | [] => false
  end.

(** Values of keyword arguments: [None], [subprocess.PIPE], an input
    payload, a dictionary of which only the keys matter, or a boolean. *)
Inductive kwval :=
| KNone
| KPipe
| KInput (p : payload)
| KDict (keys : list string)
| KBool (b : bool).

(** The arguments of [run_subprocess]. *)
Record request := Request {
  cmd : command;
  interactive : bool;
  input : option payload;
  shell : bool;
  raise_on_error : bool;
  shell_type : option ShellType;
  kwargs : gmap string kwval
}.

(** One call of [subprocess.run] that reached the operating system. *)
Record spawn_call := Spawn {
  argv : command;
  use_shell : bool;
  check : bool;
  stdin_input : option payload;
  call_kwargs : gmap string kwval
}.

Inductive process_result :=
| SpawnFails
| Exits (code : Z) (out err : pystr).

(** What the operating system does during one call. *)
Record runtime := Runtime {
  tmp_name : option pystr;   (* the fresh file, or None when creation fails *)
  write_ok : bool;           (* script.write and script.flush succeed *)
  chmod_ok : bool;           (* os.chmod succeeds *)
  process : spawn_call -> process_result
}.

Record CompletedProcess := Completed {
  returncode : Z;
  stdout : option pystr;
  stderr : option pystr
}.

(** The state a call works on.  A file maps to the command whose text,
    after a newline, was written to it. *)
Record world := World {
  sudo_cache : option bool;
  files : gmap pystr command;
  spawned : list spawn_call
}.

Definition is_pipe (v : option kwval) : bool :=
  match v with
  | Some KPipe => true
  | _ => false
  end.

Definition is_not_none (v : option kwval) : bool :=
  match v with
  | None | Some KNone => false
  | Some _ => true
  end.

(** [bool(v)] for the value of a keyword whose default is false. *)
Definition kw_truthy (v : option kwval) : bool :=
  match v with
  | None | Some KNone => false
  | Some KPipe => true
  | Some (KInput p) => payload_truthy p
  | Some (KDict keys) => nonempty keys
  | Some (KBool b) => b
  end.

(** The keywords [subprocess.run] binds itself and those it hands to
    [Popen.__init__], whose first parameter is given by position. *)
Definition parameters : list string :=
  ["input"; "capture_output"; "timeout"; "check";
   "bufsize"; "executable"; "stdin"; "stdout"; "stderr"; "preexec_fn";
   "close_fds"; "shell"; "cwd"; "env"; "universal_newlines"; "startupinfo";
   "creationflags"; "restore_signals"; "start_new_session"; "pass_fds";
   "user"; "group"; "extra_groups"; "encoding"; "errors"; "text"; "umask";
   "pipesize"; "process_group"].

(** Every keyword of the call is a parameter. *)
Definition expected (kwargs : gmap string kwval) : bool :=
  bool_decide (map_Forall (fun k _ => k ∈ parameters) kwargs).

(** The stream is read through a pipe: [capture_output] is set, or the
    keyword of the stream is [PIPE]. *)
Definition piped (stream : string) (kwargs : gmap string kwval) : bool :=
  kw_truthy (kwargs !! "capture_output") || is_pipe (kwargs !! stream).

(** [Popen] on an empty argument vector without a shell: on POSIX
    [executable = args[0]] raises [IndexError]; on Windows the empty command
    line is handed to [CreateProcess] like any other. *)
Definition no_executable (nt : bool) (final_cmd : command) (shell : bool)
  : bool :=
  match final_cmd with
  | CmdList [] => negb nt && negb shell
  | _ => false
  end.

(** [Popen.communicate(input)] on a bytes payload, the streams being opened
    in text mode.  With no timeout and no other pipe than [stdin], and on
    Windows, the payload is written with [stdin.write] unless it is empty;
    otherwise it is first encoded. *)
Definition write_error (nt : bool) (input : option payload)
    (kwargs : gmap string kwval) : option exn :=
  match input with
  | Some (Bytes b) =>
      let direct :=
        negb (is_not_none (kwargs !! "timeout"))
        && negb (piped "stdout" kwargs) && negb (piped "stderr" kwargs) in
      if direct || nt
      then
        if nonempty b
        then Some (TypeError "write() argument must be str, not bytes")
        else None
      else Some AttributeError
  | _ => None
  end.

(** What [subprocess.run] returns or raises once it has asked for the
    process. *)
Definition communicate (nt : bool) (rt : runtime) (spawn : spawn_call)
  : outcome CompletedProcess :=
  match process rt spawn with
  | SpawnFails => Raise OSError
  | Exits code out err =>
      match write_error nt (stdin_input spawn) (call_kwargs spawn) with
      | Some e => Raise e
      | None =>
          if check spawn && negb (code =? 0)%Z
          then Raise (CalledProcessError code)
          else Return (Completed code
                         (if piped "stdout" (call_kwargs spawn)
                          then Some out else None)
                         (if piped "stderr" (call_kwargs spawn)
                          then Some err else None))
      end
  end.

(** [subprocess.run(final_cmd, shell=..., check=..., text=True, ..., **kwargs)]
    where [keywords] are the keywords the call site writes out and [nt] is
    [os.name == "nt"].  The parameters of [Popen] other than the streams
    reach the process as they are: what they do is part of the answer of
    [process]. *)
Definition subprocess_run (nt : bool) (rt : runtime) (keywords : list string)
    (final_cmd : command) (shell check : bool) (input : option payload)
    (kwargs : gmap string kwval) (w : world)
  : outcome CompletedProcess * world :=
  if existsb (fun k => bool_decide (is_Some (kwargs !! k))) keywords
  then (Raise (TypeError "got multiple values for keyword argument"), w)
  else
    let input :=
      match input with
      | Some p => Some p
      | None => match kwargs !! "input" with
                | Some (KInput p) => Some p
                | _ => None
                end
      end in
    if nonempty (option_list input) && is_not_none (kwargs !! "stdin")
    then (Raise (ValueError "stdin and input arguments may not both be used."), w)
    else if kw_truthy (kwargs !! "capture_output")
            && (is_not_none (kwargs !! "stdout")
                || is_not_none (kwargs !! "stderr"))
    then (Raise (ValueError
                   "stdout and stderr arguments may not be used with capture_output."),
          w)
    else if negb (expected kwargs)
    then (Raise (TypeError "got an unexpected keyword argument"), w)
    else if no_executable nt final_cmd shell
    then (Raise IndexError, w)
    else
      let spawn := Spawn final_cmd shell check input kwargs in
      let w' := World (sudo_cache w) (files w) (spawned w ++ [spawn]) in
      (communicate nt rt spawn, w').

(** The [io_kwargs] of the chosen mode. *)
Definition mode_kwargs (interactive : bool) : gmap string kwval :=
  if interactive
  then <["stdout" := KNone]> (<["stderr" := KNone]> (<["stdin" := KPipe]> ∅))
  else <["stdout" := KPipe]> (<["stderr" := KPipe]> (<["stdin" := KNone]> ∅)).

Definition with_newline (p : payload) : payload :=
  match p with
  | Text s => Text (if endswith_newline s then s else s ++ [Py.newline])
  | Bytes b => Bytes b
  end.

(** ["stdin" in kwargs.get("expected_kwargs", {})] *)
Definition expects_stdin (kwargs : gmap string kwval) : outcome bool :=
  match kwargs !! "expected_kwargs" with
  | None => Return false
  | Some (KDict keys) => Return (bool_decide ("stdin" ∈ keys))
  | Some _ => Raise (TypeError "argument is not iterable")
  end.

(** [if input: ...] *)
Definition add_input (input : option payload) (kwargs io_kwargs : gmap string kwval)
  : outcome (gmap string kwval) :=
  match input with
  | Some p =>
      if payload_truthy p
      then
        let io1 := <["stdin" := KPipe]> (<["input" := KInput (with_newline p)]> io_kwargs) in
        match expects_stdin kwargs with
        | Raise e => Raise e
        | Return true => Return io1
        | Return false => Return (delete "stdin" io1)
        end
      else Return io_kwargs
  | None => Return io_kwargs
  end.

(** [if isinstance(final_cmd, str) and not shell: shlex.split(final_cmd)] *)
Definition split_argv (final_cmd : command) (shell : bool) : outcome command :=
  match final_cmd with
  | CmdStr s =>
      if shell then Return final_cmd
      else match Shlex.split s with
           | Return ws => Return (CmdList ws)
           | Raise e => Raise e
           end
  | CmdList _ => Return final_cmd
  end.

(** The two call sites of [subprocess.run]. *)
Definition call_run (nt : bool) (rt : runtime) (rq : request)
    (final_cmd : command) (shell : bool) (kwargs : gmap string kwval)
    (w : world) : outcome CompletedProcess * world :=
  if interactive rq
  then subprocess_run nt rt ["shell"; "check"; "text"] final_cmd shell
         (raise_on_error rq) None kwargs w
  else subprocess_run nt rt ["shell"; "check"; "text"; "input"] final_cmd shell
         (raise_on_error rq) (input rq) kwargs w.

(** [os.unlink(script_path)] *)
Definition unlink (path : pystr) (w : world) : world :=
  World (sudo_cache w) (delete path (files w)) (spawned w).

(** The [try] statement with its [finally] clause.  Both [except] clauses
    log and raise the exception again. *)
Definition try_run (nt : bool) (rt : runtime) (rq : request)
    (final_cmd : command) (kwargs : gmap string kwval) (w : world)
  : outcome CompletedProcess * world :=
  match shell_type rq with
  | Some sh =>
      match tmp_name rt with
      | None => (Raise OSError, w)
      | Some script_path =>
          let w1 := World (sudo_cache w) (<[script_path := final_cmd]> (files w))
                          (spawned w) in
          if negb (write_ok rt)
          then (* [script_path] is not bound yet: nothing is unlinked *)
            (Raise OSError, w1)
          else if negb (chmod_ok rt)
          then (Raise OSError, unlink script_path w1)
          else
            let final_cmd :=
              CmdStr (get_shell_command sh ++ Py.space :: script_path) in
            let '(result, w2) := call_run nt rt rq final_cmd true kwargs w1 in
            (result, unlink script_path w2)
      end
  | None => call_run nt rt rq final_cmd (shell rq) kwargs w
  end.

Definition run_subprocess (h : host) (rt : runtime) (rq : request) (w : world)
  : outcome CompletedProcess * world :=
  let '(parsed, cache) := final_command h (cmd rq) (sudo_cache w) in
  let w := World cache (files w) (spawned w) in
  match parsed with
  | Raise e => (Raise e, w)
  | Return final_cmd =>
      match add_input (input rq) (kwargs rq) (mode_kwargs (interactive rq)) with
      | Raise e => (Raise e, w)
      | Return io_kwargs =>
          let kwargs := io_kwargs ∪ kwargs rq in
          match split_argv final_cmd (shell rq) with
          | Raise e => (Raise e, w)
          | Return final_cmd => try_run (os_nt h) rt rq final_cmd kwargs w
          end
      end
  end.

End Run.

(** ** Accepted exit codes: [modules/command/command.py] *)

Module Command.

(** [models.base.command.CommandExecution] *)
Record CommandExecution := Execution {
  run : pystr;
  args : option (list pystr);
  fail_on_error : bool;
  valid_exit_codes : option (list Z);
  saved_output_name : option pystr;
  elevate : bool
}.

(** Lines 28-32 of [run_commands].  The name [valid_exit_codes] is bound to
    the list object of the model, so [+= [0]] extends the model's list too:
    the second component is [cmd_run] after the statement. *)
Definition accepted_exit_codes (cmd_run : CommandExecution)
  : list Z * CommandExecution :=
  match valid_exit_codes cmd_run with
  | Some (c :: codes) =>
      let valid := (c :: codes) ++ [0%Z] in
      (valid,
       Execution (run cmd_run) (args cmd_run) (fail_on_error cmd_run)
                 (Some valid) (saved_output_name cmd_run) (elevate cmd_run))
  | _ => ([0%Z], cmd_run)
  end.

(** [result.returncode not in valid_exit_codes] *)
Definition is_failure (returncode : Z) (valid : list Z) : bool :=
  negb (existsb (Z.eqb returncode) valid).

(** The list the author wrote. *)
Definition author_codes (cmd_run : CommandExecution) : list Z :=
  match valid_exit_codes cmd_run with
  | Some codes => codes
  | None => []
  end.

(** The accepted codes at the execution that follows [n] executions of the
    same [cmd_run]. *)
Fixpoint codes_after (n : nat) (cmd_run : CommandExecution) : list Z :=
  match n with
  | O => fst (accepted_exit_codes cmd_run)
  | S n' => codes_after n' (snd (accepted_exit_codes cmd_run))
  end.

End Command.

(** ** [strip_sudo] *)

(** [words[start_idx:]] once [sudo] and its flags have been skipped. *)
Definition strip_part (words : list pystr) : list pystr :=
  skipn (sudo_prefix_length words) words.

(** The result loop of lines 207-211 is the loop of [run_subprocess]. *)
Definition strip_sudo (cmd : command) : command :=
  if is_installing_sudo cmd then cmd
  else
    let '(command_parts, separators) := parse_command cmd in
    let stripped_parts := map strip_part command_parts in
    match cmd with
    | CmdList _ =>
        CmdList (match stripped_parts with p :: _ => p | [] => [] end)
    | CmdStr _ => CmdStr (Py.join (reconstruct stripped_parts separators))
    end.

(** ** String methods on lines *)

Module PyText.

(** [s.split("\n")]; [cur] is the line being read. *)
Fixpoint split_lines_from (cur s : pystr) : list pystr :=
  match s with
  | [] => [cur]
  | c :: s' =>
      if Py.char_eqb c Py.newline then cur :: split_lines_from [] s'
      else split_lines_from (cur ++ [c]) s'
  end.

Definition split_lines (s : pystr) : list pystr := split_lines_from [] s.

(** ["\n".join(ls)] *)
Fixpoint join_lines (ls : list pystr) : pystr :=
  match ls with
  | [] => []
  | [l] => l
  | l :: ls' => l ++ Py.newline :: join_lines ls'
  end.

Fixpoint drop_newlines (s : pystr) : pystr :=
  match s with
  | c :: s' => if Py.char_eqb c Py.newline then drop_newlines s' else s
  | [] => []
  end.

(** [s.rstrip("\n")] *)
Definition rstrip_newlines (s : pystr) : pystr := rev (drop_newlines (rev s)).

End PyText.

(** ** The output store: [models/base/output_store.py] *)

Module OutputStore.

(** The dictionary [outputs] of the one instance of the store; the values
    stored by [save_output] are strings. *)
Definition outputs : Type := gmap pystr pystr.

Definition set_output (key value : pystr) (o : outputs) : outputs :=
  let value :=
    if Run.endswith_newline value then PyText.rstrip_newlines value
    else value in
  <[key := value]> o.

Definition get_output (key : pystr) (default : option pystr) (o : outputs)
  : option pystr :=
  match o !! key with
  | Some v => Some v
  | None => default
  end.

Definition clear (o : outputs) : outputs := ∅.

End OutputStore.

(** ** Host operating system: [helpers/helper.py], [models/base/os_type.py] *)

Module Helper.

(** What the helpers ask of the platform. *)
Record platform := Platform {
  system : pystr;     (* platform.system() *)
  distro_id : pystr   (* distro.id() *)
}.

Record OSType := OS {
  windows : bool;
  linux : bool;
  mac : bool;
  wsl : bool;
  unsupported : bool
}.

(** [os_type.model_dump().items()], in the order of the fields. *)
Definition model_dump (o : OSType) : list (string * bool) :=
  [("windows"%string, windows o); ("linux"%string, linux o);
   ("mac"%string, mac o); ("wsl"%string, wsl o);
   ("unsupported"%string, unsupported o)].

Definition get_host_os (p : platform) : OSType :=
  let system := Py.lower (system p) in
  if Py.eqb system (str "windows") then OS true false false false false
  else if Py.eqb system (str "linux") then OS false true false false false
  else if Py.eqb system (str "darwin") then OS false false true false false
  else OS false false false false true.

Definition get_linux_os_dist (p : platform) : pystr := Py.lower (distro_id p).

Definition debian_dists : list pystr :=
  [str "ubuntu"; str "debian"; str "linuxmint"; str "pop"].
Definition fedora_dists : list pystr :=
  [str "fedora"; str "rocky"; str "almalinux"].
Definition centos_dists : list pystr :=
  [str "centos"; str "rhel"; str "oracle"].

Definition is_same_linux_dist (p : platform) (dist : pystr) : bool :=
  if Py.mem (get_linux_os_dist p) debian_dists && Py.mem dist debian_dists
  then true
  else if Py.mem (get_linux_os_dist p) fedora_dists && Py.mem dist fedora_dists
  then true
  else if Py.mem (get_linux_os_dist p) centos_dists && Py.mem dist centos_dists
  then true
  else false.

(** [d[key]] guarded by [key in d], for a dictionary written as a literal. *)
Fixpoint entry {A} (key : string) (d : list (string * list A)) : list A :=
  match d with
  | [] => []
  | (k, v) :: d' => if String.eqb k key then v else entry key d'
  end.

(** The loop [for os_name, is_active in os_type.model_dump().items()] that
    collects the entries of the active systems. *)
Definition active_entries {A} (d : list (string * list A)) (o : OSType)
  : list A :=
  flat_map (fun item : string * bool =>
              if snd item then entry (fst item) d else [])
           (model_dump o).

End Helper.

(** ** Package managers: [models/base/package_manager.py] and
    [helpers/package_manager_utils.py] *)

Module PackageManager.
Import Helper.

Inductive PackageManagerType :=
| APT | BREW | CHOCO | WINGET | SNAP | FLATPAK | DNF | YUM | PORT.

#[global] Instance PackageManagerType_eq_dec : EqDecision PackageManagerType.
Proof. solve_decision. Defined.

Definition get_os_package_managers : list (string * list PackageManagerType) :=
  [("windows"%string, [CHOCO; WINGET]);
   ("linux"%string, [APT; BREW; SNAP; FLATPAK; DNF; YUM]);
   ("mac"%string, [BREW; PORT]);
   ("wsl"%string, [APT; BREW; SNAP; FLATPAK; DNF; YUM])].

(** The keys of [PACKAGE_MANAGER_REGISTRY]; the class registered for a type
    builds a manager of that type. *)
Definition PACKAGE_MANAGER_REGISTRY : list PackageManagerType :=
  [APT; BREW; CHOCO; WINGET; SNAP; FLATPAK; DNF; YUM; PORT].

(** The type of the manager [get_package_manager] returns, if any. *)
Definition get_package_manager (manager_type : PackageManagerType)
  : option PackageManagerType :=
  if bool_decide (manager_type ∈ PACKAGE_MANAGER_REGISTRY)
  then Some manager_type else None.




(** The managers [get_valid_package_managers_for_os] accepts on Linux. *)
Definition valid_linux (linux_dist : pystr) : list PackageManagerType :=
  (if Py.mem linux_dist debian_dists then [APT]
   else if Py.mem linux_dist fedora_dists then [DNF; YUM]
   else if Py.mem linux_dist centos_dists then [YUM; DNF]
   else [])
  ++ [SNAP; FLATPAK; BREW].

Definition get_valid_package_managers_for_os (p : platform)
    (package_managers : list PackageManagerType) (os_config : OSType)
  : list PackageManagerType :=
  let valid_pkg_managers :=
    flat_map (fun item : string * bool =>
                if snd item
                   && bool_decide (fst item ∈ map fst get_os_package_managers)
                then if String.eqb (fst item) "linux"
                     then valid_linux (get_linux_os_dist p)
                     else entry (fst item) get_os_package_managers
                else [])
             (model_dump os_config) in
  List.filter (fun pm => bool_decide (pm ∈ valid_pkg_managers)) package_managers.

(** The [if]/[elif] chain in the loop over the Linux managers: what it
    appends for a manager of type [t]. *)
Definition select_linux (linux_dist : pystr) (t : PackageManagerType)
  : list PackageManagerType :=
  if Py.mem linux_dist debian_dists && bool_decide (t = APT) then [APT]
  else if Py.mem linux_dist fedora_dists && bool_decide (t = DNF) then [DNF]
  else if Py.mem linux_dist fedora_dists && bool_decide (t = YUM) then [YUM]
  else if Py.mem linux_dist centos_dists && bool_decide (t = YUM) then [YUM]
  else if Py.mem linux_dist centos_dists && bool_decide (t = DNF) then [DNF]
  else if bool_decide (t ∈ [SNAP; FLATPAK; BREW]) then [t]
  else [].

(** One iteration of the loop over the flags of the host system: the
    lists [selected_package_managers] and [available] after it. *)
Definition available_step (p : platform)
    (acc : list PackageManagerType * list PackageManagerType)
    (item : string * bool)
  : list PackageManagerType * list PackageManagerType :=
  let '(selected, available) := acc in
  if snd item && bool_decide (fst item ∈ map fst get_os_package_managers)
  then
    let selected :=
      if String.eqb (fst item) "linux"
      then
        selected
        ++ flat_map (fun pm_select_type =>
                       match get_package_manager pm_select_type with
                       | Some t => select_linux (get_linux_os_dist p) t
                       | None => []
                       end)
                    (entry (fst item) get_os_package_managers)
      else selected ++ entry (fst item) get_os_package_managers in
    (selected,
     available
     ++ List.filter (fun pm_type => bool_decide (is_Some (get_package_manager pm_type)))
                    selected)
  else (selected, available).

Definition get_available_package_managers (p : platform)
  : list PackageManagerType :=
  snd (fold_left (available_step p) (model_dump (get_host_os p)) ([], [])).

(** [available[-1]], or [ValueError] when nothing is available. *)
Definition get_default_package_manager (p : platform)
  : outcome PackageManagerType :=
  match rev (get_available_package_managers p) with
  | [] => Raise (ValueError "No package manager found for OS")
  | t :: _ => Return t
  end.

(** The value of a member of the enumeration. *)
Definition value (t : PackageManagerType) : pystr :=
  match t with
  | APT => str "apt"
  | BREW => str "brew"
  | CHOCO => str "choco"
  | WINGET => str "winget"
  | SNAP => str "snap"
  | FLATPAK => str "flatpak"
  | DNF => str "dnf"
  | YUM => str "yum"
  | PORT => str "port"
  end.

Definition index (t : PackageManagerType) : nat :=
  match t with
  | APT => 0 | BREW => 1 | CHOCO => 2 | WINGET => 3 | SNAP => 4
  | FLATPAK => 5 | DNF => 6 | YUM => 7 | PORT => 8
  end.

Definition of_index (n : nat) : PackageManagerType :=
  match n with
  | 0 => APT | 1 => BREW | 2 => CHOCO | 3 => WINGET | 4 => SNAP
  | 5 => FLATPAK | 6 => DNF | 7 => YUM | _ => PORT
  end.

#[global] Instance PackageManagerType_countable : Countable PackageManagerType.
Proof. apply (inj_countable' index of_index). intros []; reflexivity. Defined.

(** [BasePackageManager.is_valid_for_os] *)
Definition is_valid_for_os (t : PackageManagerType) (os_type : string) : bool :=
  bool_decide (t ∈ entry os_type get_os_package_managers).

(** [next((k for k, v in os.model_dump().items() if v), None)] *)
Definition first_active (o : OSType) : option string :=
  match List.filter snd (model_dump o) with
  | item :: _ => Some (fst item)
  | [] => None
  end.

(** [if not os_type]: [None] or the empty string. *)
Definition named (os_type : option string) : bool :=
  match os_type with
  | Some name => negb (String.eqb name "")
  | None => false
  end.

Definition os_name (os_type : option string) : string :=
  match os_type with
  | Some name => name
  | None => ""%string
  end.

(** The module-level [_package_manager_cache] beside the state of
    [run_subprocess]. *)
Record state := State {
  world : Run.world;
  cache : gmap (string * PackageManagerType) bool
}.

Definition check_cmd (t : PackageManagerType) : pystr :=
  if bool_decide (t ∈ [CHOCO; WINGET]) then str "where.exe" else str "which".

(** [BasePackageManager.is_installed] for a manager of type [t]. *)
Definition is_installed (h : host) (rt : Run.runtime) (p : platform)
    (t : PackageManagerType) (target_os : option OSType) (st : state)
  : outcome bool * state :=
  let host_os_type := first_active (get_host_os p) in
  if negb (named host_os_type) then (Return false, st)
  else if match target_os with
          | Some target =>
              negb (named (first_active target))
              || negb (is_valid_for_os t (os_name (first_active target)))
          | None => false
          end
  then (Return false, st)
  else if negb (is_valid_for_os t (os_name host_os_type)) then (Return false, st)
  else
    let cache_key := (os_name host_os_type, t) in
    match cache st !! cache_key with
    | Some answer => (Return answer, st)
    | None =>
        let rq := Run.Request (CmdStr (check_cmd t ++ Py.space :: value t))
                    false None false false None ∅ in
        let '(result, w) := Run.run_subprocess h rt rq (world st) in
        match result with
        | Raise e => (Raise e, State w (cache st))
        | Return r =>
            let is_installed := (Run.returncode r =? 0)%Z in
            (Return is_installed,
             State w (<[cache_key := is_installed]> (cache st)))
        end
    end.

End PackageManager.

(** ** Command groups: [run_commands] of [modules/command/command.py] with
    the methods of [models/base/command.py] it calls *)

Module RunCommands.
Import Helper Run Command.

#[global] Instance ShellType_eq_dec : EqDecision ShellType.
Proof. solve_decision. Defined.

Definition get_os_shell_types : list (string * list ShellType) :=
  [("windows"%string, [CMD; BAT; POWERSHELL]);
   ("linux"%string, [BASH; SH; ZSH]);
   ("mac"%string, [BASH; ZSH; FISH]);
   ("wsl"%string, [BASH; SH; ZSH])].

(** [execute: Union[CommandExecution, List[CommandExecution]]] *)
Inductive executions :=
| One (cmd_run : CommandExecution)
| Many (runs : list CommandExecution).

(** [models.base.command.Command] *)
Record Command := Cmd {
  shell : ShellType;
  os_dist : option pystr;
  execute : executions
}.

Definition validate_shell_type (self : Command) (os_type : OSType)
  : list ShellType :=
  let valid_shell_types := active_entries get_os_shell_types os_type in
  List.filter (fun sh => bool_decide (sh ∈ valid_shell_types)) [shell self].

(** What stops a call: an exception of [run_subprocess], or one raised
    by [run_commands] and the methods it calls. *)
Inductive error :=
| Propagated (e : exn)
| Raised (e : exn).

(** The store and the state [run_subprocess] works on. *)
Record state := State {
  world : Run.world;
  store : OutputStore.outputs
}.

Section Substitution.

(** [OutputStore.substitute_values]: reading a string attribute of a model
    returns the attribute with the variables of the store substituted
    ([BaseConfigModel.__getattribute__]). *)
Variable substitute_values : OutputStore.outputs -> pystr -> pystr.

(** The operating system's answer to the next call, given the state so far. *)
Variable os : Run.world -> Run.runtime.
Variable h : host.
Variable p : platform.

Definition is_linux : bool := Py.eqb (Py.lower (system p)) (str "linux").

Definition elevated (self : CommandExecution) (line : pystr) : pystr :=
  if elevate self then str "sudo " ++ line else line.

(** [CommandExecution.create_command] *)
Definition create_command (o : OutputStore.outputs) (self : CommandExecution)
    (shell_command : pystr) : pystr :=
  let cmd := substitute_values o (run self) in
  if Py.contains Py.newline cmd && is_linux
  then PyText.join_lines (map (elevated self) (PyText.split_lines cmd))
  else
    let cmd := if elevate self && is_linux then str "sudo " ++ cmd else cmd in
    let cmd :=
      match args self with
      | Some (a :: args') => cmd ++ Py.space :: Py.join (a :: args')
      | _ => cmd
      end in
    shell_command ++ Py.space :: Py.dquote :: cmd ++ [Py.dquote].

(** [CommandExecution.save_output] *)
Definition save_output (self : CommandExecution) (output : option pystr)
    (o : OutputStore.outputs) : option error * OutputStore.outputs :=
  match saved_output_name self with
  | Some name =>
      if nonempty (substitute_values o name)
      then
        match output with
        | Some value =>
            (None, OutputStore.set_output (substitute_values o name) value o)
        | None => (* [None.endswith] *) (Some (Raised AttributeError), o)
        end
      else (None, o)
  | None => (None, o)
  end.

(** The request of lines 40-45. *)
Definition request_of (o : OutputStore.outputs) (sh : ShellType)
    (cmd_run : CommandExecution) : Run.request :=
  let multiline := Py.contains Py.newline (substitute_values o (run cmd_run)) in
  Request (CmdStr (create_command o cmd_run (get_shell_command sh)))
          false None multiline (fail_on_error cmd_run)
          (if multiline then Some sh else None) ∅.

(** The body of [for cmd_run in command.execute]: the exception that ends
    the call, if any, [cmd_run] after the iteration, and the new state. *)
Definition run_one (sh : ShellType) (cmd_run : CommandExecution) (st : state)
  : option error * CommandExecution * state :=
  let '(valid_exit_codes, cmd_run') := accepted_exit_codes cmd_run in
  let rq := request_of (store st) sh cmd_run in
  let '(result, w) := run_subprocess h (os (world st)) rq (world st) in
  match result with
  | Raise e => (Some (Propagated e), cmd_run', State w (store st))
  | Return r =>
      if is_failure (returncode r) valid_exit_codes
      then (None, cmd_run', State w (store st))
      else
        let '(err, o) := save_output cmd_run' (stdout r) (store st) in
        (err, cmd_run', State w o)
  end.

Fixpoint run_executions (sh : ShellType) (runs : list CommandExecution)
    (st : state) : option error * list CommandExecution * state :=
  match runs with
  | [] => (None, [], st)
  | cmd_run :: rest =>
      let '(err, cmd_run', st1) := run_one sh cmd_run st in
      match err with
      | Some e => (Some e, cmd_run' :: rest, st1)
      | None =>
          let '(err', rest', st2) := run_executions sh rest st1 in
          (err', cmd_run' :: rest', st2)
      end
  end.

(** Lines 13-22: whether the commands of [command] are run on this host. *)
Definition validate_shell (o : OutputStore.outputs) (command : Command) : bool :=
  let validate_shell_cmd :=
    nonempty (validate_shell_type command (get_host_os p)) in
  match os_dist command with
  | Some dist =>
      if nonempty (substitute_values o dist)
      then is_same_linux_dist p (substitute_values o dist) && validate_shell_cmd
      else validate_shell_cmd
  | None => validate_shell_cmd
  end.

Fixpoint run_commands (commands : list Command) (st : state)
  : option error * list Command * state :=
  match commands with
  | [] => (None, [], st)
  | command :: rest =>
      if validate_shell (store st) command
      then
        match execute command with
        | One _ =>
            (* iterating a model yields (name, value) pairs, which have no
               attribute [fail_on_error] *)
            (Some (Raised AttributeError), command :: rest, st)
        | Many runs =>
            let '(err, runs', st1) := run_executions (shell command) runs st in
            let command' := Cmd (shell command) (os_dist command) (Many runs') in
            match err with
            | Some e => (Some e, command' :: rest, st1)
            | None =>
                let '(err', rest', st2) := run_commands rest st1 in
                (err', command' :: rest', st2)
            end
        end
      else
        let '(err', rest', st2) := run_commands rest st in
        (err', command :: rest', st2)
  end.

End Substitution.

End RunCommands.

(** * Vocabulary of the statements and of the proofs *)


(** What the Unix branch may do with a segment, for the availability answer
    [a]: leave it, or put [sudo] in front; it leaves a segment that starts
    with [sudo], and every segment when [sudo] is unavailable; it puts
    [sudo] in front of an unprefixed segment whose base command is
    privileged when [sudo] is available. *)
Definition unix_rewritten (a : bool) (p p' : list pystr) : Prop :=
  (p' = p \/ p' = sudo :: p)
  /\ (starts_with_sudo p = true -> p' = p)
  /\ (a = false -> p' = p)
  /\ (a = true -> starts_with_sudo p = false ->
      Py.mem (Py.lower (hd [] p)) sudo_commands = true -> p' = sudo :: p).

(** Self-install immunity as the specification words it: the rewrite gives
    back the segments and separators of the command as they were parsed. *)
Definition self_install_immune (h : host) (cache : option bool)
    (cmd : command) : Prop :=
  is_installing_sudo cmd = true ->
  fst (final_command h cmd cache)
  = Return (same_format cmd
      (reconstruct (fst (parse_command cmd)) (snd (parse_command cmd)))).

(** Operator preservation as the specification words it: the operators of
    the rewritten command are the operators of the command. *)
Definition operators_kept (h : host) (cache : option bool) (s : pystr) : Prop :=
  exists F cache',
    final_command h (CmdStr s) cache = (Return (CmdStr F), cache')
    /\ snd (parse_command (CmdStr F)) = snd (parse_command (CmdStr s)).


(** The agreement of the two tokenizations as the specification words it. *)
Definition tokenizations_agree (h : host) (cache : option bool) (s : pystr)
  : Prop :=
  exists F cache' argv,
    final_command h (CmdStr s) cache = (Return (CmdStr F), cache')
    /\ Run.split_argv (CmdStr F) false = Return (CmdList argv)
    /\ parse_command (CmdStr F) = ([argv], []).


(** A runtime in which every process exits with code 0 and no output. *)
Definition quiet_runtime : Run.runtime :=
  Run.Runtime None true true (fun _ => Run.Exits 0 [] []).

Definition empty_world : Run.world := Run.World None ∅ [].

(** The call [rq] with another command. *)
Definition with_cmd (rq : Run.request) (cmd : command) : Run.request :=
  Run.Request cmd (Run.interactive rq) (Run.input rq) (Run.shell rq)
    (Run.raise_on_error rq) (Run.shell_type rq) (Run.kwargs rq).


(** An interactive call whose caller asks for the output. *)
Definition capturing_request : Run.request :=
  Run.Request (CmdList [str "ls"; str "-l"]) true None false true None
    (<["capture_output"%string := Run.KBool true]> ∅).

(** A multi-line script run through [bash]. *)
Definition script_request (raise_on_error : bool) : Run.request :=
  Run.Request (CmdStr (str "echo a" ++ Py.newline :: str "echo b"))
    false None true raise_on_error (Some Run.BASH) ∅.

Definition script_runtime (p : Run.process_result) : Run.runtime :=
  Run.Runtime (Some (str "/tmp/tmpab12.sh")) true true (fun _ => p).

Definition payload_request (interactive : bool) : Run.request :=
  Run.Request (CmdStr (str "cat")) interactive (Some (Run.Text (str "y")))
    false false None ∅.

Module Chunk.

(** A chunk: what [str.split] returns, a non-empty run without
    whitespace. *)
Definition spaceless (s : pystr) : Prop :=
  Forall (fun c => Py.isspace c = false) s.

Definition chunk (s : pystr) : Prop := s <> [] /\ spaceless s.

End Chunk.

Module Word.
Import Chunk.

(** The pair [(in_quotes, quote_char)]. *)
Definition qstate : Type := bool * option ascii.

Definition q0 : qstate := (false, None).

Definition quote_of (st : scan_state) : qstate :=
  (in_quotes st, quote_char st).

(** The first branch of the loop body is taken. *)
Definition toggles (q : qstate) (c : ascii) : bool :=
  is_quote c && (negb (fst q) || opt_char_eqb (snd q) c).

Definition qnext (q : qstate) (c : ascii) : qstate :=
  if toggles q c
  then (negb (fst q), if negb (fst q) then Some c else None)
  else q.

(** The second branch is taken: [c] ends the current word. *)
Definition breaks (q : qstate) (c : ascii) : bool :=
  negb (toggles q c) && (Py.isspace c && negb (fst q)).

(** The quote state after a word, if no character of it ends a word. *)
Fixpoint wscan (q : qstate) (w : pystr) : option qstate :=
  match w with
  | [] => Some q
  | c :: w' => if breaks q c then None else wscan (qnext q c) w'
  end.

(** The word-level variables [(parts, separators, current_part)]. *)
Record gstate := G {
  g_parts : list (list pystr);
  g_seps : list pystr;
  g_part : list pystr
}.

Definition g_init : gstate := G [] [] [].


Definition inject (g : gstate) (w : pystr) (q : qstate) : scan_state :=
  ScanState (g_parts g) (g_seps g) (g_part g) w (fst q) (snd q).

(** What the loop does with a completed word. *)
Definition group_step (g : gstate) (word : pystr) : gstate :=
  if is_chain_operator word
  then
    if nonempty (g_part g)
    then G (g_parts g ++ [g_part g]) (g_seps g ++ [word]) []
    else G (g_parts g) (g_seps g) []
  else G (g_parts g) (g_seps g) (g_part g ++ [word]).

(** What the function returns once every word has been seen. *)
Definition close (g : gstate) : list (list pystr) * list pystr :=
  let ps := if nonempty (g_part g) then g_parts g ++ [g_part g]
            else g_parts g in
  (match ps with [] => [[]] | _ => ps end, g_seps g).

Definition group (ws : list pystr) : list (list pystr) * list pystr :=
  close (fold_left group_step ws g_init).

(** A word that the loop reads as one word and leaves outside quotes. *)
Definition closed (w : pystr) : Prop := w <> [] /\ wscan q0 w = Some q0.

(** A word that the loop reads as one word. *)
Definition unbroken (w : pystr) : Prop :=
  w <> [] /\ exists q, wscan q0 w = Some q.

End Word.

Module Normal.
Import Chunk Word.

(** Outside quotes no quote character is remembered. *)
Definition qwf (q : qstate) : Prop := fst q = false -> snd q = None.

(** The text of the current word when the chunks [run] of it have been
    read and the loop is inside quotes. *)
Definition pending (run : list pystr) : pystr :=
  match run with
  | [] => []
  | _ => Py.join run ++ [Py.space]
  end.

(** A word in normalised form: chunks joined by single spaces. *)
Definition normal (w : pystr) : Prop :=
  exists run, run <> [] /\ Forall chunk run /\ w = Py.join run.

Definition good (w : pystr) : Prop := closed w /\ normal w.
Definition semi (w : pystr) : Prop := unbroken w /\ normal w.

End Normal.

Module Shape.
Import Chunk Word Normal.

Definition is_op (w : pystr) : Prop := is_chain_operator w = true.
Definition non_op (w : pystr) : Prop := is_chain_operator w = false.
Definition token (w : pystr) : Prop := good w /\ non_op w.

Record ginv (g : gstate) : Prop := {
  gi_len : length (g_parts g) = length (g_seps g);
  gi_seps : Forall is_op (g_seps g);
  gi_nonempty : Forall (fun p => p <> []) (g_parts g);
  gi_parts : Forall (Forall token) (g_parts g);
  gi_part : Forall token (g_part g)
}.

(** Every word but the last is closed; the last is at least unbroken. *)
Fixpoint wok (l : list pystr) : Prop :=
  match l with
  | [] => True
  | w :: l' =>
      match l' with
      | [] => semi w
      | _ => good w /\ wok l'
      end
  end.

(** The shape of the result of [parse_command] on one line. *)
Definition parsed (ps : list (list pystr)) (ss : list pystr) : Prop :=
  Forall is_op ss
  /\ (length ss = length ps - 1 \/ length ss = length ps)
  /\ ((ps = [[]] /\ ss = []) \/ (ps <> [] /\ Forall (fun p => p <> []) ps))
  /\ Forall (Forall non_op) ps
  /\ wok (concat ps).

End Shape.

Module Glue.
Import Chunk Word Normal Shape.

(** The words of [reconstruct]: every further part is preceded by its
    separator while separators remain. *)
Fixpoint glue (ss : list pystr) (ps : list (list pystr)) : list pystr :=
  match ps with
  | [] => []
  | p :: ps' =>
      match ss with
      | s :: ss' => s :: p ++ glue ss' ps'
      | [] => p ++ glue [] ps'
      end
  end.

End Glue.

Module Elevate.
Import Chunk Word Normal Shape Glue.

(** The answer of [is_sudo_available] in a given cache state. *)
Definition available (h : host) (cache : option bool) : bool :=
  fst (is_sudo_available h cache).

(** [command_needs_sudo] for a given availability answer. *)
Definition needs_sudo (h : host) (a : bool) (cmd : command) : bool :=
  a && negb (existsb starts_with_sudo (fst (parse_command cmd)))
    && needs_sudo_loop h (fst (parse_command cmd)).

(** What the Unix branch of the loop does with one part. *)
Definition elevate (h : host) (a : bool) (part : list pystr) : list pystr :=
  if negb (starts_with_sudo part) && needs_sudo h a (CmdList part)
  then sudo :: part else part.

End Elevate.

Module Stability.
Import Chunk Word Normal Shape Glue Elevate.

(** [shutil.which] only returns paths that are executable. *)
Definition which_sound (h : host) : Prop :=
  forall w p, which h w = Some p -> access_x h p = true.

Definition one_line (cmd : command) : Prop :=
  match cmd with
  | CmdStr s => Py.contains Py.newline s = false
  | CmdList _ => True
  end.

(** Rewriting the result of a rewrite, in the cache state the first
    rewrite leaves, gives that result again. *)
Definition stable (h : host) (cmd : command) : Prop :=
  forall cache, exists cmd1 cache1 cache2,
    final_command h cmd cache = (Return cmd1, cache1)
    /\ final_command h cmd1 cache1 = (Return cmd1, cache2).

End Stability.

Module Plain.
Import Chunk Word Normal Shlex.

(** A character that neither lexer treats specially. *)
Definition plain_char (c : ascii) : Prop :=
  Py.isspace c = false /\ is_quote c = false /\ c <> Py.backslash.

(** A word of such characters. *)
Definition plain (w : pystr) : Prop := w <> [] /\ Forall plain_char w.



End Plain.

(** ** Vocabulary of the further properties *)

(** The payload [subprocess.run] writes to the process: its [input]
    parameter, given by keyword or through [**kwargs]. *)
Definition effective_input (input : option Run.payload)
    (kwargs : gmap string Run.kwval) : option Run.payload :=
  match input with
  | Some p => Some p
  | None => match kwargs !! "input" with
            | Some (Run.KInput p) => Some p
            | _ => None
            end
  end.


(** The command line and the shell flag of the process spawned for
    [final_cmd]: the script interpreter on the temporary file when a shell
    type is given. *)
Definition spawn_target (rt : Run.runtime) (rq : Run.request)
    (final_cmd : command) : command * bool :=
  match Run.shell_type rq, Run.tmp_name rt with
  | Some sh, Some script_path =>
      (CmdStr (Run.get_shell_command sh ++ Py.space :: script_path), true)
  | _, _ => (final_cmd, Run.shell rq)
  end.

(** The two ways a call ends: an exception before any process is spawned,
    which is never [CalledProcessError], or exactly one process. *)
Definition one_spawn (nt : bool) (rt : Run.runtime) (rq : Run.request)
    (final_cmd : command) (kwargs : gmap string Run.kwval) (w : Run.world)
    (res : outcome Run.CompletedProcess * Run.world) : Prop :=
  (exists e,
      fst res = Raise e
      /\ (forall code, e <> CalledProcessError code)
      /\ Run.spawned (snd res) = Run.spawned w)
  \/ (exists sp,
         Run.spawned (snd res) = Run.spawned w ++ [sp]
         /\ fst res = Run.communicate nt rt sp
         /\ Run.argv sp = fst (spawn_target rt rq final_cmd)
         /\ Run.use_shell sp = snd (spawn_target rt rq final_cmd)
         /\ Run.check sp = Run.raise_on_error rq
         /\ (Run.shell_type rq = None \/ exists path, Run.tmp_name rt = Some path)
         /\ Run.call_kwargs sp = kwargs
         /\ Run.stdin_input sp
            = (if Run.interactive rq then effective_input None kwargs
               else Run.input rq)
         /\ Run.kw_truthy (kwargs !! "capture_output"%string)
            && (Run.is_not_none (kwargs !! "stdout"%string)
                || Run.is_not_none (kwargs !! "stderr"%string)) = false).

(** The shell types [validate_shell_type] accepts on the host. *)
Definition host_shells (p : Helper.platform) : list Run.ShellType :=
  Helper.active_entries RunCommands.get_os_shell_types (Helper.get_host_os p).

(** A character that may stand between double quotes without ending the
    quoted span or escaping. *)
Definition quotable (c : ascii) : Prop := c <> Py.dquote /\ c <> Py.backslash.

(** A word of a command text: no whitespace, double quote or backslash. *)
Definition clean_word (w : pystr) : Prop :=
  Chunk.chunk w /\ Forall quotable w.

(** A text between double quotes. *)
Definition quoted (body : pystr) : pystr := Py.dquote :: body ++ [Py.dquote].


(** * Facts *)

(** ** Facts about the string methods *)

Module PyFacts.
Import Chunk Word Normal Shape Glue Elevate Stability Plain.

Lemma char_eqb_eq (a b : ascii) : Py.char_eqb a b = true <-> a = b.
Proof. unfold Py.char_eqb. apply Ascii.eqb_eq. Qed.

Lemma char_eqb_refl (a : ascii) : Py.char_eqb a a = true.
Proof. apply char_eqb_eq. reflexivity. Qed.

Lemma char_eqb_neq (a b : ascii) : Py.char_eqb a b = false <-> a <> b.
Proof. unfold Py.char_eqb. apply Ascii.eqb_neq. Qed.

Lemma eqb_eq (a b : pystr) : Py.eqb a b = true <-> a = b.
Proof.
  revert b. induction a as [|x a IH]; intros [|y b]; simpl; split;
    try congruence; try reflexivity.
  - intros H. apply andb_true_iff in H as [H1 H2].
    apply char_eqb_eq in H1. apply IH in H2. congruence.
  - intros H. injection H as -> ->. apply andb_true_iff. split.
    + apply char_eqb_refl.
    + apply IH. reflexivity.
Qed.

Lemma eqb_refl (a : pystr) : Py.eqb a a = true.
Proof. apply eqb_eq. reflexivity. Qed.

Lemma mem_In (w : pystr) (ws : list pystr) : Py.mem w ws = true <-> In w ws.
Proof.
  unfold Py.mem. rewrite existsb_exists. split.
  - intros [x [Hin Heq]]. apply eqb_eq in Heq. subst. exact Hin.
  - intros Hin. exists w. split; [exact Hin | apply eqb_refl].
Qed.

Lemma contains_In (c : ascii) (s : pystr) :
  Py.contains c s = true <-> In c s.
Proof.
  unfold Py.contains. rewrite existsb_exists. split.
  - intros [x [Hin Heq]]. apply char_eqb_eq in Heq. subst. exact Hin.
  - intros Hin. exists c. split; [exact Hin | apply char_eqb_refl].
Qed.

Lemma contains_app (c : ascii) (s t : pystr) :
  Py.contains c (s ++ t) = Py.contains c s || Py.contains c t.
Proof. unfold Py.contains. apply existsb_app. Qed.

Lemma isspace_space : Py.isspace Py.space = true.
Proof. reflexivity. Qed.

Lemma isspace_newline : Py.isspace Py.newline = true.
Proof. reflexivity. Qed.

Lemma split_from_chunks (s cur : pystr) :
  spaceless cur -> Forall chunk (Py.split_from cur s).
Proof.
  revert cur. induction s as [|c s IH]; intros cur Hcur; simpl.
  - destruct cur; constructor; [|constructor]. split; [discriminate|exact Hcur].
  - destruct (Py.isspace c) eqn:Hc.
    + destruct cur.
      * apply IH. constructor.
      * constructor.
        -- split; [discriminate|exact Hcur].
        -- apply IH. constructor.
    + apply IH. apply Forall_app. split; [exact Hcur|].
      constructor; [exact Hc|constructor].
Qed.

Lemma split_chunks (s : pystr) : Forall chunk (Py.split s).
Proof. apply split_from_chunks. constructor. Qed.

Lemma split_from_spaceless (c cur s : pystr) :
  spaceless c -> Py.split_from cur (c ++ s) = Py.split_from (cur ++ c) s.
Proof.
  revert cur. induction c as [|x c IH]; intros cur Hc; simpl.
  - rewrite app_nil_r. reflexivity.
  - inversion Hc as [|? ? Hx Hc']; subst. rewrite Hx.
    rewrite IH by exact Hc'. rewrite <- app_assoc. reflexivity.
Qed.

Lemma join_cons (w : pystr) (ws : list pystr) :
  ws <> [] -> Py.join (w :: ws) = w ++ Py.space :: Py.join ws.
Proof. destruct ws; [congruence|reflexivity]. Qed.

Lemma join_app (ws vs : list pystr) :
  ws <> [] -> vs <> [] ->
  Py.join (ws ++ vs) = Py.join ws ++ Py.space :: Py.join vs.
Proof.
  intros Hws Hvs. induction ws as [|w ws IH]; [congruence|].
  destruct ws as [|w' ws].
  - simpl app. rewrite join_cons by exact Hvs. reflexivity.
  - change ((w :: w' :: ws) ++ vs) with (w :: ((w' :: ws) ++ vs)).
    rewrite join_cons by discriminate.
    rewrite IH by discriminate.
    rewrite (join_cons w (w' :: ws)) by discriminate.
    rewrite <- app_assoc. reflexivity.
Qed.

Lemma join_snoc (ws : list pystr) (w : pystr) :
  ws <> [] -> Py.join (ws ++ [w]) = Py.join ws ++ Py.space :: w.
Proof. intros H. apply join_app; [exact H|discriminate]. Qed.

(** [split] undoes [join] on chunks. *)
Lemma split_join (cs : list pystr) :
  Forall chunk cs -> Py.split (Py.join cs) = cs.
Proof.
  unfold Py.split. induction cs as [|c cs IH]; intros H; [reflexivity|].
  inversion H as [|? ? [Hne Hc] Hcs]; subst.
  destruct cs as [|c' cs].
  - simpl. rewrite <- (app_nil_r c) at 1.
    rewrite split_from_spaceless by exact Hc. simpl.
    destruct c; [congruence|reflexivity].
  - rewrite join_cons by discriminate.
    rewrite split_from_spaceless by exact Hc. simpl app.
    cbn [Py.split_from]. rewrite isspace_space.
    rewrite (IH Hcs). destruct c; [congruence|reflexivity].
Qed.

(** In a join of chunks every whitespace character is a single space. *)
Lemma join_chunks_chars (cs : list pystr) :
  Forall chunk cs ->
  Forall (fun c => Py.isspace c = false \/ c = Py.space) (Py.join cs).
Proof.
  induction cs as [|c cs IH]; intros H; [constructor|].
  inversion H as [|? ? [_ Hc] Hcs]; subst.
  assert (Hc' : Forall (fun c => Py.isspace c = false \/ c = Py.space) c).
  { eapply Forall_impl; [exact Hc|]. intros; left; assumption. }
  destruct cs as [|c' cs]; [exact Hc'|].
  rewrite join_cons by discriminate.
  apply Forall_app. split; [exact Hc'|].
  constructor; [right; reflexivity|]. apply IH. exact Hcs.
Qed.

Lemma join_chunks_no_newline (cs : list pystr) :
  Forall chunk cs -> Py.contains Py.newline (Py.join cs) = false.
Proof.
  intros H. apply not_true_iff_false. intros Hin.
  apply contains_In in Hin.
  pose proof (join_chunks_chars cs H) as Hall.
  rewrite List.Forall_forall in Hall. destruct (Hall _ Hin) as [Hs|Hs].
  - rewrite isspace_newline in Hs. discriminate.
  - discriminate.
Qed.

Lemma join_chars (P : ascii -> Prop) (ws : list pystr) :
  P Py.space -> Forall (Forall P) ws -> Forall P (Py.join ws).
Proof.
  intros Hsp. induction ws as [|w ws IH]; intros H; [constructor|].
  inversion H as [|? ? Hw Hws]; subst. destruct ws as [|w' ws]; [exact Hw|].
  rewrite join_cons by discriminate. apply Forall_app. split; [exact Hw|].
  constructor; [exact Hsp|]. apply IH. exact Hws.
Qed.

Lemma split_from_chars (P : ascii -> Prop) (s : pystr) : forall cur,
  Forall P cur -> Forall P s -> Forall (Forall P) (Py.split_from cur s).
Proof.
  induction s as [|c s IH]; intros cur Hcur Hs; cbn.
  - destruct cur; constructor; [exact Hcur|constructor].
  - inversion Hs as [|? ? Hc Hs']; subst. destruct (Py.isspace c).
    + destruct cur.
      * apply IH; [constructor|exact Hs'].
      * constructor; [exact Hcur|]. apply IH; [constructor|exact Hs'].
    + apply IH; [|exact Hs']. apply Forall_app. split; [exact Hcur|].
      constructor; [exact Hc|constructor].
Qed.

Lemma split_chars (P : ascii -> Prop) (s : pystr) :
  Forall P s -> Forall (Forall P) (Py.split s).
Proof. apply split_from_chars. constructor. Qed.

Lemma contains_cons (c d : ascii) (s : pystr) :
  Py.contains c (d :: s) = Py.char_eqb c d || Py.contains c s.
Proof. reflexivity. Qed.

Lemma char_eqb_sym (a b : ascii) : Py.char_eqb a b = Py.char_eqb b a.
Proof. unfold Py.char_eqb. apply Ascii.eqb_sym. Qed.

Lemma replace_continuation_id (s : pystr) :
  Py.contains Py.newline s = false -> Py.replace_continuation s = s.
Proof.
  induction s as [|c s IH]; intros H; [reflexivity|].
  rewrite contains_cons in H. apply orb_false_iff in H as [Hc Hs].
  cbn [Py.replace_continuation]. destruct s as [|d s']; [reflexivity|].
  assert (Hd : Py.char_eqb d Py.newline = false).
  { rewrite contains_cons in Hs. apply orb_false_iff in Hs as [Hd _].
    rewrite char_eqb_sym. exact Hd. }
  rewrite Hd, andb_false_r. f_equal. apply IH. exact Hs.
Qed.

End PyFacts.

(** ** The scanning loop, word by word *)

Module Scan.
Import Chunk Word Normal Shape Glue Elevate Stability Plain.
Import PyFacts.

Lemma quote_of_inject (g : gstate) (w : pystr) (q : qstate) :
  quote_of (inject g w q) = q.
Proof. destruct q. reflexivity. Qed.


Lemma scan_step_keep (g : gstate) (w : pystr) (q : qstate) (c : ascii) :
  breaks q c = false ->
  scan_step (inject g w q) c = inject g (w ++ [c]) (qnext q c).
Proof.
  destruct g as [ps ss cp], q as [iq qc].
  unfold breaks, qnext, toggles, scan_step, inject. cbn.
  destruct (is_quote c && (negb iq || opt_char_eqb qc c)); cbn.
  - intros _. destruct iq; reflexivity.
  - intros ->. reflexivity.
Qed.

Lemma scan_step_break (g : gstate) (w : pystr) (q : qstate) (c : ascii) :
  breaks q c = true -> w <> [] ->
  scan_step (inject g w q) c = inject (group_step g w) [] q.
Proof.
  destruct g as [ps ss cp], q as [iq qc].
  unfold breaks, toggles, scan_step, inject, group_step. cbn.
  destruct (is_quote c && (negb iq || opt_char_eqb qc c)); cbn;
    [discriminate|].
  intros -> Hw. destruct w; [congruence|]. cbn.
  destruct (is_chain_operator (a :: w)); [|reflexivity].
  destruct cp; reflexivity.
Qed.

Lemma scan_loop_word (w : pystr) : forall g v q q',
  wscan q w = Some q' ->
  scan_loop (inject g v q) w = inject g (v ++ w) q'.
Proof.
  induction w as [|c w IH]; intros g v q q' H; cbn in H.
  - injection H as <-. rewrite app_nil_r. reflexivity.
  - destruct (breaks q c) eqn:Hb; [discriminate|].
    unfold scan_loop. cbn [fold_left].
    rewrite scan_step_keep by exact Hb.
    change (scan_loop (inject g (v ++ [c]) (qnext q c)) w
            = inject g (v ++ c :: w) q').
    rewrite (IH _ _ _ _ H). rewrite <- app_assoc. reflexivity.
Qed.

Lemma scan_loop_cons (st : scan_state) (c : ascii) (s : pystr) :
  scan_loop st (c :: s) = scan_loop (scan_step st c) s.
Proof. reflexivity. Qed.

Lemma scan_loop_app (st : scan_state) (a b : pystr) :
  scan_loop st (a ++ b) = scan_loop (scan_loop st a) b.
Proof. unfold scan_loop. apply fold_left_app. Qed.

Lemma scan_finish_word (g : gstate) (w : pystr) (q : qstate) :
  w <> [] -> scan_finish (inject g w q) = close (group_step g w).
Proof.
  destruct g as [ps ss cp]. intros Hw.
  unfold scan_finish, close, group_step, inject. cbn.
  destruct w as [|a w]; [congruence|]. cbn.
  destruct (is_chain_operator (a :: w)); cbn.
  - destruct cp as [|x cp]; cbn; [reflexivity|].
    destruct (ps ++ [x :: cp]) eqn:E; [|reflexivity].
    destruct ps; discriminate.
  - destruct (cp ++ [a :: w]) eqn:E; [destruct cp; discriminate|].
    reflexivity.
Qed.

Lemma breaks_space (q : qstate) : fst q = false -> breaks q Py.space = true.
Proof. destruct q as [iq qc]; cbn. intros ->. reflexivity. Qed.

Lemma closed_unbroken (w : pystr) : closed w -> unbroken w.
Proof. intros [H1 H2]. split; [exact H1|]. exists q0. exact H2. Qed.

(** Scanning words that are joined by single spaces groups them. *)
Lemma scan_join (ws : list pystr) : forall (w : pystr) (g : gstate),
  Forall closed ws -> unbroken w ->
  scan_finish (scan_loop (inject g [] q0) (Py.join (ws ++ [w])))
  = close (fold_left group_step (ws ++ [w]) g).
Proof.
  induction ws as [|a ws IH]; intros w g Hws [Hw [q Hq]].
  - cbn [app Py.join fold_left].
    rewrite (scan_loop_word w g [] q0 q Hq). cbn [app].
    apply scan_finish_word. exact Hw.
  - inversion Hws as [|? ? [Ha Hqa] Hws']; subst.
    change ((a :: ws) ++ [w]) with (a :: (ws ++ [w])).
    rewrite join_cons by (destruct ws; discriminate).
    rewrite scan_loop_app. rewrite (scan_loop_word a g [] q0 q0 Hqa).
    cbn [app]. unfold scan_loop at 1. cbn [fold_left].
    rewrite scan_step_break; [|apply breaks_space; reflexivity|exact Ha].
    cbn [fold_left].
    apply (IH w (group_step g a) Hws'). split; [exact Hw|]. exists q. exact Hq.
Qed.

End Scan.

(** ** The words of a normalised command *)

Module Words.
Import Chunk Word Normal Shape Glue Elevate Stability Plain.
Import PyFacts Scan.

Lemma wscan_app (a b : pystr) : forall q,
  wscan q (a ++ b)
  = match wscan q a with Some q' => wscan q' b | None => None end.
Proof.
  induction a as [|c a IH]; intros q; cbn; [reflexivity|].
  destruct (breaks q c); [reflexivity|apply IH].
Qed.

Lemma breaks_nonspace (q : qstate) (c : ascii) :
  Py.isspace c = false -> breaks q c = false.
Proof. unfold breaks. intros ->. apply andb_false_r. Qed.

Lemma wscan_spaceless (c : pystr) : forall q,
  spaceless c -> exists q', wscan q c = Some q'.
Proof.
  induction c as [|x c IH]; intros q H; cbn.
  - exists q. reflexivity.
  - inversion H as [|? ? Hx Hc]; subst.
    rewrite breaks_nonspace by exact Hx. apply IH. exact Hc.
Qed.

Lemma qnext_wf (q : qstate) (c : ascii) : qwf q -> qwf (qnext q c).
Proof.
  destruct q as [iq qc]. unfold qwf, qnext. cbn.
  destruct (toggles (iq, qc) c); cbn; [|tauto].
  destruct iq; cbn; [reflexivity|discriminate].
Qed.

Lemma wscan_wf (w : pystr) : forall q q',
  qwf q -> wscan q w = Some q' -> qwf q'.
Proof.
  induction w as [|c w IH]; intros q q' Hq H; cbn in H.
  - injection H as <-. exact Hq.
  - destruct (breaks q c); [discriminate|].
    eapply IH; [|exact H]. apply qnext_wf. exact Hq.
Qed.

Lemma wscan_q0_outside (w : pystr) (q : qstate) :
  wscan q0 w = Some q -> fst q = false -> q = q0.
Proof.
  intros H Hf. assert (Hwf : qwf q).
  { eapply wscan_wf; [|exact H]. intros _. reflexivity. }
  destruct q as [iq qc]. unfold qwf in Hwf. cbn in Hf, Hwf. subst iq.
  unfold q0. f_equal. apply Hwf. reflexivity.
Qed.

Lemma toggles_space (q : qstate) : toggles q Py.space = false.
Proof. reflexivity. Qed.

Lemma wscan_space_inside (q : qstate) :
  fst q = true -> wscan q [Py.space] = Some q.
Proof.
  intros H. cbn. unfold breaks, qnext. rewrite toggles_space, H.
  reflexivity.
Qed.

Lemma pending_snoc (run : list pystr) (c : pystr) :
  pending run ++ c = Py.join (run ++ [c]).
Proof.
  destruct run as [|r run]; [reflexivity|].
  unfold pending. rewrite join_snoc by discriminate.
  rewrite <- app_assoc. reflexivity.
Qed.

Lemma good_semi (w : pystr) : good w -> semi w.
Proof. intros [H1 H2]. split; [apply closed_unbroken; exact H1|exact H2]. Qed.

Lemma operator_cases (w : pystr) :
  is_chain_operator w = true ->
  w = str "&&" \/ w = str "||" \/ w = str "|".
Proof.
  unfold is_chain_operator. rewrite mem_In. cbn. intuition auto.
Qed.

Lemma operator_good (w : pystr) : is_chain_operator w = true -> good w.
Proof.
  intros H. apply operator_cases in H.
  assert (Hc : chunk w).
  { destruct H as [-> | [-> | ->]]; (split; [discriminate|]);
      repeat constructor. }
  split.
  - destruct H as [-> | [-> | ->]]; (split; [discriminate|reflexivity]).
  - exists [w]. split; [discriminate|]. split; [|reflexivity].
    constructor; [exact Hc|constructor].
Qed.

Lemma operator_no_space (w : pystr) :
  is_chain_operator w = true -> ~ In Py.space w.
Proof.
  intros H. apply operator_cases in H.
  destruct H as [-> | [-> | ->]]; cbn; intros Hin;
    repeat (destruct Hin as [Hin|Hin]; [discriminate|]); exact Hin.
Qed.

Lemma sudo_good : good sudo.
Proof.
  split.
  - split; [discriminate|reflexivity].
  - exists [sudo]. split; [discriminate|]. split; [|reflexivity].
    constructor; [|constructor]. split; [discriminate|].
    repeat constructor.
Qed.

Lemma scan_chunks (cs : list pystr) :
  Forall chunk cs -> cs <> [] ->
  forall (g : gstate) (run : list pystr) (q : qstate),
    Forall chunk run ->
    wscan q0 (pending run) = Some q ->
    (run = [] \/ fst q = true) ->
    exists ws w,
      scan_finish (scan_loop (inject g (pending run) q) (Py.join cs))
      = close (fold_left group_step (ws ++ [w]) g)
      /\ Forall good ws /\ semi w
      /\ (is_chain_operator w = true ->
          is_chain_operator (List.last cs []) = true)
      /\ wscan q0 w
         = Some (quote_of (scan_loop (inject g (pending run) q) (Py.join cs)))
      /\ (forall P : ascii -> Prop,
            P Py.space -> Forall (Forall P) cs -> Forall (Forall P) run ->
            Forall (Forall P) (ws ++ [w])).
Proof.
  induction cs as [|c cs IH]; intros Hcs Hne g run q Hrun Hq Hin;
    [congruence|].
  inversion Hcs as [|? ? [Hcne Hc] Hcs']; subst.
  destruct (wscan_spaceless c q Hc) as [q' Hq'].
  assert (Hword : wscan q0 (Py.join (run ++ [c])) = Some q').
  { rewrite <- pending_snoc, wscan_app, Hq. exact Hq'. }
  assert (Hnorm : normal (Py.join (run ++ [c]))).
  { exists (run ++ [c]). split; [destruct run; discriminate|].
    split; [|reflexivity]. apply Forall_app. split; [exact Hrun|].
    constructor; [split; assumption|constructor]. }
  assert (Hnonnil : Py.join (run ++ [c]) <> []).
  { rewrite <- pending_snoc. destruct c; [congruence|].
    destruct (pending run); discriminate. }
  assert (Hchars : forall P : ascii -> Prop,
            P Py.space -> Forall P c -> Forall (Forall P) run ->
            Forall P (Py.join (run ++ [c]))).
  { intros P Hsp HPc HPr. apply join_chars; [exact Hsp|].
    apply Forall_app. split; [exact HPr|]. constructor; [exact HPc|constructor]. }
  destruct cs as [|c' cs].
  - (* the last chunk *)
    exists [], (Py.join (run ++ [c])). cbn [Py.join app fold_left].
    rewrite (scan_loop_word c g (pending run) q q' Hq').
    rewrite pending_snoc, quote_of_inject.
    split; [apply scan_finish_word; exact Hnonnil|].
    split; [constructor|]. split; [|split; [|split]].
    + split; [|exact Hnorm]. split; [exact Hnonnil|]. exists q'. exact Hword.
    + intros Hop. cbn [List.last].
      destruct run as [|r run]; [exact Hop|].
      exfalso. apply (operator_no_space _ Hop).
      rewrite join_snoc by discriminate. apply in_or_app. right. left.
      reflexivity.
    + exact Hword.
    + intros P Hsp HPcs HPr. inversion HPcs; subst.
      constructor; [|constructor]. apply Hchars; assumption.
  - rewrite join_cons by discriminate. rewrite scan_loop_app.
    rewrite (scan_loop_word c g (pending run) q q' Hq').
    rewrite pending_snoc.
    rewrite scan_loop_cons.
    destruct (fst q') eqn:Hf.
    + (* the space is inside quotes: the word goes on *)
      rewrite scan_step_keep
        by (unfold breaks; rewrite Hf; cbn; apply andb_false_r).
      assert (Hq'' : qnext q' Py.space = q') by reflexivity.
      rewrite Hq''.
      assert (Hp : Py.join (run ++ [c]) ++ [Py.space] = pending (run ++ [c])).
      { unfold pending. destruct (run ++ [c]) eqn:E; [|reflexivity].
        destruct run; discriminate. }
      rewrite Hp.
      destruct (IH Hcs' ltac:(discriminate) g (run ++ [c]) q')
        as (ws & w & Hres & Hws & Hw & Hop & Hqf & Hch).
      * apply Forall_app. split; [exact Hrun|].
        constructor; [split; assumption|constructor].
      * rewrite <- Hp, wscan_app, Hword. apply wscan_space_inside. exact Hf.
      * right. exact Hf.
      * exists ws, w. split; [exact Hres|]. split; [exact Hws|].
        split; [exact Hw|]. split; [exact Hop|]. split; [exact Hqf|].
        intros P Hsp HPcs HPr. inversion HPcs; subst.
        apply Hch; [exact Hsp|assumption|].
        apply Forall_app. split; [exact HPr|].
        constructor; [assumption|constructor].
    + (* the space ends the word *)
      rewrite scan_step_break;
        [|apply breaks_space; exact Hf|exact Hnonnil].
      assert (Hq0 : q' = q0) by (eapply wscan_q0_outside; eassumption).
      subst q'.
      destruct (IH Hcs' ltac:(discriminate)
                   (group_step g (Py.join (run ++ [c]))) [] q0)
        as (ws & w & Hres & Hws & Hw & Hop & Hqf & Hch).
      * constructor.
      * reflexivity.
      * left. reflexivity.
      * exists (Py.join (run ++ [c]) :: ws), w.
        split; [exact Hres|]. split; [|split; [exact Hw|]].
        { constructor; [|exact Hws]. split; [|exact Hnorm].
          split; [exact Hnonnil|exact Hword]. }
        split; [exact Hop|]. split; [exact Hqf|].
        intros P Hsp HPcs HPr. inversion HPcs; subst. cbn [app].
        constructor; [apply Hchars; assumption|].
        apply Hch; [exact Hsp|assumption|constructor].
Qed.

(** A one-line command is parsed by grouping its words. *)
Lemma parse_words (s : pystr) :
  Py.contains Py.newline s = false ->
  (Py.split s = [] /\ parse_command (CmdStr s) = ([[]], []))
  \/ exists ws w,
       parse_command (CmdStr s) = group (ws ++ [w])
       /\ Forall good ws /\ semi w
       /\ (is_chain_operator w = true ->
           is_chain_operator (List.last (Py.split s) []) = true)
       /\ wscan q0 w = Some (quote_of (scan_loop scan_init (normalize s)))
       /\ (forall P : ascii -> Prop,
             P Py.space -> Forall P s -> Forall (Forall P) (ws ++ [w])).
Proof.
  intros Hnl. unfold parse_command, normalize. rewrite Hnl.
  rewrite replace_continuation_id by exact Hnl.
  assert (Hsplit : forall P : ascii -> Prop,
            Forall P s -> Forall (Forall P) (Py.split s))
    by (intros P; apply split_chars).
  destruct (Py.split s) as [|c cs] eqn:E.
  - left. split; reflexivity.
  - right.
    destruct (scan_chunks (c :: cs)) with (g := g_init) (run := @nil pystr)
      (q := q0) as (ws & w & Hres & Hws & Hw & Hop & Hqf & Hch).
    + rewrite <- E. apply split_chunks.
    + discriminate.
    + constructor.
    + reflexivity.
    + left. reflexivity.
    + exists ws, w. split; [exact Hres|]. split; [exact Hws|].
      split; [exact Hw|]. split; [exact Hop|]. split; [exact Hqf|].
      intros P Hsp HPs. apply Hch; [exact Hsp|apply Hsplit; exact HPs|constructor].
Qed.

End Words.

(** ** What [parse_command] returns for a one-line command *)

Module Parsed.
Import Chunk Word Normal Shape Glue Elevate Stability Plain.
Import PyFacts Scan Words.

Lemma ginv_init : ginv g_init.
Proof. split; cbn; constructor. Qed.

Lemma group_step_inv (g : gstate) (w : pystr) :
  ginv g -> good w -> ginv (group_step g w).
Proof.
  intros [H1 H2 H3 H4 H5] Hw. unfold group_step.
  destruct (is_chain_operator w) eqn:Hop.
  - destruct (g_part g) as [|x cp] eqn:Hcp; cbn.
    + split; cbn; first [assumption|constructor].
    + split; cbn.
      * rewrite !length_app. cbn. lia.
      * apply Forall_app. split; [exact H2|].
        constructor; [exact Hop|constructor].
      * apply Forall_app. split; [exact H3|].
        constructor; [discriminate|constructor].
      * apply Forall_app. split; [exact H4|].
        constructor; [exact H5|constructor].
      * constructor.
  - split; cbn; try assumption.
    apply Forall_app. split; [exact H5|].
    constructor; [split; assumption|constructor].
Qed.

Lemma fold_group_inv (ws : list pystr) : forall g,
  ginv g -> Forall good ws -> ginv (fold_left group_step ws g).
Proof.
  induction ws as [|w ws IH]; intros g Hg Hws; cbn; [exact Hg|].
  inversion Hws; subst. apply IH; [apply group_step_inv|]; assumption.
Qed.

Lemma wok_cons (w : pystr) (l : list pystr) :
  l <> [] -> (wok (w :: l) <-> good w /\ wok l).
Proof. destruct l; [congruence|]. intros _. reflexivity. Qed.

Lemma wok_good (l : list pystr) : Forall good l -> wok l.
Proof.
  induction l as [|w l IH]; intros H; [exact I|].
  inversion H; subst. destruct l as [|w' l].
  - cbn. apply good_semi. assumption.
  - apply wok_cons; [discriminate|]. split; [assumption|apply IH; assumption].
Qed.

Lemma wok_app (a b : list pystr) : Forall good a -> wok b -> wok (a ++ b).
Proof.
  induction a as [|w a IH]; intros Ha Hb; [exact Hb|].
  inversion Ha as [|? ? Hw Ha']; subst. specialize (IH Ha' Hb).
  cbn [app]. destruct (a ++ b) as [|x l].
  - cbn. apply good_semi. exact Hw.
  - apply wok_cons; [discriminate|]. split; assumption.
Qed.

Lemma wok_snoc (ws : list pystr) (w : pystr) :
  Forall good ws -> semi w -> wok (ws ++ [w]).
Proof. intros H1 H2. apply wok_app; [exact H1|exact H2]. Qed.

Lemma wok_app_inv (a b : list pystr) :
  wok (a ++ b) -> b <> [] -> Forall good a /\ wok b.
Proof.
  induction a as [|w a IH]; intros H Hb.
  - split; [constructor|exact H].
  - cbn [app] in H. apply wok_cons in H; [|destruct a; [exact Hb|discriminate]].
    destruct H as [Hw H]. destruct (IH H Hb) as [Ha Hb'].
    split; [constructor; assumption|exact Hb'].
Qed.

Lemma wok_inv (l : list pystr) :
  wok l -> l = [] \/ exists ws w, l = ws ++ [w] /\ Forall good ws /\ semi w.
Proof.
  intros H. destruct l as [|x l]; [left; reflexivity|right].
  destruct (exists_last (l := x :: l)) as (ws & w & E); [discriminate|].
  rewrite E in H |- *. exists ws, w. split; [reflexivity|].
  apply wok_app_inv in H; [|discriminate]. exact H.
Qed.

Lemma wok_normal (l : list pystr) : wok l -> Forall normal l.
Proof.
  intros H. apply wok_inv in H as [->|(ws & w & -> & Hws & Hw)];
    [constructor|].
  apply Forall_app. split.
  - eapply Forall_impl; [exact Hws|]. intros x [_ Hx]. exact Hx.
  - constructor; [apply Hw|constructor].
Qed.

Lemma tokens_non_op (l : list pystr) : Forall token l -> Forall non_op l.
Proof. intros H. eapply Forall_impl; [exact H|]. intros x [_ Hx]. exact Hx. Qed.

Lemma tokens_good (l : list pystr) : Forall token l -> Forall good l.
Proof. intros H. eapply Forall_impl; [exact H|]. intros x [Hx _]. exact Hx. Qed.

Lemma parts_good (ps : list (list pystr)) :
  Forall (Forall token) ps -> Forall good (concat ps).
Proof.
  induction ps as [|p ps IH]; intros H; [constructor|].
  inversion H; subst. cbn. apply Forall_app.
  split; [apply tokens_good; assumption|apply IH; assumption].
Qed.

Lemma parts_non_op (ps : list (list pystr)) :
  Forall (Forall token) ps -> Forall (Forall non_op) ps.
Proof.
  intros H. eapply Forall_impl; [exact H|]. intros p. apply tokens_non_op.
Qed.

Lemma snoc_or_default {A} (P : list (list A)) (p : list A) :
  match P ++ [p] with [] => [[]] | _ => P ++ [p] end = P ++ [p].
Proof. destruct P; reflexivity. Qed.

Lemma close_step_op (P : list (list pystr)) (S cp : list pystr) (w : pystr) :
  is_op w -> cp <> [] ->
  close (group_step (G P S cp) w) = (P ++ [cp], S ++ [w]).
Proof.
  intros Hop Hcp. unfold group_step, close. rewrite Hop.
  destruct cp; [congruence|]. cbn. rewrite snoc_or_default. reflexivity.
Qed.

Lemma close_step_op_empty (P : list (list pystr)) (S : list pystr) (w : pystr) :
  is_op w ->
  close (group_step (G P S []) w)
  = (match P with [] => [[]] | _ => P end, S).
Proof. intros Hop. unfold group_step, close. rewrite Hop. reflexivity. Qed.

Lemma close_step_word (P : list (list pystr)) (S cp : list pystr) (w : pystr) :
  non_op w ->
  close (group_step (G P S cp) w) = (P ++ [cp ++ [w]], S).
Proof.
  intros Hop. unfold group_step, close. rewrite Hop. cbn.
  assert (Hne : nonempty (cp ++ [w]) = true) by (destruct cp; reflexivity).
  rewrite Hne, snoc_or_default. reflexivity.
Qed.

Lemma close_parsed (g : gstate) (w : pystr) :
  ginv g -> semi w ->
  parsed (fst (close (group_step g w))) (snd (close (group_step g w)))
  /\ (non_op w ->
      length (snd (close (group_step g w)))
      = length (fst (close (group_step g w))) - 1).
Proof.
  intros [H1 H2 H3 H4 H5] Hw. destruct g as [P S cp].
  cbn in H1, H2, H3, H4, H5.
  destruct (is_chain_operator w) eqn:Hop.
  - split; [|unfold non_op; congruence].
    destruct cp as [|x cp].
    + rewrite close_step_op_empty by exact Hop.
      destruct P as [|p P]; cbn.
      * destruct S; [|discriminate]. unfold parsed. cbn.
        split; [constructor|]. split; [left; reflexivity|].
        split; [left; split; reflexivity|].
        split; [repeat constructor|exact I].
      * unfold parsed. split; [exact H2|]. split; [right; exact (eq_sym H1)|].
        split; [right; split; [discriminate|exact H3]|].
        split; [apply parts_non_op; exact H4|].
        apply wok_good. apply parts_good. exact H4.
    + rewrite close_step_op by (exact Hop || discriminate).
      unfold parsed. cbn [fst snd].
      split; [apply Forall_app; split;
                [exact H2|constructor; [exact Hop|constructor]]|].
      split; [right; rewrite !length_app; cbn; lia|].
      split; [right; split; [destruct P; discriminate|]|].
      { apply Forall_app. split; [exact H3|].
        constructor; [discriminate|constructor]. }
      split.
      { apply Forall_app. split; [apply parts_non_op; exact H4|].
        constructor; [apply tokens_non_op; exact H5|constructor]. }
      apply wok_good. apply parts_good. apply Forall_app.
      split; [exact H4|]. constructor; [exact H5|constructor].
  - rewrite close_step_word by exact Hop. cbn [fst snd].
    split; [|intros _; rewrite length_app; cbn; lia].
    unfold parsed. split; [exact H2|].
    split; [left; rewrite length_app; cbn; lia|].
    split; [right; split; [destruct P; discriminate|]|].
    { apply Forall_app. split; [exact H3|].
      constructor; [destruct cp; discriminate|constructor]. }
    split.
    { apply Forall_app. split; [apply parts_non_op; exact H4|].
      constructor; [|constructor]. apply Forall_app.
      split; [apply tokens_non_op; exact H5|].
      constructor; [exact Hop|constructor]. }
    rewrite concat_app. cbn. rewrite app_nil_r, app_assoc.
    apply wok_snoc; [|exact Hw]. apply Forall_app.
    split; [apply parts_good; exact H4|apply tokens_good; exact H5].
Qed.

(** The result of parsing any one-line command has this shape. *)
Lemma parse_parsed (s : pystr) :
  Py.contains Py.newline s = false ->
  parsed (fst (parse_command (CmdStr s))) (snd (parse_command (CmdStr s)))
  /\ (non_op (List.last (Py.split s) []) ->
      length (snd (parse_command (CmdStr s)))
      = length (fst (parse_command (CmdStr s))) - 1).
Proof.
  intros Hnl.
  destruct (parse_words s Hnl) as [[_ ->]|(ws & w & -> & Hws & Hw & Hop & _)].
  - cbn. split; [|reflexivity]. unfold parsed. cbn.
    split; [constructor|]. split; [left; reflexivity|].
    split; [left; split; reflexivity|]. split; [repeat constructor|exact I].
  - unfold group. rewrite fold_left_app. cbn [fold_left].
    destruct (close_parsed (fold_left group_step ws g_init) w) as [Hp Hl];
      [apply fold_group_inv; [apply ginv_init|exact Hws]|exact Hw|].
    split; [exact Hp|]. intros Hlast. apply Hl. unfold non_op in *.
    destruct (is_chain_operator w) eqn:E; [|reflexivity].
    rewrite (Hop eq_refl) in Hlast. discriminate.
Qed.

End Parsed.

(** ** Parsing a command rebuilt from words *)

Module Rebuild.
Import Chunk Word Normal Shape Glue Elevate Stability Plain.
Import PyFacts Scan Words Parsed.

(** A join of normalised words is a join of chunks. *)
Lemma join_normal (ws : list pystr) :
  Forall normal ws ->
  exists cs, Forall chunk cs /\ Py.join ws = Py.join cs
             /\ (ws <> [] -> cs <> []).
Proof.
  induction ws as [|w ws IH]; intros H.
  - exists []. split; [constructor|]. split; [reflexivity|congruence].
  - inversion H as [|? ? (run & Hne & Hrun & ->) Hws]; subst.
    destruct (IH Hws) as (cs & Hcs & E & Hnn).
    exists (run ++ cs). split; [apply Forall_app; split; assumption|].
    split; [|intros _; destruct run; [congruence|discriminate]].
    destruct ws as [|w' ws].
    + cbn in E. destruct cs as [|c cs].
      * rewrite app_nil_r. reflexivity.
      * exfalso. inversion Hcs as [|? ? [Hc _] Hcs']; subst.
        destruct cs; [cbn in E; congruence|].
        rewrite join_cons in E by discriminate. destruct c; [congruence|discriminate].
    + rewrite join_cons by discriminate. rewrite E.
      rewrite join_app; [reflexivity|exact Hne|apply Hnn; discriminate].
Qed.

(** Normalising such a join changes nothing. *)
Lemma normalize_join (ws : list pystr) :
  Forall normal ws ->
  Py.contains Py.newline (Py.join ws) = false
  /\ normalize (Py.join ws) = Py.join ws.
Proof.
  intros H. destruct (join_normal ws H) as (cs & Hcs & E & _).
  rewrite E. assert (Hnl := join_chunks_no_newline cs Hcs).
  split; [exact Hnl|]. unfold normalize.
  rewrite replace_continuation_id by exact Hnl.
  rewrite split_join by exact Hcs. reflexivity.
Qed.

(** Parsing the join of a list of scanned words groups exactly them. *)
Lemma parse_join (l : list pystr) :
  wok l -> parse_command (CmdStr (Py.join l)) = group l.
Proof.
  intros H. destruct (normalize_join l (wok_normal l H)) as [Hnl Hn].
  unfold parse_command. rewrite Hnl, Hn.
  apply wok_inv in H as [->|(ws & w & -> & Hws & Hw)]; [reflexivity|].
  change scan_init with (inject g_init [] q0).
  apply scan_join.
  - eapply Forall_impl; [exact Hws|]. intros x [Hx _]. exact Hx.
  - apply Hw.
Qed.

Lemma skipn_nth {A} (d : A) (l : list A) : forall i,
  i < length l -> skipn i l = nth i l d :: skipn (S i) l.
Proof.
  induction l as [|x l IH]; intros i Hi; cbn in Hi; [lia|].
  destruct i; [reflexivity|]. cbn [skipn nth].
  rewrite (IH i) by lia. reflexivity.
Qed.

Lemma reconstruct_from_glue (ps : list (list pystr)) (ss : list pystr) :
  forall i, reconstruct_from (S i) ps ss = glue (skipn i ss) ps.
Proof.
  induction ps as [|p ps IH]; intros i; [reflexivity|].
  cbn [reconstruct_from glue]. rewrite IH.
  replace (S i - 1) with i by lia.
  change (0 <? S i) with true. cbn [andb].
  destruct (Nat.ltb_spec i (length ss)) as [Hi|Hi].
  - rewrite (skipn_nth [] ss i Hi). reflexivity.
  - rewrite (skipn_all2 ss) by lia.
    rewrite (skipn_all2 ss) by lia. reflexivity.
Qed.

Lemma reconstruct_glue (p : list pystr) (ps : list (list pystr))
    (ss : list pystr) :
  reconstruct (p :: ps) ss = p ++ glue ss ps.
Proof.
  unfold reconstruct. cbn [reconstruct_from]. rewrite reconstruct_from_glue.
  reflexivity.
Qed.

Lemma fold_group_tokens (p : list pystr) : forall g,
  Forall non_op p ->
  fold_left group_step p g = G (g_parts g) (g_seps g) (g_part g ++ p).
Proof.
  induction p as [|w p IH]; intros g H.
  - rewrite app_nil_r. destruct g; reflexivity.
  - inversion H as [|? ? Hw Hp]; subst. cbn [fold_left].
    rewrite IH by exact Hp. unfold group_step. rewrite Hw. cbn.
    rewrite <- app_assoc. reflexivity.
Qed.

Lemma close_part (P : list (list pystr)) (sp p : list pystr) :
  p <> [] -> close (G P sp p) = (P ++ [p], sp).
Proof.
  intros Hp. unfold close. destruct p; [congruence|]. cbn.
  rewrite snoc_or_default. reflexivity.
Qed.

Lemma group_glue (rest : list (list pystr)) :
  forall (ss : list pystr) (P : list (list pystr)) (sp p : list pystr),
    p <> [] -> Forall non_op p ->
    Forall (fun r => r <> []) rest -> Forall (Forall non_op) rest ->
    Forall is_op ss -> length rest <= length ss ->
    close (fold_left group_step (p ++ glue ss rest) (G P sp []))
    = (P ++ p :: rest, sp ++ firstn (length rest) ss).
Proof.
  induction rest as [|r rest IH]; intros ss P sp p Hp Hpo Hne Hro Hss Hlen.
  - cbn [glue]. rewrite app_nil_r, fold_group_tokens by exact Hpo. cbn.
    rewrite close_part by exact Hp. rewrite app_nil_r. reflexivity.
  - destruct ss as [|s ss]; [cbn in Hlen; lia|].
    inversion Hne as [|? ? Hr Hne']; inversion Hro as [|? ? Hrn Hro'];
      inversion Hss as [|? ? Hs Hss']; subst.
    cbn [glue]. rewrite fold_left_app.
    rewrite (fold_group_tokens p) by exact Hpo.
    cbn [fold_left g_parts g_seps g_part app].
    unfold group_step at 2. cbn [g_part g_parts g_seps].
    rewrite Hs.
    destruct p as [|x p]; [congruence|]. cbn [nonempty].
    rewrite IH; try assumption; [|cbn in Hlen; lia].
    cbn [length firstn]. rewrite <- !app_assoc. reflexivity.
Qed.

(** Grouping the rebuilt words gives back the parts, and the separators
    that stand between two parts. *)
Lemma group_reconstruct (ps : list (list pystr)) (ss : list pystr) :
  ps <> [] -> Forall (fun p => p <> []) ps -> Forall (Forall non_op) ps ->
  Forall is_op ss -> length ps - 1 <= length ss ->
  group (reconstruct ps ss) = (ps, firstn (length ps - 1) ss).
Proof.
  intros Hps Hne Hno Hss Hlen. destruct ps as [|p ps]; [congruence|].
  inversion Hne; inversion Hno; subst.
  rewrite reconstruct_glue. unfold group, g_init.
  rewrite group_glue; try assumption; [|cbn in Hlen; lia].
  cbn. rewrite Nat.sub_0_r. reflexivity.
Qed.

Section Prefixed.
(** A rewrite that leaves a part alone or puts [sudo] in front. *)
Variable f : list pystr -> list pystr.
Hypothesis f_cases : forall p, f p = p \/ f p = sudo :: p.

Lemma f_nonempty (p : list pystr) : p <> [] -> f p <> [].
Proof. intros Hp. destruct (f_cases p) as [-> | ->]; [exact Hp|discriminate]. Qed.

Lemma wok_f (r t : list pystr) : r <> [] -> wok (r ++ t) -> wok (f r ++ t).
Proof.
  intros Hr H. destruct (f_cases r) as [-> | ->]; [exact H|].
  cbn [app]. apply wok_cons; [destruct r; [congruence|discriminate]|].
  split; [apply sudo_good|exact H].
Qed.

Lemma wok_tail (r t t' : list pystr) :
  wok (r ++ t) -> (t = [] -> t' = []) -> (t <> [] -> wok t -> wok t') ->
  wok (r ++ t').
Proof.
  intros H Hnil Hcons. destruct t as [|x t].
  - rewrite (Hnil eq_refl). exact H.
  - apply wok_app_inv in H as [Hr Ht]; [|discriminate].
    apply wok_app; [exact Hr|]. apply Hcons; [discriminate|exact Ht].
Qed.

Lemma concat_nonempty (ps : list (list pystr)) :
  ps <> [] -> Forall (fun p => p <> []) ps -> concat ps <> [].
Proof.
  intros Hps H. destruct ps as [|p ps]; [congruence|].
  inversion H; subst. cbn. destruct p; [congruence|discriminate].
Qed.


Lemma wok_glue (rest : list (list pystr)) : forall ss,
  Forall (fun r => r <> []) rest -> Forall good ss ->
  wok (concat rest) -> wok (glue ss (map f rest)).
Proof.
  induction rest as [|r rest IH]; intros ss Hne Hss H; [exact I|].
  inversion Hne as [|? ? Hr Hne']; subst. cbn [concat map glue] in *.
  assert (Hstep : forall ss', Forall good ss' ->
            wok (f r ++ glue ss' (map f rest))).
  { intros ss' Hss'. apply wok_f; [exact Hr|].
    apply (wok_tail r (concat rest)); [exact H| |].
    - destruct rest; [reflexivity|]. intros E. exfalso.
      revert E. apply concat_nonempty; [discriminate|exact Hne'].
    - intros _ Ht. apply IH; assumption. }
  destruct ss as [|s ss]; [apply Hstep; constructor|].
  inversion Hss; subst. apply wok_cons.
  - destruct (f r) eqn:E; [|discriminate]. exfalso.
    revert E. apply f_nonempty. exact Hr.
  - split; [assumption|]. apply Hstep. assumption.
Qed.

Lemma wok_reconstruct (ps : list (list pystr)) (ss : list pystr) :
  Forall (fun r => r <> []) ps -> Forall good ss ->
  wok (concat ps) -> wok (reconstruct (map f ps) ss).
Proof.
  intros Hne Hss H. destruct ps as [|p ps]; [exact I|].
  inversion Hne as [|? ? Hp Hne']; subst.
  cbn [map]. rewrite reconstruct_glue. cbn [concat] in H.
  apply wok_f; [exact Hp|].
  apply (wok_tail p (concat ps)); [exact H| |].
  - destruct ps; [reflexivity|]. intros E. exfalso.
    revert E. apply concat_nonempty; [discriminate|exact Hne'].
  - intros _ Ht. apply wok_glue; assumption.
Qed.

End Prefixed.

End Rebuild.

(** ** The elevation rewrite on a Unix host *)

Module Elevation.
Import Chunk Word Normal Shape Glue Elevate Stability Plain.
Import PyFacts Scan Words Parsed Rebuild.

Lemma is_sudo_available_eq (h : host) (cache : option bool) :
  is_sudo_available h cache = (available h cache, Some (available h cache)).
Proof. destruct cache; reflexivity. Qed.

Lemma available_cached (h : host) (b : bool) : available h (Some b) = b.
Proof. reflexivity. Qed.

Lemma command_needs_sudo_eq (h : host) (cmd : command) (cache : option bool) :
  command_needs_sudo h cmd cache
  = (needs_sudo h (available h cache) cmd, Some (available h cache)).
Proof.
  unfold command_needs_sudo, bind, needs_sudo.
  rewrite is_sudo_available_eq.
  destruct (available h cache); cbn; [|reflexivity].
  destruct (existsb starts_with_sudo (fst (parse_command cmd))); reflexivity.
Qed.

Lemma process_parts_unix (h : host) (ps : list (list pystr)) :
  os_nt h = false ->
  forall cache, exists cache',
    process_parts h ps cache
    = (map (elevate h (available h cache)) (List.filter nonempty ps), cache')
    /\ available h cache' = available h cache.
Proof.
  intros Hnt. induction ps as [|p ps IH]; intros cache.
  - exists cache. split; reflexivity.
  - destruct p as [|w p].
    + cbn [process_parts List.filter nonempty]. apply IH.
    + cbn [process_parts List.filter nonempty map]. rewrite Hnt.
      unfold elevate at 1.
      destruct (starts_with_sudo (w :: p)) eqn:Hs; cbn [negb andb].
      * destruct (IH cache) as (c' & E & Ha). exists c'.
        unfold bind, ret. rewrite E. split; [reflexivity|exact Ha].
      * unfold bind at 1. rewrite command_needs_sudo_eq.
        destruct (IH (Some (available h cache))) as (c' & E & Ha).
        rewrite available_cached in E, Ha. exists c'.
        unfold bind, ret. rewrite E. split; [reflexivity|exact Ha].
Qed.

Lemma starts_with_sudo_cons (p : list pystr) :
  starts_with_sudo (sudo :: p) = true.
Proof. reflexivity. Qed.

Lemma elevate_cases (h : host) (a : bool) (p : list pystr) :
  elevate h a p = p \/ elevate h a p = sudo :: p.
Proof. unfold elevate. destruct (_ && _); [right|left]; reflexivity. Qed.

Lemma elevate_idem (h : host) (a : bool) (p : list pystr) :
  elevate h a (elevate h a p) = elevate h a p.
Proof.
  destruct (negb (starts_with_sudo p) && needs_sudo h a (CmdList p)) eqn:E.
  - assert (H : elevate h a p = sudo :: p)
      by (unfold elevate; rewrite E; reflexivity).
    rewrite H. unfold elevate. rewrite starts_with_sudo_cons. reflexivity.
  - assert (H : elevate h a p = p)
      by (unfold elevate; rewrite E; reflexivity).
    rewrite !H. reflexivity.
Qed.

Lemma elevate_prefixed (h : host) (a : bool) (p : list pystr) :
  starts_with_sudo p = true -> elevate h a p = p.
Proof. intros H. unfold elevate. rewrite H. reflexivity. Qed.

Lemma elevate_unavailable (h : host) (p : list pystr) :
  elevate h false p = p.
Proof. unfold elevate, needs_sudo. cbn. rewrite andb_false_r. reflexivity. Qed.

(** A part whose base command is privileged gets the prefix. *)
Lemma elevate_privileged (h : host) (p : list pystr) :
  os_nt h = false -> starts_with_sudo p = false ->
  Py.mem (Py.lower (hd [] p)) sudo_commands = true ->
  elevate h true p = sudo :: p.
Proof.
  intros Hnt Hs Hm. unfold elevate, needs_sudo. rewrite Hs.
  cbn [negb andb parse_command fst existsb]. rewrite Hs.
  cbn [orb negb andb].
  destruct p as [|w p]; [cbn in Hm; discriminate|].
  cbn [needs_sudo_loop hd] in *. rewrite Hnt, Hm.
  destruct (_ && _); reflexivity.
Qed.

Lemma filter_nonempty_all {A} (ps : list (list A)) :
  Forall (fun p => p <> []) ps -> List.filter nonempty ps = ps.
Proof.
  induction ps as [|p ps IH]; intros H; [reflexivity|].
  inversion H; subst. cbn. destruct p; [congruence|].
  cbn. f_equal. apply IH. assumption.
Qed.

(** [final_command] never raises on a Unix host, and elevates part by
    part. *)
Lemma final_command_unix (h : host) (cmd : command) (cache : option bool) :
  os_nt h = false ->
  fst (parse_command cmd) <> [] ->
  exists cache',
    final_command h cmd cache
    = (Return (same_format cmd
         (reconstruct
            (map (elevate h (available h cache))
                 (List.filter nonempty (fst (parse_command cmd))))
            (snd (parse_command cmd)))), cache')
    /\ available h cache' = available h cache.
Proof.
  intros Hnt Hps. unfold final_command.
  destruct (parse_command cmd) as [ps ss]. cbn [fst snd] in *.
  destruct ps as [|p ps]; [congruence|]. cbn [nonempty negb].
  destruct (process_parts_unix h (p :: ps) Hnt cache) as (c' & E & Ha).
  exists c'. unfold bind, ret. rewrite E. split; [reflexivity|exact Ha].
Qed.

Lemma parse_nonempty (cmd : command) : fst (parse_command cmd) <> [].
Proof.
  destruct cmd as [s|ws]; unfold parse_command; [|cbn; discriminate].
  destruct (Py.contains Py.newline s); [cbn; discriminate|].
  generalize (scan_loop scan_init (normalize s)). intros st.
  unfold scan_finish.
  destruct (if nonempty (current_word st) then _ else _) as [ps ss].
  destruct ps; cbn; discriminate.
Qed.

End Elevation.

(** ** Rewriting twice *)

Module Idempotence.
Import Chunk Word Normal Shape Glue Elevate Stability Plain.
Import PyFacts Scan Words Parsed Rebuild Elevation.

Lemma glue_firstn (rest : list (list pystr)) : forall ss,
  glue (firstn (length rest) ss) rest = glue ss rest.
Proof.
  induction rest as [|r rest IH]; intros ss; [reflexivity|].
  destruct ss as [|s ss]; [reflexivity|].
  cbn [length firstn glue]. rewrite IH. reflexivity.
Qed.

Lemma reconstruct_firstn (ps : list (list pystr)) (ss : list pystr) :
  reconstruct ps (firstn (length ps - 1) ss) = reconstruct ps ss.
Proof.
  destruct ps as [|p ps]; [reflexivity|].
  rewrite !reconstruct_glue.
  replace (length (p :: ps) - 1) with (length ps) by (cbn; lia).
  rewrite glue_firstn. reflexivity.
Qed.

Lemma sudo_non_op : non_op sudo.
Proof. reflexivity. Qed.

(** Parsing the rebuilt command gives the rewritten parts back. *)
Lemma reparse_rewritten (f : list pystr -> list pystr)
    (ps : list (list pystr)) (ss : list pystr) :
  (forall p, f p = p \/ f p = sudo :: p) ->
  parsed ps ss -> ps <> [] -> Forall (fun p => p <> []) ps ->
  parse_command (CmdStr (Py.join (reconstruct (map f ps) ss)))
  = (map f ps, firstn (length ps - 1) ss).
Proof.
  intros Hf (Hss & Hlen & _ & Hno & Hwok) Hps Hne.
  rewrite parse_join.
  - rewrite group_reconstruct; [rewrite length_map; reflexivity| | | | |].
    + destruct ps; [congruence|discriminate].
    + apply Forall_map. eapply Forall_impl; [exact Hne|].
      intros p Hp. cbn. apply (f_nonempty f Hf). exact Hp.
    + apply Forall_map. eapply Forall_impl; [exact Hno|].
      intros p Hp. cbn. destruct (Hf p) as [-> | ->]; [exact Hp|].
      constructor; [apply sudo_non_op|exact Hp].
    + exact Hss.
    + rewrite length_map. lia.
  - apply wok_reconstruct; [exact Hf|exact Hne| |exact Hwok].
    eapply Forall_impl; [exact Hss|]. intros s. apply operator_good.
Qed.

Lemma stable_line (h : host) (s : pystr) :
  os_nt h = false -> Py.contains Py.newline s = false ->
  stable h (CmdStr s).
Proof.
  intros Hnt Hnl cache.
  destruct (final_command_unix h (CmdStr s) cache Hnt (parse_nonempty _))
    as (c1 & E1 & Ha1).
  destruct (parse_parsed s Hnl) as [Hp _].
  destruct (parse_command (CmdStr s)) as [ps ss] eqn:Eparse.
  cbn [fst snd same_format] in *.
  set (a := available h cache) in *.
  assert (Hp' := Hp).
  destruct Hp' as (_ & _ & [[-> ->]|[Hps Hne]] & _).
  - (* the empty command *)
    cbn in E1.
    destruct (final_command_unix h (CmdStr []) c1 Hnt (parse_nonempty _))
      as (c2 & E2 & _).
    exists (CmdStr []), c1, c2. split; [exact E1|exact E2].
  - rewrite filter_nonempty_all in E1 by exact Hne.
    set (F := Py.join (reconstruct (map (elevate h a) ps) ss)) in *.
    destruct (final_command_unix h (CmdStr F) c1 Hnt (parse_nonempty _))
      as (c2 & E2 & _).
    exists (CmdStr F), c1, c2. split; [exact E1|]. rewrite E2.
    assert (Hre := reparse_rewritten _ ps ss (elevate_cases h a) Hp Hps Hne).
    fold F in Hre. rewrite Hre.
    cbn [fst snd same_format]. rewrite Ha1. fold a.
    rewrite filter_nonempty_all.
    + rewrite map_map.
      rewrite (map_ext _ _ (elevate_idem h a)).
      rewrite <- (length_map (elevate h a) ps), reconstruct_firstn.
      reflexivity.
    + apply Forall_map. eapply Forall_impl; [exact Hne|].
      intros p Hpne. cbn. apply (f_nonempty _ (elevate_cases h a)). exact Hpne.
Qed.

Lemma stable_list (h : host) (ws : list pystr) :
  os_nt h = false -> stable h (CmdList ws).
Proof.
  intros Hnt cache.
  destruct (final_command_unix h (CmdList ws) cache Hnt (parse_nonempty _))
    as (c1 & E1 & Ha1).
  cbn [parse_command fst snd same_format] in E1.
  set (a := available h cache) in *.
  destruct ws as [|w ws].
  - cbn in E1.
    destruct (final_command_unix h (CmdList []) c1 Hnt (parse_nonempty _))
      as (c2 & E2 & _).
    exists (CmdList []), c1, c2. split; [exact E1|exact E2].
  - cbn [List.filter nonempty map] in E1. rewrite reconstruct_glue in E1.
    cbn [glue] in E1. rewrite app_nil_r in E1.
    set (p := elevate h a (w :: ws)) in *.
    destruct (final_command_unix h (CmdList p) c1 Hnt (parse_nonempty _))
      as (c2 & E2 & _).
    exists (CmdList p), c1, c2. split; [exact E1|]. rewrite E2.
    cbn [parse_command fst snd same_format]. rewrite Ha1. fold a.
    assert (Hp : p <> [])
      by (apply (f_nonempty _ (elevate_cases h a)); discriminate).
    destruct p as [|x p'] eqn:Ep; [congruence|].
    cbn [List.filter nonempty map]. rewrite reconstruct_glue.
    cbn [glue]. rewrite app_nil_r. rewrite <- Ep. unfold p.
    rewrite elevate_idem. reflexivity.
Qed.

Lemma lower_char_newline (c : ascii) :
  Py.char_eqb Py.newline (Py.lower_char c) = Py.char_eqb Py.newline c.
Proof. destruct c as [[] [] [] [] [] [] [] []]; reflexivity. Qed.

Lemma lower_newline (s : pystr) :
  Py.contains Py.newline (Py.lower s) = Py.contains Py.newline s.
Proof.
  induction s as [|c s IH]; [reflexivity|].
  cbn [Py.lower map]. rewrite !contains_cons. fold (Py.lower s).
  rewrite IH, lower_char_newline. reflexivity.
Qed.

Lemma script_not_privileged (s : pystr) :
  Py.contains Py.newline s = true ->
  Py.mem (Py.lower s) sudo_commands = false.
Proof.
  intros H. apply not_true_iff_false. intros Hm. apply mem_In in Hm.
  assert (Hall : forallb (fun w => negb (Py.contains Py.newline w))
                   sudo_commands = true) by reflexivity.
  rewrite forallb_forall in Hall. specialize (Hall _ Hm).
  rewrite lower_newline, H in Hall. discriminate.
Qed.

Lemma prefixed_script_not_sudo (s : pystr) :
  Py.eqb (Py.lower (sudo ++ Py.space :: s)) sudo = false.
Proof.
  apply not_true_iff_false. intros H. apply eqb_eq in H.
  apply (f_equal (@length ascii)) in H. unfold Py.lower in H.
  rewrite length_map, length_app in H. cbn in H. lia.
Qed.

(** A script that got the prefix is not prefixed again. *)
Lemma elevate_prefixed_script (h : host) (a : bool) (s : pystr) :
  os_nt h = false -> which_sound h ->
  Py.contains Py.newline s = true ->
  elevate h a [sudo ++ Py.space :: s] = [sudo ++ Py.space :: s].
Proof.
  intros Hnt Hw Hnl. set (F := sudo ++ Py.space :: s).
  assert (HF : Py.contains Py.newline F = true).
  { unfold F. rewrite contains_app, contains_cons, Hnl.
    rewrite !orb_true_r. reflexivity. }
  unfold elevate, needs_sudo.
  cbn [parse_command fst existsb starts_with_sudo needs_sudo_loop length].
  rewrite Hnt. unfold F at 1 2. rewrite prefixed_script_not_sudo.
  rewrite (script_not_privileged F HF).
  change (1 <? 1) with false. rewrite andb_false_r. cbn [andb orb negb].
  assert (Hx : not_executable h F = false).
  { unfold not_executable.
    assert (Habs : path_isabs F = false) by reflexivity.
    rewrite Habs. cbn [andb].
    destruct (which h F) as [p|] eqn:E; [|reflexivity].
    rewrite (Hw _ _ E). apply andb_false_r. }
  rewrite Hx. rewrite andb_false_r. reflexivity.
Qed.

Lemma stable_script (h : host) (s : pystr) :
  os_nt h = false -> which_sound h ->
  Py.contains Py.newline s = true ->
  stable h (CmdStr s).
Proof.
  intros Hnt Hw Hnl cache.
  destruct (final_command_unix h (CmdStr s) cache Hnt (parse_nonempty _))
    as (c1 & E1 & Ha1).
  assert (Hparse : forall t, Py.contains Py.newline t = true ->
            parse_command (CmdStr t) = ([[t]], [])).
  { intros t Ht. unfold parse_command. rewrite Ht. reflexivity. }
  rewrite (Hparse s Hnl) in E1. cbn [fst snd same_format] in E1.
  set (a := available h cache) in *.
  assert (Hne : nonempty [s] = true) by reflexivity.
  cbn [List.filter] in E1. rewrite Hne in E1. cbn [map] in E1.
  rewrite reconstruct_glue in E1. cbn [glue] in E1. rewrite app_nil_r in E1.
  assert (Hsecond : forall F, Py.contains Py.newline F = true ->
            elevate h a [F] = [F] ->
            exists c2, final_command h (CmdStr F) c1 = (Return (CmdStr F), c2)).
  { intros F HF HeF.
    destruct (final_command_unix h (CmdStr F) c1 Hnt (parse_nonempty _))
      as (c2 & E2 & _).
    exists c2. rewrite E2, (Hparse F HF). cbn [fst snd same_format].
    rewrite Ha1. fold a. cbn [List.filter].
    assert (HneF : nonempty [F] = true) by reflexivity.
    rewrite HneF. cbn [map]. rewrite HeF, reconstruct_glue. cbn [glue].
    reflexivity. }
  destruct (elevate_cases h a [s]) as [He|He]; rewrite He in E1.
  - destruct (Hsecond s Hnl He) as [c2 E2].
    exists (CmdStr s), c1, c2. split; [exact E1|exact E2].
  - cbn [Py.join] in E1.
    destruct (Hsecond (sudo ++ Py.space :: s)) as [c2 E2].
    + rewrite contains_app, contains_cons, Hnl, !orb_true_r. reflexivity.
    + apply elevate_prefixed_script; assumption.
    + exists (CmdStr (sudo ++ Py.space :: s)), c1, c2.
      split; [exact E1|exact E2].
Qed.

End Idempotence.

(** ** Facts about [shlex.split] *)

Module ShlexFacts.
Import Chunk Word Normal Shape Glue Elevate Stability Plain.
Import PyFacts Scan Words Shlex.

Lemma whitespace_isspace (c : ascii) :
  whitespace c = true -> Py.isspace c = true.
Proof.
  unfold whitespace. rewrite !orb_true_iff, !char_eqb_eq.
  intros [[[-> | ->] | ->] | ->]; reflexivity.
Qed.


Lemma plain_whitespace (c : ascii) : plain_char c -> whitespace c = false.
Proof.
  intros (Hs & _ & _). destruct (whitespace c) eqn:E; [|reflexivity].
  apply whitespace_isspace in E. congruence.
Qed.

Lemma plain_quotes (c : ascii) : plain_char c -> quotes c = false.
Proof. intros (_ & Hq & _). exact Hq. Qed.

Lemma escape_backslash (c : ascii) : c <> Py.backslash -> escape c = false.
Proof. intros H. unfold escape. apply char_eqb_neq. exact H. Qed.

Lemma plain_escape (c : ascii) : plain_char c -> escape c = false.
Proof. intros (_ & _ & Hb). apply escape_backslash. exact Hb. Qed.

Lemma lex_word (w : pystr) : forall esc token quoted acc rest,
  Forall plain_char w ->
  lex LWord esc token quoted acc (w ++ rest)
  = lex LWord esc (token ++ w) quoted acc rest.
Proof.
  induction w as [|c w IH]; intros esc token quoted acc rest H.
  - rewrite app_nil_r. reflexivity.
  - inversion H as [|? ? Hc Hw]; subst. cbn [app lex].
    rewrite (plain_whitespace c Hc), (plain_quotes c Hc), (plain_escape c Hc).
    rewrite IH by exact Hw. rewrite <- app_assoc. reflexivity.
Qed.

Lemma lex_first_word (w : pystr) (acc : list pystr) (rest : pystr) :
  plain w ->
  lex LSpace LSpace [] false acc (w ++ rest)
  = lex LWord LSpace w false acc rest.
Proof.
  intros [Hne Hw]. destruct w as [|c w]; [congruence|].
  inversion Hw as [|? ? Hc Hw']; subst. cbn [app lex].
  rewrite (plain_whitespace c Hc), (plain_quotes c Hc), (plain_escape c Hc).
  rewrite lex_word by exact Hw'. reflexivity.
Qed.

(** Plain words joined by single spaces are split into themselves. *)
Lemma lex_plain_words (ws : list pystr) : forall acc,
  Forall plain ws ->
  lex LSpace LSpace [] false acc (Py.join ws) = Return (acc ++ ws).
Proof.
  induction ws as [|w ws IH]; intros acc H.
  - cbn. rewrite app_nil_r. reflexivity.
  - inversion H as [|? ? Hw Hws]; subst. destruct ws as [|w' ws].
    + cbn [Py.join]. rewrite <- (app_nil_r w) at 1.
      rewrite lex_first_word by exact Hw. cbn.
      destruct Hw as [Hne _]. destruct w; [congruence|]. reflexivity.
    + rewrite join_cons by discriminate.
      rewrite lex_first_word by exact Hw. cbn [lex].
      assert (Hsp : whitespace Py.space = true) by reflexivity.
      rewrite Hsp.
      assert (Hne : nonempty w = true)
        by (destruct Hw as [Hne _]; destruct w; [congruence|reflexivity]).
      rewrite Hne. cbn [orb]. rewrite IH by exact Hws.
      rewrite <- app_assoc. reflexivity.
Qed.

Lemma split_plain_words (ws : list pystr) :
  Forall plain ws -> Shlex.split (Py.join ws) = Return ws.
Proof. intros H. unfold Shlex.split. apply (lex_plain_words ws [] H). Qed.



End ShlexFacts.

(** ** From the command to the final string *)

Module Pipeline.
Import Chunk Word Normal Shape Glue Elevate Stability Plain.
Import PyFacts Scan Words Parsed Rebuild ShlexFacts.

Lemma final_command_eq (h : host) (cmd : command) (cache : option bool) :
  final_command h cmd cache
  = (Return (same_format cmd
       (reconstruct (fst (process_parts h (fst (parse_command cmd)) cache))
          (snd (parse_command cmd)))),
     snd (process_parts h (fst (parse_command cmd)) cache)).
Proof.
  unfold final_command.
  assert (Hne := Elevation.parse_nonempty cmd).
  destruct (parse_command cmd) as [ps ss]. cbn [fst snd] in *.
  destruct ps as [|p ps]; [congruence|]. cbn [nonempty negb].
  unfold bind, ret. destruct (process_parts h (p :: ps) cache). reflexivity.
Qed.

Section WordPredicate.
Variable P : pystr -> Prop.

Lemma Forall_skipn (l : list pystr) (n : nat) :
  Forall P l -> Forall P (skipn n l).
Proof.
  revert n. induction l as [|x l IH]; intros n H; destruct n; cbn;
    try assumption. inversion H; subst. apply IH. assumption.
Qed.

Lemma process_parts_words (h : host) (ps : list (list pystr)) :
  P sudo -> Forall (Forall P) ps ->
  forall cache, Forall (Forall P) (fst (process_parts h ps cache)).
Proof.
  intros Hsudo. induction ps as [|p ps IH]; intros H cache; [constructor|].
  inversion H as [|? ? Hp Hps]; subst. cbn [process_parts].
  destruct p as [|w p]; [apply IH; exact Hps|].
  destruct (os_nt h).
  - destruct (starts_with_sudo (w :: p)); unfold bind, ret;
      destruct (process_parts h ps cache) as [l c'] eqn:E;
      specialize (IH Hps cache); rewrite E in IH; cbn [fst] in *;
      constructor; try assumption. apply Forall_skipn. exact Hp.
  - destruct (negb (starts_with_sudo (w :: p))); unfold bind, ret.
    + destruct (command_needs_sudo h (CmdList (w :: p)) cache) as [b c1].
      destruct (process_parts h ps c1) as [l c'] eqn:E.
      specialize (IH Hps c1). rewrite E in IH. cbn [fst] in *.
      constructor; [|exact IH].
      destruct b; [constructor; assumption|exact Hp].
    + destruct (process_parts h ps cache) as [l c'] eqn:E.
      specialize (IH Hps cache). rewrite E in IH. cbn [fst] in *.
      constructor; assumption.
Qed.

Lemma glue_words (ps : list (list pystr)) : forall ss,
  Forall (Forall P) ps -> Forall P ss -> Forall P (glue ss ps).
Proof.
  induction ps as [|p ps IH]; intros ss Hps Hss; [constructor|].
  inversion Hps; subst. destruct ss as [|s ss]; cbn [glue].
  - apply Forall_app. split; [assumption|]. apply IH; [assumption|constructor].
  - inversion Hss; subst. constructor; [assumption|].
    apply Forall_app. split; [assumption|]. apply IH; assumption.
Qed.

Lemma reconstruct_words (ps : list (list pystr)) (ss : list pystr) :
  Forall (Forall P) ps -> Forall P ss -> Forall P (reconstruct ps ss).
Proof.
  intros Hps Hss. destruct ps as [|p ps]; [constructor|].
  inversion Hps; subst. rewrite reconstruct_glue.
  apply Forall_app. split; [assumption|]. apply glue_words; assumption.
Qed.

Lemma group_step_words (g : gstate) (w : pystr) :
  P w -> Forall (Forall P) (g_parts g) -> Forall P (g_part g) ->
  Forall (Forall P) (g_parts (group_step g w))
  /\ Forall P (g_part (group_step g w)).
Proof.
  intros Hw Hps Hp. unfold group_step.
  destruct (is_chain_operator w).
  - destruct (nonempty (g_part g)); cbn; (split; [|constructor]);
      try assumption.
    apply Forall_app. split; [assumption|]. constructor; [assumption|constructor].
  - cbn. split; [assumption|]. apply Forall_app. split; [assumption|].
    constructor; [assumption|constructor].
Qed.

Lemma group_words (ws : list pystr) : forall g,
  Forall P ws -> Forall (Forall P) (g_parts g) -> Forall P (g_part g) ->
  Forall (Forall P) (fst (close (fold_left group_step ws g))).
Proof.
  induction ws as [|w ws IH]; intros g Hws Hps Hp.
  - cbn [fold_left]. unfold close. cbn [fst].
    destruct (nonempty (g_part g)).
    + destruct (g_parts g ++ [g_part g]) eqn:E.
      * constructor; constructor.
      * rewrite <- E. apply Forall_app. split; [assumption|].
        constructor; [assumption|constructor].
    + destruct (g_parts g); [constructor; constructor|assumption].
  - inversion Hws as [|? ? Hw Hws']; subst. cbn [fold_left].
    destruct (group_step_words g w Hw Hps Hp) as [Hps' Hp'].
    apply IH; assumption.
Qed.

End WordPredicate.

(** The tokenizer's quote state follows [qnext] whatever branch is taken. *)
Lemma scan_step_quote (st : scan_state) (c : ascii) :
  quote_of (scan_step st c) = qnext (quote_of st) c.
Proof.
  destruct st as [ps ss cp cw iq qc].
  unfold scan_step, qnext, toggles, quote_of. cbn.
  destruct (is_quote c && (negb iq || opt_char_eqb qc c)); [reflexivity|].
  destruct (Py.isspace c && negb iq); [|reflexivity].
  destruct (nonempty cw); [|reflexivity].
  destruct (is_chain_operator cw); [|reflexivity].
  destruct (nonempty cp); reflexivity.
Qed.

Lemma scan_loop_quote (s : pystr) : forall st,
  quote_of (scan_loop st s) = fold_left qnext s (quote_of st).
Proof.
  induction s as [|c s IH]; intros st; [reflexivity|].
  rewrite scan_loop_cons, IH, scan_step_quote. reflexivity.
Qed.



Section Prefix.
Variable f : list pystr -> list pystr.
Hypothesis f_cases : forall p, f p = p \/ f p = sudo :: p.





End Prefix.

End Pipeline.

(** ** Chain operators at the ends of a command *)

Module Ends.
Import Chunk Word Normal Shape Glue Elevate Stability Plain.
Import PyFacts Scan Words.

























Lemma with_cmd_same (rq : Run.request) : with_cmd rq (Run.cmd rq) = rq.
Proof. destruct rq. reflexivity. Qed.

End Ends.

(** * Claims *)

Example parse_chain :
  parse_command (CmdStr (str "apt update && apt install vim"))
  = ([[str "apt"; str "update"]; [str "apt"; str "install"; str "vim"]],
     [str "&&"]).
Proof. vm_compute. reflexivity. Qed.

Example parse_quoted :
  parse_command (CmdStr (str "echo 'a  && b' | tee   log"))
  = ([[str "echo"; str "'a && b'"]; [str "tee"; str "log"]], [str "|"]).
Proof. vm_compute. reflexivity. Qed.

Example rewrite_chain_unix :
  fst (final_command unix_with_sudo
         (CmdStr (str "apt update && apt install vim")) None)
  = Return (CmdStr (str "sudo apt update && sudo apt install vim")).
Proof. vm_compute. reflexivity. Qed.

Example rewrite_windows_strip :
  fst (final_command windows_host
         (CmdList [str "sudo"; str "apt"; str "update"]) None)
  = Return (CmdList [str "apt"; str "update"]).
Proof. vm_compute. reflexivity. Qed.

Example guard_versioned :
  is_installing_sudo
    (CmdStr (str "sudo apt install -y --no-install-recommends sudo=1.8.31-1ubuntu1.2"))
  = true.
Proof. vm_compute. reflexivity. Qed.

(** ** Claims on the tokenizer *)




(** C9: for every one-line textual input in which the tokenizer finds no
    chain operator, the input is one segment, and tokenizing the tokens of
    that segment joined by single spaces yields the same segment again. *)
Theorem C9_round_trip (s : pystr) :
  Py.contains Py.newline s = false ->
  snd (parse_command (CmdStr s)) = [] ->
  exists seg,
    parse_command (CmdStr s) = ([seg], [])
    /\ parse_command (CmdStr (Py.join seg)) = ([seg], []).
Proof.
  intros Hnl Hss. destruct (Parsed.parse_parsed s Hnl) as [Hp _].
  destruct (parse_command (CmdStr s)) as [ps ss]. cbn [fst snd] in *.
  subst ss. destruct Hp as (_ & Hlen & Hne & Hno & Hwok).
  destruct Hne as [[-> _]|[Hps Hne]].
  - exists []. split; reflexivity.
  - destruct ps as [|seg ps]; [congruence|].
    destruct ps as [|p ps]; [|cbn in Hlen; lia].
    exists seg. split; [reflexivity|].
    cbn [concat] in Hwok. rewrite app_nil_r in Hwok.
    rewrite Rebuild.parse_join by exact Hwok.
    inversion Hno as [|? ? Hseg _]; subst. inversion Hne as [|? ? Hn _]; subst.
    unfold Word.group. rewrite Rebuild.fold_group_tokens by exact Hseg.
    cbn [Word.g_init Word.g_parts Word.g_seps Word.g_part app].
    rewrite Rebuild.close_part by exact Hn. reflexivity.
Qed.

Lemma C9_round_trip_witness :
  exists seg,
    parse_command (CmdStr (str "echo 'a   b'  c")) = ([seg], [])
    /\ parse_command (CmdStr (Py.join seg)) = ([seg], []).
Proof.
  apply (C9_round_trip (str "echo 'a   b'  c")); vm_compute; reflexivity.
Defined.

(** ** Claims on the elevation rewrite *)

Lemma elevate_unix_rewritten (h : host) (a : bool) (ps : list (list pystr)) :
  os_nt h = false ->
  Forall2 (unix_rewritten a) ps (map (Elevate.elevate h a) ps).
Proof.
  intros Hnt. induction ps as [|p ps IH]; [constructor|].
  cbn [map]. constructor; [|exact IH].
  split; [apply Elevation.elevate_cases|].
  split; [apply Elevation.elevate_prefixed|].
  split.
  - intros ->. apply Elevation.elevate_unavailable.
  - intros ->. apply Elevation.elevate_privileged. exact Hnt.
Qed.

(** C1, as stated, fails: with [sudo] on the host the self-install command
    gets the prefix like any other package-manager command. *)
Lemma C1_counterexample :
  is_installing_sudo (CmdStr (str "apt-get install -y sudo")) = true
  /\ fst (final_command unix_with_sudo
            (CmdStr (str "apt-get install -y sudo")) None)
     = Return (CmdStr (str "sudo apt-get install -y sudo"))
  /\ ~ self_install_immune unix_with_sudo None
         (CmdStr (str "apt-get install -y sudo")).
Proof.
  split; [vm_compute; reflexivity|]. split; [vm_compute; reflexivity|].
  intros H. specialize (H ltac:(vm_compute; reflexivity)).
  vm_compute in H. discriminate.
Qed.

Lemma self_install_segments (cmd : command) :
  is_installing_sudo cmd = true ->
  Forall (fun p => p <> []) (fst (parse_command cmd)).
Proof.
  intros H. destruct cmd as [s|ws].
  - destruct (Py.contains Py.newline s) eqn:Hnl.
    + unfold parse_command. rewrite Hnl. cbn.
      constructor; [discriminate|constructor].
    + destruct (Parsed.parse_parsed s Hnl) as [(_ & _ & Hne & _) _].
      destruct Hne as [[E _]|[_ Hne]]; [|exact Hne].
      unfold is_installing_sudo in H. rewrite E in H. discriminate.
  - unfold is_installing_sudo in H. cbn in H |- *.
    destruct ws; [discriminate|]. constructor; [discriminate|constructor].
Qed.

(** C1, amended: on a Unix host, for every command that matches the
    self-install predicate, the rewrite removes no prefix: each segment
    comes back as it was or with [sudo] in front; it comes back as it was
    when it already starts with [sudo] or when [sudo] is unavailable; when
    [sudo] is available, a segment that does not start with [sudo] and
    whose base command is a privileged command gets the prefix. *)
Theorem C1_self_install_unix (h : host) (cache : option bool) (cmd : command) :
  os_nt h = false ->
  is_installing_sudo cmd = true ->
  exists cache' ps',
    final_command h cmd cache
    = (Return (same_format cmd (reconstruct ps' (snd (parse_command cmd)))),
       cache')
    /\ Forall2 (unix_rewritten (Elevate.available h cache))
         (fst (parse_command cmd)) ps'.
Proof.
  intros Hnt Hself.
  destruct (Elevation.final_command_unix h cmd cache Hnt
              (Elevation.parse_nonempty cmd)) as (c' & E & _).
  rewrite Elevation.filter_nonempty_all in E
    by (apply self_install_segments; exact Hself).
  exists c', (map (Elevate.elevate h (Elevate.available h cache))
                (fst (parse_command cmd))).
  split; [exact E|]. apply elevate_unix_rewritten. exact Hnt.
Qed.

Lemma C1_self_install_unix_witness :
  exists cache' ps',
    final_command unix_with_sudo (CmdStr (str "sudo apt install sudo")) None
    = (Return (same_format (CmdStr (str "sudo apt install sudo"))
         (reconstruct ps'
            (snd (parse_command (CmdStr (str "sudo apt install sudo")))))),
       cache')
    /\ Forall2 (unix_rewritten (Elevate.available unix_with_sudo None))
         (fst (parse_command (CmdStr (str "sudo apt install sudo")))) ps'.
Proof.
  apply (C1_self_install_unix unix_with_sudo None
           (CmdStr (str "sudo apt install sudo")));
    vm_compute; reflexivity.
Defined.

(** C2, as stated, fails: the operator that ends a command is dropped. *)
Lemma C2_counterexample :
  parse_command (CmdStr (str "apt update &&"))
  = ([[str "apt"; str "update"]], [str "&&"])
  /\ fst (final_command unix_with_sudo (CmdStr (str "apt update &&")) None)
     = Return (CmdStr (str "sudo apt update"))
  /\ ~ operators_kept unix_with_sudo None (str "apt update &&").
Proof.
  split; [vm_compute; reflexivity|]. split; [vm_compute; reflexivity|].
  intros (F & c' & E & H). vm_compute in E. injection E as <- _.
  vm_compute in H. discriminate.
Qed.

(** C2, amended: on a Unix host with [sudo] available, for every textual
    command parsed into segments [ps] and operators [ss], the final string
    is the join of the rewritten segments laid out with the operators; a
    segment that starts with [sudo] is left as it is, and a segment that
    does not and whose base command is privileged gets [sudo] as its new
    first word; the operators of the final string are the operators that
    stood between two segments, in their order (all of [ss] unless the
    command ends in an operator, which is dropped); and for a one-line
    command the segments of the final string are the rewritten segments.
    In particular the chained example of the specification holds. *)
Theorem C2_chain_rewrite (h : host) (cache : option bool) (s : pystr)
    (ps : list (list pystr)) (ss : list pystr) :
  os_nt h = false ->
  Elevate.available h cache = true ->
  parse_command (CmdStr s) = (ps, ss) ->
  (exists F cache' ps',
     final_command h (CmdStr s) cache = (Return (CmdStr F), cache')
     /\ F = Py.join (reconstruct ps' ss)
     /\ Forall2 (unix_rewritten true) (List.filter nonempty ps) ps'
     /\ snd (parse_command (CmdStr F)) = firstn (length ps - 1) ss
     /\ (length ss = length ps - 1 -> snd (parse_command (CmdStr F)) = ss)
     /\ (Py.contains Py.newline s = false -> ps' <> [] ->
         fst (parse_command (CmdStr F)) = ps'))
  /\ fst (final_command unix_with_sudo
            (CmdStr (str "apt update && apt install vim")) None)
     = Return (CmdStr (str "sudo apt update && sudo apt install vim")).
Proof.
  intros Hnt Ha Eparse. split; [|vm_compute; reflexivity].
  destruct (Elevation.final_command_unix h (CmdStr s) cache Hnt
              (Elevation.parse_nonempty _)) as (c' & E & _).
  rewrite Eparse, Ha in E. cbn [fst snd same_format] in E.
  set (ps' := map (Elevate.elevate h true) (List.filter nonempty ps)) in *.
  exists (Py.join (reconstruct ps' ss)), c', ps'.
  split; [exact E|]. split; [reflexivity|].
  split; [apply elevate_unix_rewritten; exact Hnt|].
  assert (Hmain : snd (parse_command (CmdStr (Py.join (reconstruct ps' ss))))
                  = firstn (length ps - 1) ss
                  /\ (Py.contains Py.newline s = false -> ps' <> [] ->
                      fst (parse_command (CmdStr (Py.join (reconstruct ps' ss))))
                      = ps')).
  { destruct (Py.contains Py.newline s) eqn:Hnl.
    - (* a script: one opaque segment, no operator *)
      unfold parse_command in Eparse. rewrite Hnl in Eparse.
      injection Eparse as <- <-. split; [|discriminate].
      unfold ps'. cbn [List.filter nonempty map length firstn Nat.sub].
      rewrite Rebuild.reconstruct_glue. cbn [Glue.glue].
      rewrite app_nil_r.
      assert (Hscript : forall F, Py.contains Py.newline F = true ->
                snd (parse_command (CmdStr F)) = []).
      { intros F HF. unfold parse_command. rewrite HF. reflexivity. }
      apply Hscript.
      destruct (Elevation.elevate_cases h true [s]) as [-> | ->];
        cbn [Py.join]; [exact Hnl|].
      rewrite PyFacts.contains_app, PyFacts.contains_cons, Hnl.
      rewrite !orb_true_r. reflexivity.
    - destruct (Parsed.parse_parsed s Hnl) as [Hp _].
      rewrite Eparse in Hp. cbn [fst snd] in Hp.
      assert (Hp' := Hp). destruct Hp' as (_ & _ & [[-> ->]|[Hps Hne]] & _).
      + split; [reflexivity|]. intros _ H. exfalso. apply H. reflexivity.
      + unfold ps'. rewrite Elevation.filter_nonempty_all by exact Hne.
        rewrite (Idempotence.reparse_rewritten _ ps ss
                   (Elevation.elevate_cases h true) Hp Hps Hne).
        split; [reflexivity|]. intros _ _. reflexivity. }
  destruct Hmain as [H1 H2]. split; [exact H1|]. split; [|exact H2].
  intros Hlen. rewrite H1, <- Hlen. apply firstn_all.
Qed.

Lemma C2_chain_rewrite_witness :
  (exists F cache' ps',
     final_command unix_with_sudo (CmdStr (str "apt update | tee log")) None
     = (Return (CmdStr F), cache')
     /\ F = Py.join (reconstruct ps' [str "|"])
     /\ Forall2 (unix_rewritten true)
          (List.filter nonempty
             [[str "apt"; str "update"]; [str "tee"; str "log"]]) ps'
     /\ snd (parse_command (CmdStr F))
        = firstn (length [[str "apt"; str "update"]; [str "tee"; str "log"]] - 1)
            [str "|"]
     /\ (length [str "|"]
         = length [[str "apt"; str "update"]; [str "tee"; str "log"]] - 1 ->
         snd (parse_command (CmdStr F)) = [str "|"])
     /\ (Py.contains Py.newline (str "apt update | tee log") = false ->
         ps' <> [] -> fst (parse_command (CmdStr F)) = ps'))
  /\ fst (final_command unix_with_sudo
            (CmdStr (str "apt update && apt install vim")) None)
     = Return (CmdStr (str "sudo apt update && sudo apt install vim")).
Proof.
  apply (C2_chain_rewrite unix_with_sudo None (str "apt update | tee log")
           [[str "apt"; str "update"]; [str "tee"; str "log"]] [str "|"]);
    vm_compute; reflexivity.
Defined.

(** C7: on a Unix host, for every segment that already begins with [sudo]
    the decision is false and the rewrite leaves the segment as it is; for
    every one-line textual command and every token list, rewriting the
    result of the rewrite gives that result again, and the same holds for
    every command, multi-line scripts included, on a host whose [which]
    returns executable paths only; and the command [sudo apt update] comes
    back unchanged when [sudo] is available. *)
Theorem C7_idempotent (h : host) :
  os_nt h = false ->
  (forall cache seg, starts_with_sudo seg = true ->
     fst (command_needs_sudo h (CmdList seg) cache) = false
     /\ fst (process_parts h [seg] cache) = [seg])
  /\ (forall cmd, Stability.one_line cmd \/ Stability.which_sound h ->
      Stability.stable h cmd)
  /\ fst (final_command unix_with_sudo (CmdStr (str "sudo apt update")) None)
     = Return (CmdStr (str "sudo apt update")).
Proof.
  intros Hnt. split; [|split; [|vm_compute; reflexivity]].
  - intros cache seg Hs. split.
    + rewrite Elevation.command_needs_sudo_eq. cbn [fst].
      unfold Elevate.needs_sudo. cbn [parse_command fst existsb].
      rewrite Hs. cbn [orb negb]. rewrite andb_false_r. reflexivity.
    + destruct seg as [|w seg]; [discriminate|].
      cbn [process_parts]. rewrite Hnt, Hs. reflexivity.
  - intros cmd Hcmd. destruct cmd as [s|ws].
    + destruct (Py.contains Py.newline s) eqn:Hnl.
      * destruct Hcmd as [Hone|Hw];
          [unfold Stability.one_line in Hone; congruence|].
        apply Idempotence.stable_script; assumption.
      * apply Idempotence.stable_line; assumption.
    + apply Idempotence.stable_list. exact Hnt.
Qed.

Lemma C7_idempotent_witness :
  (forall cache seg, starts_with_sudo seg = true ->
     fst (command_needs_sudo unix_with_sudo (CmdList seg) cache) = false
     /\ fst (process_parts unix_with_sudo [seg] cache) = [seg])
  /\ (forall cmd,
        Stability.one_line cmd \/ Stability.which_sound unix_with_sudo ->
        Stability.stable unix_with_sudo cmd)
  /\ fst (final_command unix_with_sudo (CmdStr (str "sudo apt update")) None)
     = Return (CmdStr (str "sudo apt update")).
Proof. apply (C7_idempotent unix_with_sudo). reflexivity. Defined.

(** ** Claims on tokenizer and argv split *)

(** C8, as stated, fails: the argv split removes the quote characters that
    the tokenizer keeps. *)
Lemma C8_counterexample :
  Run.split_argv (CmdStr (str "echo 'hi'")) false
  = Return (CmdList [str "echo"; str "hi"])
  /\ parse_command (CmdStr (str "echo 'hi'")) = ([[str "echo"; str "'hi'"]], [])
  /\ ~ tokenizations_agree unix_with_sudo None (str "echo 'hi'").
Proof.
  split; [vm_compute; reflexivity|]. split; [vm_compute; reflexivity|].
  intros (F & c' & argv & E & Hs & Hp). vm_compute in E. injection E as <- _.
  vm_compute in Hs. injection Hs as <-. vm_compute in Hp. discriminate.
Qed.

Lemma wscan_plain (w : pystr) :
  Forall Plain.plain_char w -> Word.wscan Word.q0 w = Some Word.q0.
Proof.
  induction w as [|c w IH]; intros H; [reflexivity|].
  inversion H as [|? ? (Hs & Hq & _) Hw]; subst. cbn [Word.wscan].
  unfold Word.breaks, Word.qnext, Word.toggles. rewrite Hs, Hq. cbn.
  apply IH. exact Hw.
Qed.

Lemma plain_good (w : pystr) : Plain.plain w -> Normal.good w.
Proof.
  intros [Hne Hw]. split.
  - split; [exact Hne|apply wscan_plain; exact Hw].
  - exists [w]. split; [discriminate|]. split; [|reflexivity].
    constructor; [|constructor]. split; [exact Hne|].
    eapply Forall_impl; [exact Hw|]. intros c (Hs & _). exact Hs.
Qed.

Lemma wscan_unquoted (w : pystr) : forall q,
  Forall (fun c => is_quote c = false) w ->
  Word.wscan Word.q0 w = Some q ->
  Forall (fun c => Py.isspace c = false) w.
Proof.
  induction w as [|c w IH]; intros q Hq H; [constructor|].
  inversion Hq as [|? ? Hc Hw]; subst. cbn [Word.wscan] in H.
  unfold Word.breaks, Word.qnext, Word.toggles in H. rewrite Hc in H.
  cbn in H. destruct (Py.isspace c) eqn:Hs; [discriminate|].
  constructor; [exact Hs|]. eapply IH; eassumption.
Qed.

Lemma unbroken_plain (w : pystr) :
  Word.unbroken w ->
  Forall (fun c => is_quote c = false /\ c <> Py.backslash) w ->
  Plain.plain w.
Proof.
  intros [Hne [q Hq]] Hc. split; [exact Hne|].
  assert (Hs : Forall (fun c => Py.isspace c = false) w).
  { apply (wscan_unquoted w q); [|exact Hq].
    eapply Forall_impl; [exact Hc|]. intros c [H _]. exact H. }
  clear Hq. induction w as [|c w IH]; [constructor|].
  inversion Hc as [|? ? [H1 H2] Hc']; inversion Hs; subst.
  constructor; [repeat split; assumption|].
  destruct w; [constructor|]. apply IH; [discriminate|assumption|assumption].
Qed.

(** The words of a one-line command without quotes and backslashes are
    plain. *)
Lemma parse_plain (s : pystr) :
  Py.contains Py.newline s = false ->
  Forall (fun c => is_quote c = false /\ c <> Py.backslash) s ->
  Forall (Forall Plain.plain) (fst (parse_command (CmdStr s))).
Proof.
  intros Hnl Hs.
  destruct (Words.parse_words s Hnl)
    as [[_ ->]|(ws & w & -> & Hws & Hw & _ & _ & Hch)].
  - cbn. constructor; constructor.
  - apply Pipeline.group_words; [|constructor|constructor].
    assert (Hsp : is_quote Py.space = false /\ Py.space <> Py.backslash)
      by (split; [reflexivity|discriminate]).
    specialize (Hch (fun c => is_quote c = false /\ c <> Py.backslash) Hsp Hs).
    assert (Hub : Forall Word.unbroken (ws ++ [w])).
    { apply Forall_app. split.
      - eapply Forall_impl; [exact Hws|]. intros x [Hx _].
        apply Scan.closed_unbroken. exact Hx.
      - constructor; [apply Hw|constructor]. }
    revert Hub Hch. generalize (ws ++ [w]). intros l Hub Hch.
    induction l as [|x l IH]; [constructor|].
    inversion Hub; inversion Hch; subst.
    constructor; [apply unbroken_plain; assumption|apply IH; assumption].
Qed.

(** C8, amended: for every one-line textual command in which the tokenizer
    finds no chain operator and that contains no quote character and no
    backslash, with shell invocation not requested, the argv produced by
    splitting the final command string is the token list the tokenizer
    produces for that string. *)
Theorem C8_plain_argv (h : host) (cache : option bool) (s : pystr) :
  Py.contains Py.newline s = false ->
  Forall (fun c => is_quote c = false /\ c <> Py.backslash) s ->
  snd (parse_command (CmdStr s)) = [] ->
  exists F cache' argv,
    final_command h (CmdStr s) cache = (Return (CmdStr F), cache')
    /\ Run.split_argv (CmdStr F) false = Return (CmdList argv)
    /\ parse_command (CmdStr F) = ([argv], []).
Proof.
  intros Hnl Hs Hss. rewrite Pipeline.final_command_eq. rewrite Hss.
  cbn [same_format].
  set (W := reconstruct
              (fst (process_parts h (fst (parse_command (CmdStr s))) cache)) []).
  assert (Hplain : Forall Plain.plain W).
  { apply Pipeline.reconstruct_words; [|constructor].
    apply Pipeline.process_parts_words.
    - split; [discriminate|]. repeat constructor; discriminate.
    - apply parse_plain; assumption. }
  assert (Hnonop : Forall Shape.non_op W).
  { apply Pipeline.reconstruct_words; [|constructor].
    apply Pipeline.process_parts_words; [reflexivity|].
    destruct (Parsed.parse_parsed s Hnl) as [(_ & _ & _ & Hno & _) _].
    exact Hno. }
  exists (Py.join W), (snd (process_parts h (fst (parse_command (CmdStr s))) cache)), W.
  split; [reflexivity|]. split.
  - unfold Run.split_argv. rewrite ShlexFacts.split_plain_words by exact Hplain.
    reflexivity.
  - destruct W as [|x W'] eqn:EW; [reflexivity|]. rewrite <- EW in *.
    rewrite Rebuild.parse_join.
    + unfold Word.group. rewrite Rebuild.fold_group_tokens by exact Hnonop.
      cbn [Word.g_init Word.g_parts Word.g_seps Word.g_part app].
      rewrite Rebuild.close_part by (rewrite EW; discriminate). reflexivity.
    + apply Parsed.wok_good. eapply Forall_impl; [exact Hplain|].
      intros w. apply plain_good.
Qed.

Lemma C8_plain_argv_witness :
  exists F cache' argv,
    final_command unix_with_sudo (CmdStr (str "apt  install vim")) None
    = (Return (CmdStr F), cache')
    /\ Run.split_argv (CmdStr F) false = Return (CmdList argv)
    /\ parse_command (CmdStr F) = ([argv], []).
Proof.
  apply (C8_plain_argv unix_with_sudo None (str "apt  install vim"));
    [vm_compute; reflexivity| |vm_compute; reflexivity].
  repeat constructor; discriminate.
Defined.

(** ** Claims on malformed input *)








(** ** Claims on execution *)

Lemma subprocess_run_files (nt : bool) (rt : Run.runtime)
    (keywords : list string) (final_cmd : command) (shell check : bool)
    (input : option Run.payload) (kwargs : gmap string Run.kwval)
    (w : Run.world) :
  Run.files (snd (Run.subprocess_run nt rt keywords final_cmd shell check input
                    kwargs w))
  = Run.files w.
Proof.
  unfold Run.subprocess_run.
  repeat match goal with
         | |- context [if ?c then _ else _] => destruct c; [reflexivity|]
         end.
  reflexivity.
Qed.

Lemma call_run_files (nt : bool) (rt : Run.runtime) (rq : Run.request)
    (final_cmd : command) (shell : bool) (kwargs : gmap string Run.kwval)
    (w : Run.world) :
  Run.files (snd (Run.call_run nt rt rq final_cmd shell kwargs w))
  = Run.files w.
Proof.
  unfold Run.call_run. destruct (Run.interactive rq);
    apply subprocess_run_files.
Qed.

(** The [try] statement leaves the files as it found them once the script
    was written, however the call ends. *)
Lemma try_run_files (nt : bool) (rt : Run.runtime) (rq : Run.request)
    (final_cmd : command) (kwargs : gmap string Run.kwval) (w : Run.world)
    (sh : Run.ShellType) (path : pystr) :
  Run.shell_type rq = Some sh ->
  Run.tmp_name rt = Some path ->
  Run.write_ok rt = true ->
  Run.files w !! path = None ->
  Run.files (snd (Run.try_run nt rt rq final_cmd kwargs w)) = Run.files w.
Proof.
  intros Hsh Htmp Hwr Hfresh. unfold Run.try_run.
  rewrite Hsh, Htmp, Hwr. cbn [negb].
  destruct (Run.chmod_ok rt); cbn [negb].
  - destruct (Run.call_run nt rt rq _ true kwargs _) as [res w2] eqn:E.
    cbn [snd Run.unlink Run.files].
    assert (Hf := call_run_files nt rt rq
                    (CmdStr (Run.get_shell_command sh ++ Py.space :: path))
                    true kwargs
                    (Run.World (Run.sudo_cache w)
                       (<[path := final_cmd]> (Run.files w)) (Run.spawned w))).
    rewrite E in Hf. cbn [snd Run.files] in Hf. rewrite Hf.
    apply delete_insert_id. exact Hfresh.
  - cbn [snd Run.unlink Run.files]. apply delete_insert_id. exact Hfresh.
Qed.

(** C5 fails on the code.  For a call with a script interpreter set whose
    temporary file was created under a fresh name: once the script has been
    written the file is gone when the call ends and no other file is
    touched, whatever the outcome (exit code zero, a non-zero exit code with
    or without [raise_on_error], a spawn failure, a failing [chmod], an
    exception of [subprocess.run]); but when writing the script fails,
    [script_path] is not bound yet and the [finally] clause removes nothing:
    every call that reaches the [try] statement ends with an exception and
    leaves the file behind. *)
Theorem C5_script_cleanup (h : host) (rt : Run.runtime) (rq : Run.request)
    (w : Run.world) (sh : Run.ShellType) (path : pystr) :
  Run.shell_type rq = Some sh ->
  Run.tmp_name rt = Some path ->
  Run.files w !! path = None ->
  (Run.write_ok rt = true ->
   Run.files (snd (Run.run_subprocess h rt rq w)) !! path = None
   /\ Run.files (snd (Run.run_subprocess h rt rq w)) = Run.files w)
  /\ (Run.write_ok rt = false ->
      forall rewritten io final_cmd,
        fst (final_command h (Run.cmd rq) (Run.sudo_cache w)) = Return rewritten ->
        Run.add_input (Run.input rq) (Run.kwargs rq)
          (Run.mode_kwargs (Run.interactive rq)) = Return io ->
        Run.split_argv rewritten (Run.shell rq) = Return final_cmd ->
        (exists e, fst (Run.run_subprocess h rt rq w) = Raise e)
        /\ Run.spawned (snd (Run.run_subprocess h rt rq w)) = Run.spawned w
        /\ is_Some (Run.files (snd (Run.run_subprocess h rt rq w)) !! path)).
Proof.
  intros Hsh Htmp Hfresh. split.
  - intros Hwr.
    assert (H : Run.files (snd (Run.run_subprocess h rt rq w)) = Run.files w).
    { unfold Run.run_subprocess.
      destruct (final_command h (Run.cmd rq) (Run.sudo_cache w)) as [r c'].
      destruct r as [final|e]; [|reflexivity].
      destruct (Run.add_input _ _ _) as [io|e]; [|reflexivity].
      destruct (Run.split_argv final (Run.shell rq)) as [argv|e]; [|reflexivity].
      rewrite (try_run_files _ rt rq argv _ _ sh path Hsh Htmp Hwr);
        [reflexivity|exact Hfresh]. }
    rewrite H. split; [exact Hfresh|reflexivity].
  - intros Hwr rewritten io final_cmd Hf Ha Hs.
    unfold Run.run_subprocess.
    destruct (final_command h (Run.cmd rq) (Run.sudo_cache w)) as [r c'].
    cbn [fst] in Hf. subst r. rewrite Ha, Hs.
    unfold Run.try_run. rewrite Hsh, Htmp, Hwr. cbn [negb fst snd].
    split; [eexists; reflexivity|]. split; [reflexivity|].
    cbn [Run.files]. rewrite lookup_insert_eq. eexists. reflexivity.
Qed.

Lemma C5_script_cleanup_witness :
  Run.files (snd (Run.run_subprocess unix_with_sudo
                    (script_runtime (Run.Exits 3 [] []))
                    (script_request true) empty_world))
  = Run.files empty_world
  /\ (exists e,
        fst (Run.run_subprocess unix_with_sudo
               (Run.Runtime (Some (str "/tmp/tmpab12.sh")) false true
                  (fun _ => Run.Exits 0 [] []))
               (script_request false) empty_world) = Raise e)
  /\ is_Some
       (Run.files (snd (Run.run_subprocess unix_with_sudo
                          (Run.Runtime (Some (str "/tmp/tmpab12.sh")) false true
                             (fun _ => Run.Exits 0 [] []))
                          (script_request false) empty_world))
          !! str "/tmp/tmpab12.sh").
Proof.
  split.
  - apply (proj1 (C5_script_cleanup unix_with_sudo
                    (script_runtime (Run.Exits 3 [] []))
                    (script_request true) empty_world Run.BASH
                    (str "/tmp/tmpab12.sh") eq_refl eq_refl eq_refl)).
    reflexivity.
  - destruct (proj2 (C5_script_cleanup unix_with_sudo
                       (Run.Runtime (Some (str "/tmp/tmpab12.sh")) false true
                          (fun _ => Run.Exits 0 [] []))
                       (script_request false) empty_world Run.BASH
                       (str "/tmp/tmpab12.sh") eq_refl eq_refl eq_refl)
                eq_refl
                (CmdStr (str "echo a" ++ Py.newline :: str "echo b"))
                (Run.mode_kwargs false)
                (CmdStr (str "echo a" ++ Py.newline :: str "echo b")))
      as (He & _ & Hf); try (vm_compute; reflexivity).
    split; [exact He | exact Hf].
Defined.

(** The three exit paths of the script call. *)
Example script_exit_zero :
  fst (Run.run_subprocess unix_with_sudo (script_runtime (Run.Exits 0 [] []))
         (script_request true) empty_world)
  = Return (Run.Completed 0 (Some []) (Some [])).
Proof. vm_compute. reflexivity. Qed.

Example script_exit_nonzero :
  fst (Run.run_subprocess unix_with_sudo (script_runtime (Run.Exits 3 [] []))
         (script_request true) empty_world)
  = Raise (CalledProcessError 3)
  /\ fst (Run.run_subprocess unix_with_sudo
            (script_runtime (Run.Exits 3 [] []))
            (script_request false) empty_world)
     = Return (Run.Completed 3 (Some []) (Some [])).
Proof. split; vm_compute; reflexivity. Qed.

Example script_spawn_failure :
  fst (Run.run_subprocess unix_with_sudo (script_runtime Run.SpawnFails)
         (script_request false) empty_world)
  = Raise OSError.
Proof. vm_compute. reflexivity. Qed.

(** A call of [subprocess.run] that repeats a keyword of the call site
    raises before anything is spawned. *)
Lemma subprocess_run_duplicate (nt : bool) (rt : Run.runtime)
    (keywords : list string) (final_cmd : command) (shell check : bool)
    (input : option Run.payload) (kwargs : gmap string Run.kwval)
    (w : Run.world) (k : string) :
  In k keywords -> is_Some (kwargs !! k) ->
  Run.subprocess_run nt rt keywords final_cmd shell check input kwargs w
  = (Raise (TypeError "got multiple values for keyword argument"), w).
Proof.
  intros Hin Hk. unfold Run.subprocess_run.
  assert (H : existsb (fun k => bool_decide (is_Some (kwargs !! k))) keywords
              = true).
  { apply existsb_exists. exists k. split; [exact Hin|].
    apply bool_decide_eq_true. exact Hk. }
  rewrite H. reflexivity.
Qed.

Lemma add_input_key (p : Run.payload) (kwargs io io' : gmap string Run.kwval) :
  Run.payload_truthy p = true ->
  Run.add_input (Some p) kwargs io = Return io' ->
  io' !! "input" = Some (Run.KInput (Run.with_newline p)).
Proof.
  intros Ht. unfold Run.add_input. rewrite Ht.
  destruct (Run.expects_stdin kwargs) as [[|]|e]; intros H;
    [| |discriminate]; injection H as <-.
  - rewrite lookup_insert_ne by discriminate. apply lookup_insert_eq.
  - rewrite lookup_delete_ne by discriminate.
    rewrite lookup_insert_ne by discriminate. apply lookup_insert_eq.
Qed.

(** C6 fails on the code: in captured mode with a non-empty textual payload
    the payload, with its newline, is put under the key [input] of the
    keyword arguments and [input] is passed once more by name, so the call
    raises and no process is spawned. *)
Theorem C6_captured_payload_raises (h : host) (rt : Run.runtime)
    (rq : Run.request) (w : Run.world) (s : pystr) :
  Run.interactive rq = false ->
  Run.input rq = Some (Run.Text s) ->
  s <> [] ->
  exists e w',
    Run.run_subprocess h rt rq w = (Raise e, w')
    /\ Run.spawned w' = Run.spawned w.
Proof.
  intros Hint Hin Hs. unfold Run.run_subprocess.
  destruct (final_command h (Run.cmd rq) (Run.sudo_cache w)) as [r c'].
  destruct r as [final|e]; [|eexists _, _; split; reflexivity].
  destruct (Run.add_input _ _ _) as [io|e] eqn:Eio;
    [|eexists _, _; split; reflexivity].
  destruct (Run.split_argv final (Run.shell rq)) as [argv|e];
    [|eexists _, _; split; reflexivity].
  rewrite Hin in Eio.
  assert (Hkey : is_Some ((io ∪ Run.kwargs rq) !! "input")).
  { exists (Run.KInput (Run.with_newline (Run.Text s))).
    apply lookup_union_Some_l.
    assert (Ht : Run.payload_truthy (Run.Text s) = true)
      by (destruct s; [congruence|reflexivity]).
    exact (add_input_key _ _ _ _ Ht Eio). }
  assert (Hcall : forall fc sh w0,
            Run.call_run (os_nt h) rt rq fc sh (io ∪ Run.kwargs rq) w0
            = (Raise (TypeError "got multiple values for keyword argument"), w0)).
  { intros fc sh w0. unfold Run.call_run. rewrite Hint.
    apply (subprocess_run_duplicate _ _ _ _ _ _ _ _ _ "input");
      [cbn; tauto|exact Hkey]. }
  unfold Run.try_run. destruct (Run.shell_type rq) as [sht|].
  - destruct (Run.tmp_name rt) as [path|];
      [|eexists _, _; split; reflexivity].
    destruct (Run.write_ok rt); cbn [negb];
      [|eexists _, _; split; reflexivity].
    destruct (Run.chmod_ok rt); cbn [negb];
      [|eexists _, _; split; reflexivity].
    rewrite Hcall. eexists _, _. split; reflexivity.
  - rewrite Hcall. eexists _, _. split; reflexivity.
Qed.

Lemma C6_captured_payload_raises_witness :
  exists e w',
    Run.run_subprocess unix_with_sudo quiet_runtime (payload_request false)
      empty_world = (Raise e, w')
    /\ Run.spawned w' = Run.spawned empty_world.
Proof.
  apply (C6_captured_payload_raises unix_with_sudo quiet_runtime
           (payload_request false) empty_world (str "y"));
    [reflexivity|reflexivity|discriminate].
Defined.

(** The failing input of C6, and the interactive call with the same payload,
    which does reach the process with the newline appended. *)
Example captured_payload_type_error :
  fst (Run.run_subprocess unix_with_sudo quiet_runtime (payload_request false)
         empty_world)
  = Raise (TypeError "got multiple values for keyword argument").
Proof. vm_compute. reflexivity. Qed.

Example interactive_payload_written :
  map Run.stdin_input
    (Run.spawned (snd (Run.run_subprocess unix_with_sudo quiet_runtime
                         (payload_request true) empty_world)))
  = [Some (Run.Text (str "y" ++ [Py.newline]))].
Proof. vm_compute. reflexivity. Qed.

(** ** Claim on accepted exit codes *)

Lemma accepted_codes_set (cmd_run : Command.CommandExecution) :
  (list_to_set (fst (Command.accepted_exit_codes cmd_run)) : gset Z)
  = {[ 0%Z ]} ∪ list_to_set (Command.author_codes cmd_run).
Proof.
  unfold Command.accepted_exit_codes, Command.author_codes.
  destruct (Command.valid_exit_codes cmd_run) as [[|c codes]|]; cbn [fst].
  - cbn. set_solver.
  - rewrite list_to_set_app_L. cbn. set_solver.
  - cbn. set_solver.
Qed.

Lemma author_codes_after (cmd_run : Command.CommandExecution) :
  ({[ 0%Z ]} ∪ list_to_set
     (Command.author_codes (snd (Command.accepted_exit_codes cmd_run)))
   : gset Z)
  = {[ 0%Z ]} ∪ list_to_set (Command.author_codes cmd_run).
Proof.
  unfold Command.accepted_exit_codes, Command.author_codes.
  destruct (Command.valid_exit_codes cmd_run) as [[|c codes]|] eqn:E;
    cbn [snd Command.valid_exit_codes]; rewrite ?E; [reflexivity| |reflexivity].
  rewrite list_to_set_app_L. cbn. set_solver.
Qed.

(** C10: at every execution of a command, also after earlier executions
    have extended the author's list in place, the accepted codes are, as a
    set, the author's list with 0 added, and a zero exit is not a failure. *)
Theorem C10_zero_accepted (n : nat) (cmd_run : Command.CommandExecution) :
  (list_to_set (Command.codes_after n cmd_run) : gset Z)
  = {[ 0%Z ]} ∪ list_to_set (Command.author_codes cmd_run)
  /\ Command.is_failure 0 (Command.codes_after n cmd_run) = false.
Proof.
  assert (Hset : forall n cmd_run,
            (list_to_set (Command.codes_after n cmd_run) : gset Z)
            = {[ 0%Z ]} ∪ list_to_set (Command.author_codes cmd_run)).
  { clear. induction n as [|n IH]; intros cmd_run; cbn [Command.codes_after].
    - apply accepted_codes_set.
    - rewrite IH. apply author_codes_after. }
  split; [apply Hset|].
  unfold Command.is_failure. apply negb_false_iff. apply existsb_exists.
  exists 0%Z. split; [|reflexivity].
  assert (H : (0%Z : Z) ∈ (list_to_set (Command.codes_after n cmd_run) : gset Z))
    by (rewrite Hset; set_solver).
  apply elem_of_list_to_set in H. apply list_elem_of_In. exact H.
Qed.

(** * Further properties of the code *)

(** ** The self-install guard and [strip_sudo] *)

Lemma skip_flags_split (rest : list pystr) :
  forall i, exists flags tail,
    rest = flags ++ tail
    /\ Forall (fun f => Py.startswith Py.dash f = true) flags
    /\ Py.startswith Py.dash (hd [] tail) = false
    /\ skip_flags rest i = i + length flags.
Proof.
  induction rest as [|w rest IH]; intros i.
  - exists [], []. simpl. repeat split; auto; lia.
  - simpl. destruct (Py.startswith Py.dash w) eqn:Hw.
    + destruct (IH (S i)) as (flags & tail & -> & Hf & Ht & Hs).
      exists (w :: flags), tail. simpl. repeat split; auto.
      lia.
    + exists [], (w :: rest). simpl. repeat split; auto; lia.
Qed.

Lemma skip_flags_app (flags rest : list pystr) :
  forall i,
    Forall (fun f => Py.startswith Py.dash f = true) flags ->
    Py.startswith Py.dash (hd [] rest) = false ->
    skip_flags (flags ++ rest) i = i + length flags.
Proof.
  induction flags as [|f flags IH]; intros i Hf Hr; simpl.
  - destruct rest as [|w rest]; simpl in *; [lia|]. rewrite Hr. lia.
  - inversion Hf; subst. rewrite H1. rewrite IH by assumption. lia.
Qed.

Lemma sudo_prefix_length_app (s0 : pystr) (flags rest : list pystr) :
  Py.eqb (Py.lower s0) sudo = true ->
  Forall (fun f => Py.startswith Py.dash f = true) flags ->
  Py.startswith Py.dash (hd [] rest) = false ->
  sudo_prefix_length (s0 :: flags ++ rest) = S (length flags).
Proof.
  intros Hs Hf Hr. unfold sudo_prefix_length. simpl starts_with_sudo.
  rewrite Hs. change (skipn 1 (s0 :: flags ++ rest)) with (flags ++ rest).
  rewrite skip_flags_app by assumption. lia.
Qed.

Lemma sudo_prefix_length_none (words : list pystr) :
  starts_with_sudo words = false -> sudo_prefix_length words = 0.
Proof. intros H. unfold sudo_prefix_length. rewrite H. reflexivity. Qed.

Lemma nth_skip {A} (d : A) (pre l : list A) (k : nat) :
  nth (length pre + k) (pre ++ l) d = nth k l d.
Proof.
  induction pre as [|x pre IH]; simpl; [reflexivity | exact IH].
Qed.

Lemma skipn_skip {A} (pre l : list A) (k : nat) :
  skipn (length pre + k) (pre ++ l) = skipn k l.
Proof.
  induction pre as [|x pre IH]; simpl; [reflexivity | exact IH].
Qed.

(** A leading [sudo] with its flags is invisible to the guard. *)
Lemma single_skips_sudo (s0 : pystr) (flags rest : list pystr) :
  Py.eqb (Py.lower s0) sudo = true ->
  Forall (fun f => Py.startswith Py.dash f = true) flags ->
  Py.startswith Py.dash (hd [] rest) = false ->
  starts_with_sudo rest = false ->
  _is_single_command_installing_sudo (s0 :: flags ++ rest)
  = _is_single_command_installing_sudo rest.
Proof.
  intros Hs Hf Hr Hn.
  unfold _is_single_command_installing_sudo.
  rewrite (sudo_prefix_length_app s0 flags rest Hs Hf Hr).
  rewrite (sudo_prefix_length_none rest Hn).
  change (s0 :: flags ++ rest) with ((s0 :: flags) ++ rest).
  replace (S (length flags)) with (length (s0 :: flags) + 0) by (simpl; lia).
  replace (length (s0 :: flags) + 0 + 1) with (length (s0 :: flags) + 1) by lia.
  replace (length (s0 :: flags) + 0 + 2) with (length (s0 :: flags) + 2) by lia.
  rewrite !nth_skip, skipn_skip.
  rewrite List.length_app.
  destruct rest as [|m rest].
  - simpl. replace (length flags + 0 - 0) with (length flags) by lia.
    destruct (_ <=? _) eqn:E; [reflexivity|].
    apply Nat.leb_gt in E. lia.
  - replace (length (s0 :: flags) + length (m :: rest) - 1
             <=? length (s0 :: flags) + 0)
      with (length (m :: rest) - 1 <=? 0); [reflexivity|].
    destruct (Nat.leb_spec (length (m :: rest) - 1) 0);
      destruct (Nat.leb_spec (length (s0 :: flags) + length (m :: rest) - 1)
                             (length (s0 :: flags) + 0));
      try reflexivity; simpl in *; lia.
Qed.

Lemma split_at_two {A} (d : A) (l : list A) (n : nat) :
  n + 1 < length l ->
  l = firstn n l ++ nth n l d :: nth (n + 1) l d :: skipn (n + 2) l.
Proof.
  intros Hn.
  rewrite <- (firstn_skipn n l) at 1. f_equal.
  rewrite (Rebuild.skipn_nth d l n) by lia. f_equal.
  replace (n + 1) with (S n) by lia. replace (n + 2) with (S (S n)) by lia.
  apply Rebuild.skipn_nth. lia.
Qed.

Lemma is_installing_sudo_list (ws : list pystr) :
  is_installing_sudo (CmdList ws) = _is_single_command_installing_sudo ws.
Proof.
  unfold is_installing_sudo, parse_command, fst, existsb. apply orb_false_r.
Qed.

(** X1: [_is_single_command_installing_sudo] answers [True] only for a
    command that, after an optional [sudo] with its flags, names a package
    manager and its install action ([pacman -S], or [install] for apt,
    apt-get, yum, dnf and zypper) followed by a package word that is not a
    flag and whose name before [=] is [sudo] in any letter case. *)
Theorem guard_sound (words : list pystr) :
  _is_single_command_installing_sudo words = true ->
  exists manager action packages pkg,
    words = firstn (sudo_prefix_length words) words
            ++ manager :: action :: packages
    /\ (Py.lower manager = str "pacman" /\ action = str "-S"
        \/ In (Py.lower manager) install_managers
           /\ Py.lower action = str "install")
    /\ In pkg packages
    /\ Py.startswith Py.dash pkg = false
    /\ Py.lower (Py.before_equals pkg) = sudo.
Proof.
  unfold _is_single_command_installing_sudo.
  destruct words as [|w0 ws]; [discriminate|].
  set (words := w0 :: ws). set (n := sudo_prefix_length words).
  destruct (length words - 1 <=? n) eqn:E; [discriminate|].
  apply Nat.leb_gt in E.
  destruct (_ || _) eqn:C; [|discriminate].
  intros H.
  exists (nth n words []), (nth (n + 1) words []), (skipn (n + 2) words).
  apply PyFacts.mem_In, List.in_map_iff in H as (pkg & Hname & Hin).
  apply List.filter_In in Hin as (Hin & Hflag).
  exists pkg. split; [apply split_at_two; lia|].
  split.
  - apply orb_true_iff in C as [C | C]; apply andb_true_iff in C as [C1 C2].
    + left. split; apply PyFacts.eqb_eq; assumption.
    + right. split; [apply PyFacts.mem_In | apply PyFacts.eqb_eq]; assumption.
  - split; [exact Hin|]. split; [|exact Hname].
    destruct (Py.startswith Py.dash pkg); [discriminate | reflexivity].
Qed.

Lemma guard_sound_witness :
  exists manager action packages pkg,
    [str "sudo"; str "-n"; str "apt-get"; str "install"; str "-y"; str "Sudo=1.9"]
    = firstn (sudo_prefix_length
                [str "sudo"; str "-n"; str "apt-get"; str "install"; str "-y";
                 str "Sudo=1.9"])
             [str "sudo"; str "-n"; str "apt-get"; str "install"; str "-y";
              str "Sudo=1.9"]
      ++ manager :: action :: packages
    /\ (Py.lower manager = str "pacman" /\ action = str "-S"
        \/ In (Py.lower manager) install_managers
           /\ Py.lower action = str "install")
    /\ In pkg packages
    /\ Py.startswith Py.dash pkg = false
    /\ Py.lower (Py.before_equals pkg) = sudo.
Proof.
  apply (guard_sound [str "sudo"; str "-n"; str "apt-get"; str "install";
                      str "-y"; str "Sudo=1.9"]).
  reflexivity.
Defined.

(** X2: the guard looks through a leading [sudo] (in any letter case) and
    the flags that follow it: the answer for the prefixed command is the
    answer for the command itself. *)
Theorem guard_skips_sudo (s0 : pystr) (flags rest : list pystr) :
  Py.eqb (Py.lower s0) sudo = true ->
  Forall (fun f => Py.startswith Py.dash f = true) flags ->
  Py.startswith Py.dash (hd [] rest) = false ->
  starts_with_sudo rest = false ->
  is_installing_sudo (CmdList (s0 :: flags ++ rest))
  = is_installing_sudo (CmdList rest).
Proof.
  intros Hs Hf Hr Hn. rewrite !is_installing_sudo_list.
  exact (single_skips_sudo s0 flags rest Hs Hf Hr Hn).
Qed.

Lemma guard_skips_sudo_witness :
  is_installing_sudo
    (CmdList (str "SUDO" :: [str "-H"; str "-n"]
              ++ [str "dnf"; str "install"; str "sudo"]))
  = is_installing_sudo (CmdList [str "dnf"; str "install"; str "sudo"]).
Proof.
  apply (guard_skips_sudo (str "SUDO") [str "-H"; str "-n"]
           [str "dnf"; str "install"; str "sudo"]).
  - reflexivity.
  - repeat constructor.
  - reflexivity.
  - reflexivity.
Defined.

Lemma script_not_sudo (s : pystr) :
  Py.contains Py.newline s = true -> starts_with_sudo [s] = false.
Proof.
  intros H. simpl. destruct (Py.eqb (Py.lower s) sudo) eqn:E; [|reflexivity].
  apply PyFacts.eqb_eq in E.
  rewrite <- Idempotence.lower_newline, E in H. discriminate.
Qed.

(** X3: a multi-line script is never recognised as installing [sudo], and
    [strip_sudo] returns it unchanged, whatever its lines are. *)
Theorem script_not_guarded (s : pystr) :
  Py.contains Py.newline s = true ->
  is_installing_sudo (CmdStr s) = false /\ strip_sudo (CmdStr s) = CmdStr s.
Proof.
  intros H.
  assert (Hg : is_installing_sudo (CmdStr s) = false).
  { unfold is_installing_sudo, parse_command. rewrite H. simpl.
    unfold _is_single_command_installing_sudo, sudo_prefix_length.
    destruct (starts_with_sudo [s]); reflexivity. }
  split; [exact Hg|].
  unfold strip_sudo. rewrite Hg. unfold parse_command. rewrite H.
  simpl. unfold strip_part, sudo_prefix_length.
  rewrite (script_not_sudo s H). reflexivity.
Qed.

Lemma script_not_guarded_witness :
  is_installing_sudo
    (CmdStr (str "sudo apt update" ++ Py.newline :: str "apt install sudo"))
  = false
  /\ strip_sudo
       (CmdStr (str "sudo apt update" ++ Py.newline :: str "apt install sudo"))
     = CmdStr (str "sudo apt update" ++ Py.newline :: str "apt install sudo").
Proof.
  apply (script_not_guarded
           (str "sudo apt update" ++ Py.newline :: str "apt install sudo")).
  reflexivity.
Defined.

Lemma strip_sudo_list_eq (ws : list pystr) :
  is_installing_sudo (CmdList ws) = false ->
  strip_sudo (CmdList ws) = CmdList (strip_part ws).
Proof. intros H. unfold strip_sudo. rewrite H. reflexivity. Qed.

Lemma strip_part_plain (ws : list pystr) :
  starts_with_sudo ws = false -> strip_part ws = ws.
Proof.
  intros H. unfold strip_part. rewrite sudo_prefix_length_none by exact H.
  reflexivity.
Qed.

(** X4: on a word list [strip_sudo] removes a prefix of the list and nothing
    else.  The prefix is empty when the list does not begin with [sudo] or
    when it installs [sudo]; otherwise it is the word [sudo] with all the
    dash-words that follow it, so the first word kept is not a flag. *)
Theorem strip_sudo_list (ws : list pystr) :
  exists removed rest,
    ws = removed ++ rest
    /\ strip_sudo (CmdList ws) = CmdList rest
    /\ (starts_with_sudo ws = false \/ is_installing_sudo (CmdList ws) = true ->
        removed = [])
    /\ (starts_with_sudo ws = true ->
        is_installing_sudo (CmdList ws) = false ->
        exists s0 flags,
          removed = s0 :: flags
          /\ Py.eqb (Py.lower s0) sudo = true
          /\ Forall (fun f => Py.startswith Py.dash f = true) flags
          /\ Py.startswith Py.dash (hd [] rest) = false).
Proof.
  destruct (is_installing_sudo (CmdList ws)) eqn:Hg.
  - exists [], ws. split; [reflexivity|]. split.
    + unfold strip_sudo. rewrite Hg. reflexivity.
    + split; [reflexivity | discriminate].
  - rewrite (strip_sudo_list_eq ws Hg).
    destruct (starts_with_sudo ws) eqn:Hs.
    + destruct ws as [|s0 tl]; [discriminate|].
      destruct (skip_flags_split tl 1) as (flags & tail & -> & Hf & Ht & Hk).
      exists (s0 :: flags), tail. split; [reflexivity|]. split.
      * unfold strip_part.
        rewrite (sudo_prefix_length_app s0 flags tail Hs Hf Ht).
        change (s0 :: flags ++ tail) with ((s0 :: flags) ++ tail).
        replace (S (length flags)) with (length (s0 :: flags) + 0)
          by (simpl; lia).
        rewrite skipn_skip. reflexivity.
      * split; [intros [H | H]; discriminate|].
        intros _ _. exists s0, flags. auto.
    + exists [], ws. rewrite (strip_part_plain ws Hs).
      split; [reflexivity|]. split; [reflexivity|].
      split; [reflexivity | discriminate].
Qed.

Lemma process_parts_windows (h : host) (ps : list (list pystr)) :
  os_nt h = true ->
  forall cache,
    process_parts h ps cache = (map strip_part (List.filter nonempty ps), cache).
Proof.
  intros Hnt. induction ps as [|part ps IH]; intros cache; [reflexivity|].
  destruct part as [|w part]; [exact (IH cache)|].
  cbn [process_parts List.filter nonempty map]. rewrite Hnt.
  unfold strip_part, sudo_prefix_length.
  destruct (starts_with_sudo (w :: part)); unfold bind, ret; rewrite IH;
    reflexivity.
Qed.

Lemma strip_parts_nonempty (ps : list (list pystr)) (ss : list pystr) :
  (ps = [[]] /\ ss = []) \/ Forall (fun p => p <> []) ps ->
  reconstruct (map strip_part (List.filter nonempty ps)) ss
  = reconstruct (map strip_part ps) ss.
Proof.
  intros [[-> ->] | H].
  - reflexivity.
  - rewrite Elevation.filter_nonempty_all by exact H. reflexivity.
Qed.

Lemma parse_parts_shape (cmd : command) :
  (fst (parse_command cmd) = [[]] /\ snd (parse_command cmd) = [])
  \/ Forall (fun p => p <> []) (fst (parse_command cmd)).
Proof.
  destruct cmd as [s | ws].
  - destruct (Py.contains Py.newline s) eqn:Hn.
    + right. unfold parse_command. rewrite Hn. simpl.
      constructor; [|constructor]. discriminate.
    + destruct (Parsed.parse_parsed s Hn) as [(_ & _ & [H | [_ H]] & _) _].
      * left. exact H.
      * right. exact H.
  - destruct ws as [|w ws]; simpl.
    + left. split; reflexivity.
    + right. constructor; [discriminate | constructor].
Qed.

(** X5: on Windows the rewrite of [run_subprocess] is [strip_sudo]: for
    every command that does not install [sudo] the final command is the
    result of [strip_sudo], and the availability cache is not touched. *)
Theorem windows_rewrite_strips (h : host) (cmd : command) (cache : option bool) :
  os_nt h = true ->
  is_installing_sudo cmd = false ->
  final_command h cmd cache = (Return (strip_sudo cmd), cache).
Proof.
  intros Hnt Hg.
  rewrite Pipeline.final_command_eq.
  rewrite (process_parts_windows h _ Hnt). cbn [fst snd].
  rewrite (strip_parts_nonempty _ _ (parse_parts_shape cmd)).
  unfold strip_sudo. rewrite Hg.
  destruct (parse_command cmd) as [ps ss] eqn:Hp. cbn [fst snd].
  destruct cmd as [s | ws]; [reflexivity|].
  simpl in Hp. injection Hp as <- <-. simpl.
  unfold reconstruct. simpl. rewrite app_nil_r. reflexivity.
Qed.

Lemma windows_rewrite_strips_witness :
  final_command windows_host
    (CmdStr (str "sudo -n apt update && sudo apt install vim")) None
  = (Return (strip_sudo
               (CmdStr (str "sudo -n apt update && sudo apt install vim"))),
     None).
Proof.
  apply (windows_rewrite_strips windows_host
           (CmdStr (str "sudo -n apt update && sudo apt install vim")) None);
    reflexivity.
Defined.

(** X6: [strip_sudo] undoes the Unix rewrite on word lists: for a list that
    does not begin with [sudo] or with a flag and does not install [sudo],
    stripping the rewritten command gives the list back, whether or not the
    rewrite put [sudo] in front. *)
Theorem strip_undoes_elevation (h : host) (ws : list pystr)
    (cache : option bool) :
  os_nt h = false ->
  starts_with_sudo ws = false ->
  Py.startswith Py.dash (hd [] ws) = false ->
  is_installing_sudo (CmdList ws) = false ->
  exists final cache',
    final_command h (CmdList ws) cache = (Return final, cache')
    /\ (final = CmdList ws \/ final = CmdList (sudo :: ws))
    /\ strip_sudo final = CmdList ws.
Proof.
  intros Hnt Hs Hd Hg.
  destruct (Elevation.final_command_unix h (CmdList ws) cache Hnt
              (Elevation.parse_nonempty _)) as (cache' & Hf & _).
  eexists _, cache'. split; [exact Hf|].
  assert (Hplain : strip_sudo (CmdList ws) = CmdList ws).
  { rewrite (strip_sudo_list_eq ws Hg), (strip_part_plain ws Hs). reflexivity. }
  cbn [parse_command fst snd same_format].
  destruct ws as [|w ws].
  - split; [left; reflexivity | exact Hplain].
  - cbn [List.filter nonempty map]. unfold reconstruct. simpl reconstruct_from.
    rewrite app_nil_r.
    destruct (Elevation.elevate_cases h (Elevate.available h cache) (w :: ws))
      as [-> | ->].
    + split; [left; reflexivity | exact Hplain].
    + split; [right; reflexivity|].
      assert (Hg' : is_installing_sudo (CmdList (sudo :: w :: ws)) = false).
      { rewrite is_installing_sudo_list in *.
        rewrite <- Hg.
        exact (single_skips_sudo sudo [] (w :: ws) eq_refl (List.Forall_nil _) Hd Hs). }
      rewrite (strip_sudo_list_eq _ Hg'). unfold strip_part.
      change (sudo :: w :: ws) with (sudo :: [] ++ w :: ws).
      rewrite (sudo_prefix_length_app sudo [] (w :: ws) eq_refl
                 (List.Forall_nil _) Hd).
      reflexivity.
Qed.

Lemma strip_undoes_elevation_witness :
  exists final cache',
    final_command unix_with_sudo (CmdList [str "apt"; str "update"]) None
    = (Return final, cache')
    /\ (final = CmdList [str "apt"; str "update"]
        \/ final = CmdList (sudo :: [str "apt"; str "update"]))
    /\ strip_sudo final = CmdList [str "apt"; str "update"].
Proof.
  apply (strip_undoes_elevation unix_with_sudo [str "apt"; str "update"] None);
    reflexivity.
Defined.

(** ** The availability cache and the elevation decision *)

(** X7: the answer of [is_sudo_available] is fixed by its first call: a
    later call returns it whatever the host has become, and while it is
    [False] no command is found to need [sudo]; after [reset_sudo_cache] the
    next call asks the host again. *)
Theorem sudo_answer_cached (h h' : host) (cache : option bool) (cmd : command) :
  is_sudo_available h' (snd (is_sudo_available h cache))
  = (fst (is_sudo_available h cache), snd (is_sudo_available h cache))
  /\ (fst (is_sudo_available h cache) = false ->
      fst (command_needs_sudo h' cmd (snd (is_sudo_available h cache))) = false)
  /\ fst (is_sudo_available h'
            (snd (reset_sudo_cache (snd (is_sudo_available h cache)))))
     = truthy (which h' sudo).
Proof.
  split; [|split].
  - destruct cache as [b|]; reflexivity.
  - intros Hb. rewrite Elevation.command_needs_sudo_eq. cbn [fst].
    unfold Elevate.needs_sudo, Elevate.available.
    destruct cache as [b|]; simpl in *; rewrite Hb; reflexivity.
  - reflexivity.
Qed.

Lemma needs_sudo_loop_cons (h : host) (p : list pystr)
    (ps : list (list pystr)) :
  os_nt h = false ->
  needs_sudo_loop h (p :: ps) = needs_sudo_loop h [p] || needs_sudo_loop h ps.
Proof.
  intros Hnt. destruct p as [|w p]; [reflexivity|].
  cbn [needs_sudo_loop]. rewrite Hnt.
  repeat match goal with
         | |- context [if ?c then _ else _] => destruct c
         end; reflexivity.
Qed.

Lemma needs_sudo_loop_unix (h : host) (ps : list (list pystr)) :
  os_nt h = false ->
  needs_sudo_loop h ps = existsb (fun p => needs_sudo_loop h [p]) ps.
Proof.
  intros Hnt. induction ps as [|p ps IH]; [reflexivity|].
  rewrite (needs_sudo_loop_cons h p ps Hnt), IH. reflexivity.
Qed.

(** X8: on a Unix host the decision for a chain is the disjunction of the
    decisions for its segments: [command_needs_sudo] is true exactly when no
    segment begins with [sudo] and it is true for some segment given as a
    word list, as the rewrite loop gives it. *)
Theorem chain_decision (h : host) (cmd : command) (cache : option bool) :
  os_nt h = false ->
  fst (command_needs_sudo h cmd cache)
  = negb (existsb starts_with_sudo (fst (parse_command cmd)))
    && existsb (fun part => fst (command_needs_sudo h (CmdList part) cache))
               (fst (parse_command cmd)).
Proof.
  intros Hnt. rewrite Elevation.command_needs_sudo_eq. cbn [fst].
  unfold Elevate.needs_sudo.
  set (a := Elevate.available h cache). set (ps := fst (parse_command cmd)).
  rewrite (needs_sudo_loop_unix h ps Hnt).
  assert (Hseg : forall part,
             fst (command_needs_sudo h (CmdList part) cache)
             = a && negb (starts_with_sudo part) && needs_sudo_loop h [part]).
  { intros part. rewrite Elevation.command_needs_sudo_eq. cbn [fst].
    unfold Elevate.needs_sudo. cbn [parse_command fst existsb].
    rewrite orb_false_r. reflexivity. }
  destruct (existsb starts_with_sudo ps) eqn:E.
  - rewrite andb_false_r. reflexivity.
  - rewrite andb_true_r. cbn [negb andb].
    induction ps as [|p ps IH]; [apply andb_false_r|].
    cbn [existsb] in *. apply orb_false_iff in E as [E1 E2].
    rewrite Hseg, E1, <- (IH E2). cbn [negb]. rewrite andb_true_r.
    destruct a; reflexivity.
Qed.

Lemma chain_decision_witness :
  fst (command_needs_sudo unix_with_sudo
         (CmdStr (str "echo test && apt update")) None)
  = negb (existsb starts_with_sudo
            (fst (parse_command (CmdStr (str "echo test && apt update")))))
    && existsb (fun part =>
                  fst (command_needs_sudo unix_with_sudo (CmdList part) None))
               (fst (parse_command (CmdStr (str "echo test && apt update")))).
Proof.
  apply (chain_decision unix_with_sudo
           (CmdStr (str "echo test && apt update")) None).
  reflexivity.
Defined.

Lemma process_parts_cache (h : host) (ps : list (list pystr)) :
  forall cache,
    snd (process_parts h ps cache) = cache
    \/ snd (process_parts h ps cache) = Some (Elevate.available h cache).
Proof.
  induction ps as [|part ps IH]; intros cache; [left; reflexivity|].
  destruct part as [|w part]; [exact (IH cache)|].
  cbn [process_parts].
  destruct (os_nt h).
  - destruct (starts_with_sudo (w :: part)); unfold bind, ret;
      destruct (process_parts h ps cache) as [r c] eqn:E;
      specialize (IH cache); rewrite E in IH; exact IH.
  - destruct (negb (starts_with_sudo (w :: part))); unfold bind, ret.
    + rewrite Elevation.command_needs_sudo_eq.
      destruct (process_parts h ps (Some (Elevate.available h cache)))
        as [r c] eqn:E.
      specialize (IH (Some (Elevate.available h cache))). rewrite E in IH.
      rewrite Elevation.available_cached in IH. cbn [snd] in *.
      right. destruct IH as [-> | ->]; reflexivity.
    + destruct (process_parts h ps cache) as [r c] eqn:E;
        specialize (IH cache); rewrite E in IH; exact IH.
Qed.

(** ** Execution *)


(** The exceptions of [subprocess.run] other than the one of [check]. *)
Lemma communicate_error (nt : bool) (rt : Run.runtime) (sp : Run.spawn_call)
    (code : Z) :
  Run.communicate nt rt sp = Raise (CalledProcessError code) ->
  Run.check sp = true /\ code <> 0%Z
  /\ exists out err, Run.process rt sp = Run.Exits code out err.
Proof.
  unfold Run.communicate, Run.write_error.
  destruct (Run.process rt sp) as [|code' out err]; [discriminate|].
  destruct (Run.stdin_input sp) as [[s|b]|];
    repeat match goal with
           | |- context [if ?c then _ else _] => destruct c eqn:?
           end; try discriminate;
    intros H; injection H as ->;
    match goal with
    | E : _ && _ = true |- _ => apply andb_true_iff in E as [E1 E2]
    end;
    (split; [exact E1|]; split; [intros ->; discriminate|]);
    exists out, err; reflexivity.
Qed.

(** What a result of [subprocess.run] says of the process. *)
Lemma communicate_return (nt : bool) (rt : Run.runtime) (sp : Run.spawn_call)
    (r : Run.CompletedProcess) :
  Run.communicate nt rt sp = Return r ->
  exists out err,
    Run.process rt sp = Run.Exits (Run.returncode r) out err
    /\ (Run.check sp = true -> Run.returncode r = 0%Z)
    /\ Run.stdout r
       = (if Run.piped "stdout" (Run.call_kwargs sp) then Some out else None)
    /\ Run.stderr r
       = (if Run.piped "stderr" (Run.call_kwargs sp) then Some err else None).
Proof.
  unfold Run.communicate.
  destruct (Run.process rt sp) as [|code out err]; [discriminate|].
  destruct (Run.write_error nt _ _); [discriminate|].
  destruct (Run.check sp && negb (code =? 0)%Z) eqn:E; [discriminate|].
  intros H. injection H as <-. cbn [Run.returncode Run.stdout Run.stderr].
  exists out, err. split; [reflexivity|]. split; [|split; reflexivity].
  intros Hc. rewrite Hc in E. cbn in E.
  apply negb_false_iff, Z.eqb_eq in E. exact E.
Qed.


Lemma subprocess_run_cases (nt : bool) (rt : Run.runtime)
    (keywords : list string) (final_cmd : command) (shell check : bool)
    (input : option Run.payload) (kwargs : gmap string Run.kwval)
    (w : Run.world) :
  (exists e,
      Run.subprocess_run nt rt keywords final_cmd shell check input kwargs w
      = (Raise e, w)
      /\ forall code, e <> CalledProcessError code)
  \/ (existsb (fun k => bool_decide (is_Some (kwargs !! k))) keywords = false
      /\ Run.kw_truthy (kwargs !! "capture_output"%string)
         && (Run.is_not_none (kwargs !! "stdout"%string)
             || Run.is_not_none (kwargs !! "stderr"%string)) = false
      /\ Run.subprocess_run nt rt keywords final_cmd shell check input kwargs w
         = (Run.communicate nt rt
              (Run.Spawn final_cmd shell check
                 (effective_input input kwargs) kwargs),
            Run.World (Run.sudo_cache w) (Run.files w)
              (Run.spawned w
               ++ [Run.Spawn final_cmd shell check
                     (effective_input input kwargs) kwargs]))).
Proof.
  unfold Run.subprocess_run.
  destruct (existsb _ keywords) eqn:Hk.
  - left. eexists. split; [reflexivity | discriminate].
  - fold (effective_input input kwargs).
    destruct (_ && Run.is_not_none (kwargs !! "stdin"%string)).
    + left. eexists. split; [reflexivity | discriminate].
    + destruct (_ && (_ || _)) eqn:Hcap.
      * left. eexists. split; [reflexivity | discriminate].
      * destruct (negb (Run.expected kwargs)).
        -- left. eexists. split; [reflexivity | discriminate].
        -- destruct (Run.no_executable nt final_cmd shell).
           ++ left. eexists. split; [reflexivity | discriminate].
           ++ right. auto.
Qed.

Lemma call_run_cases (nt : bool) (rt : Run.runtime) (rq : Run.request)
    (final_cmd : command) (shell : bool) (kwargs : gmap string Run.kwval)
    (w : Run.world) :
  (exists e,
      Run.call_run nt rt rq final_cmd shell kwargs w = (Raise e, w)
      /\ forall code, e <> CalledProcessError code)
  \/ (exists sp,
         Run.call_run nt rt rq final_cmd shell kwargs w
         = (Run.communicate nt rt sp,
            Run.World (Run.sudo_cache w) (Run.files w) (Run.spawned w ++ [sp]))
         /\ sp = Run.Spawn final_cmd shell (Run.raise_on_error rq)
                   (if Run.interactive rq then effective_input None kwargs
                    else Run.input rq)
                   kwargs
         /\ Run.kw_truthy (kwargs !! "capture_output"%string)
            && (Run.is_not_none (kwargs !! "stdout"%string)
                || Run.is_not_none (kwargs !! "stderr"%string)) = false).
Proof.
  unfold Run.call_run. destruct (Run.interactive rq).
  - destruct (subprocess_run_cases nt rt ["shell"; "check"; "text"]%string
                final_cmd shell (Run.raise_on_error rq) None kwargs w)
      as [H | (_ & Hcap & H)]; [left; exact H|].
    right. eexists. split; [exact H | split; [reflexivity | exact Hcap]].
  - destruct (subprocess_run_cases nt rt
                ["shell"; "check"; "text"; "input"]%string
                final_cmd shell (Run.raise_on_error rq) (Run.input rq) kwargs w)
      as [H | (Hk & Hcap & H)]; [left; exact H|].
    right. eexists. split; [exact H|]. split; [|exact Hcap].
    f_equal. unfold effective_input.
    destruct (Run.input rq); [reflexivity|].
    cbn [existsb] in Hk. rewrite !orb_false_iff in Hk.
    destruct Hk as (_ & _ & _ & Hi & _).
    apply bool_decide_eq_false in Hi.
    destruct (kwargs !! "input"%string) as [v|] eqn:E; [|reflexivity].
    exfalso. apply Hi. exists v. reflexivity.
Qed.

Lemma lex_error (input : pystr) :
  forall st esc token quoted acc code,
    Shlex.lex st esc token quoted acc input <> Raise (CalledProcessError code).
Proof.
  induction input as [|c input IH]; intros st esc token quoted acc code.
  - destruct st; simpl; discriminate.
  - destruct st; simpl;
      repeat match goal with
             | |- context [if ?c then _ else _] => destruct c
             end; apply IH.
Qed.

Lemma shlex_error (s : pystr) (code : Z) :
  Shlex.split s <> Raise (CalledProcessError code).
Proof. apply lex_error. Qed.

Lemma try_run_cases (nt : bool) (rt : Run.runtime) (rq : Run.request)
    (final_cmd : command) (kwargs : gmap string Run.kwval) (w : Run.world) :
  one_spawn nt rt rq final_cmd kwargs w
    (Run.try_run nt rt rq final_cmd kwargs w)
  /\ Run.sudo_cache (snd (Run.try_run nt rt rq final_cmd kwargs w))
     = Run.sudo_cache w.
Proof.
  unfold Run.try_run, one_spawn, spawn_target.
  destruct (Run.shell_type rq) as [sh|].
  - destruct (Run.tmp_name rt) as [path|].
    + destruct (Run.write_ok rt); cbn [negb].
      * destruct (Run.chmod_ok rt); cbn [negb].
        -- set (w1 := Run.World _ _ _).
           destruct (call_run_cases nt rt rq
                       (CmdStr (Run.get_shell_command sh ++ Py.space :: path))
                       true kwargs w1)
             as [(e & -> & He) | (sp & -> & -> & Hcap)].
           ++ split; [|reflexivity]. left. exists e. auto.
           ++ split; [|reflexivity]. right. eexists.
              split; [reflexivity|]. split; [reflexivity|].
              cbn. repeat split; auto. right. exists path. reflexivity.
        -- split; [|reflexivity]. left. exists OSError.
           split; [reflexivity|]. split; [discriminate | reflexivity].
      * split; [|reflexivity]. left. exists OSError.
        split; [reflexivity|]. split; [discriminate | reflexivity].
    + split; [|reflexivity]. left. exists OSError.
      split; [reflexivity|]. split; [discriminate | reflexivity].
  - destruct (call_run_cases nt rt rq final_cmd (Run.shell rq) kwargs w)
      as [(e & -> & He) | (sp & -> & -> & Hcap)].
    + split; [|reflexivity]. left. exists e. auto.
    + split; [|reflexivity]. right. eexists.
      split; [reflexivity|]. split; [reflexivity|].
      cbn. destruct (Run.tmp_name rt); repeat split; auto.
Qed.

(** The stages of [run_subprocess] before the [try] statement. *)
Lemma run_subprocess_stages (h : host) (rt : Run.runtime) (rq : Run.request)
    (w : Run.world) :
  (exists e,
      Run.run_subprocess h rt rq w
      = (Raise e,
         Run.World (snd (final_command h (Run.cmd rq) (Run.sudo_cache w)))
           (Run.files w) (Run.spawned w))
      /\ forall code, e <> CalledProcessError code)
  \/ (exists rewritten io final_cmd,
         fst (final_command h (Run.cmd rq) (Run.sudo_cache w)) = Return rewritten
         /\ Run.add_input (Run.input rq) (Run.kwargs rq)
              (Run.mode_kwargs (Run.interactive rq)) = Return io
         /\ Run.split_argv rewritten (Run.shell rq) = Return final_cmd
         /\ Run.run_subprocess h rt rq w
            = Run.try_run (os_nt h) rt rq final_cmd (io ∪ Run.kwargs rq)
                (Run.World (snd (final_command h (Run.cmd rq) (Run.sudo_cache w)))
                   (Run.files w) (Run.spawned w))).
Proof.
  unfold Run.run_subprocess.
  destruct (final_command h (Run.cmd rq) (Run.sudo_cache w)) as [parsed cache]
    eqn:Hf.
  cbn [fst snd].
  destruct parsed as [rewritten | e].
  - destruct (Run.add_input _ _ _) as [io | e] eqn:Ha.
    + destruct (Run.split_argv rewritten (Run.shell rq)) as [final_cmd | e]
        eqn:Hs.
      * right. exists rewritten, io, final_cmd. auto.
      * left. exists e. split; [reflexivity|].
        unfold Run.split_argv in Hs.
        destruct rewritten as [s | ws]; [|discriminate].
        destruct (Run.shell rq); [discriminate|].
        destruct (Shlex.split s) as [ws | e'] eqn:Hl; [discriminate|].
        injection Hs as <-. intros code ->.
        revert Hl. apply shlex_error.
    + left. exists e. split; [reflexivity|].
      unfold Run.add_input in Ha.
      destruct (Run.input rq) as [pl|]; [|discriminate].
      destruct (Run.payload_truthy pl); [|discriminate].
      unfold Run.expects_stdin in Ha.
      destruct (Run.kwargs rq !! "expected_kwargs"%string) as [[| | |keys|b]|];
        try discriminate;
        try (injection Ha as <-; discriminate).
      destruct (bool_decide _); discriminate.
  - left. exists e. split; [reflexivity|].
    pose proof (Pipeline.final_command_eq h (Run.cmd rq) (Run.sudo_cache w)) as He.
    rewrite Hf in He. discriminate.
Qed.

Lemma final_cache (h : host) (cmd : command) (cache : option bool) :
  snd (final_command h cmd cache) = cache
  \/ snd (final_command h cmd cache) = Some (Elevate.available h cache).
Proof.
  rewrite Pipeline.final_command_eq. cbn [snd]. apply process_parts_cache.
Qed.

Lemma run_subprocess_cache (h : host) (rt : Run.runtime) (rq : Run.request)
    (w : Run.world) :
  Run.sudo_cache (snd (Run.run_subprocess h rt rq w))
  = snd (final_command h (Run.cmd rq) (Run.sudo_cache w)).
Proof.
  destruct (run_subprocess_stages h rt rq w)
    as [(e & -> & _) | (rewritten & io & final_cmd & _ & _ & _ & ->)].
  - reflexivity.
  - rewrite (proj2 (try_run_cases _ _ _ _ _ _)). reflexivity.
Qed.

(** X9: a call of [run_subprocess] leaves the availability cache as it was
    or records the answer of the host ([shutil.which("sudo")]); an answer
    that is already cached is never changed. *)
Theorem cache_records_host (h : host) (rt : Run.runtime) (rq : Run.request)
    (w : Run.world) :
  (Run.sudo_cache (snd (Run.run_subprocess h rt rq w)) = Run.sudo_cache w
   \/ Run.sudo_cache (snd (Run.run_subprocess h rt rq w))
      = Some (truthy (which h sudo)))
  /\ (forall b, Run.sudo_cache w = Some b ->
      Run.sudo_cache (snd (Run.run_subprocess h rt rq w)) = Some b).
Proof.
  rewrite run_subprocess_cache.
  destruct (final_cache h (Run.cmd rq) (Run.sudo_cache w)) as [-> | ->].
  - split; [left; reflexivity | auto].
  - destruct (Run.sudo_cache w) as [b|].
    + rewrite Elevation.available_cached.
      split; [left; reflexivity | auto].
    + split; [right; reflexivity | discriminate].
Qed.


Lemma run_subprocess_one_spawn (h : host) (rt : Run.runtime)
    (rq : Run.request) (w : Run.world) :
  (exists e,
      fst (Run.run_subprocess h rt rq w) = Raise e
      /\ (forall code, e <> CalledProcessError code)
      /\ Run.spawned (snd (Run.run_subprocess h rt rq w)) = Run.spawned w)
  \/ (exists rewritten io final_cmd,
         fst (final_command h (Run.cmd rq) (Run.sudo_cache w)) = Return rewritten
         /\ Run.add_input (Run.input rq) (Run.kwargs rq)
              (Run.mode_kwargs (Run.interactive rq)) = Return io
         /\ Run.split_argv rewritten (Run.shell rq) = Return final_cmd
         /\ one_spawn (os_nt h) rt rq final_cmd (io ∪ Run.kwargs rq) w
              (Run.run_subprocess h rt rq w)).
Proof.
  destruct (run_subprocess_stages h rt rq w)
    as [(e & -> & He) | (rewritten & io & final_cmd & Hf & Ha & Hs & ->)].
  - left. exists e. auto.
  - right. exists rewritten, io, final_cmd.
    split; [exact Hf|]. split; [exact Ha|]. split; [exact Hs|].
    exact (proj1 (try_run_cases _ _ _ _ _ _)).
Qed.

(** X10: [run_subprocess] raises [CalledProcessError] only when
    [raise_on_error] is set, and then only for a process that was spawned
    and exited with the non-zero code the exception carries. *)
Theorem called_process_error (h : host) (rt : Run.runtime) (rq : Run.request)
    (w w' : Run.world) (code : Z) :
  Run.run_subprocess h rt rq w = (Raise (CalledProcessError code), w') ->
  Run.raise_on_error rq = true
  /\ code <> 0%Z
  /\ exists sp out err,
       Run.spawned w' = Run.spawned w ++ [sp]
       /\ Run.process rt sp = Run.Exits code out err.
Proof.
  intros H.
  destruct (run_subprocess_one_spawn h rt rq w)
    as [(e & He & Hn & _) | (rewritten & io & final_cmd & _ & _ & _ & Hone)];
    rewrite H in *; cbn [fst snd] in *.
  - injection He as <-. exfalso. exact (Hn code eq_refl).
  - destruct Hone as [(e & He & Hn & _) | (sp & Hsp & Hc & _ & _ & Hck & _)].
    + injection He as <-. exfalso. exact (Hn code eq_refl).
    + symmetry in Hc.
      destruct (communicate_error _ _ _ _ Hc) as (E1 & E2 & out & err & Hp).
      split; [congruence|]. split; [exact E2|].
      exists sp, out, err. auto.
Qed.

Lemma called_process_error_witness :
  Run.raise_on_error (script_request true) = true
  /\ 3%Z <> 0%Z
  /\ exists sp out err,
       Run.spawned
         (snd (Run.run_subprocess unix_with_sudo
                 (script_runtime (Run.Exits 3 [] [])) (script_request true)
                 empty_world))
       = Run.spawned empty_world ++ [sp]
       /\ Run.process (script_runtime (Run.Exits 3 [] [])) sp
          = Run.Exits 3 out err.
Proof.
  apply (called_process_error unix_with_sudo
           (script_runtime (Run.Exits 3 [] [])) (script_request true)
           empty_world).
  reflexivity.
Defined.

Lemma add_input_streams (input : option Run.payload)
    (kwargs io0 io : gmap string Run.kwval) :
  Run.add_input input kwargs io0 = Return io ->
  io !! "stdout"%string = io0 !! "stdout"%string
  /\ io !! "stderr"%string = io0 !! "stderr"%string.
Proof.
  unfold Run.add_input. intros H.
  destruct input as [pl|]; [|injection H as <-; auto].
  destruct (Run.payload_truthy pl); [|injection H as <-; auto].
  destruct (Run.expects_stdin kwargs) as [[|]|]; [| |discriminate];
    injection H as <-;
    rewrite ?lookup_delete_ne, ?lookup_insert_ne by done; auto.
Qed.

Lemma mode_streams (interactive : bool) :
  Run.mode_kwargs interactive !! "stdout"%string
  = Some (if interactive then Run.KNone else Run.KPipe)
  /\ Run.mode_kwargs interactive !! "stderr"%string
     = Some (if interactive then Run.KNone else Run.KPipe).
Proof. destruct interactive; split; reflexivity. Qed.

Lemma merged_streams (rq : Run.request) (io : gmap string Run.kwval) :
  Run.add_input (Run.input rq) (Run.kwargs rq)
    (Run.mode_kwargs (Run.interactive rq)) = Return io ->
  (io ∪ Run.kwargs rq) !! "stdout"%string
  = Some (if Run.interactive rq then Run.KNone else Run.KPipe)
  /\ (io ∪ Run.kwargs rq) !! "stderr"%string
     = Some (if Run.interactive rq then Run.KNone else Run.KPipe).
Proof.
  intros H. destruct (add_input_streams _ _ _ _ H) as [Ho He].
  destruct (mode_streams (Run.interactive rq)) as [Mo Me].
  split; apply lookup_union_Some_l; congruence.
Qed.

(** The mode and the payload set no other keyword than the streams and
    [input]. *)
Lemma merged_capture (rq : Run.request) (io : gmap string Run.kwval) :
  Run.add_input (Run.input rq) (Run.kwargs rq)
    (Run.mode_kwargs (Run.interactive rq)) = Return io ->
  (io ∪ Run.kwargs rq) !! "capture_output"%string
  = Run.kwargs rq !! "capture_output"%string.
Proof.
  intros H. apply lookup_union_r.
  assert (Hm : Run.mode_kwargs (Run.interactive rq) !! "capture_output"%string
               = None)
    by (destruct (Run.interactive rq); reflexivity).
  unfold Run.add_input in H.
  destruct (Run.input rq) as [pl|]; [|injection H as <-; exact Hm].
  destruct (Run.payload_truthy pl); [|injection H as <-; exact Hm].
  destruct (Run.expects_stdin (Run.kwargs rq)) as [[|]|]; [| |discriminate];
    injection H as <-;
    rewrite ?lookup_delete_ne, ?lookup_insert_ne by done; exact Hm.
Qed.

(** The output streams of the process are pipes in captured mode, and in
    interactive mode when the caller sets [capture_output]. *)
Lemma merged_piped (rq : Run.request) (io : gmap string Run.kwval) :
  Run.add_input (Run.input rq) (Run.kwargs rq)
    (Run.mode_kwargs (Run.interactive rq)) = Return io ->
  Run.piped "stdout" (io ∪ Run.kwargs rq)
  = negb (Run.interactive rq)
    || Run.kw_truthy (Run.kwargs rq !! "capture_output"%string)
  /\ Run.piped "stderr" (io ∪ Run.kwargs rq)
     = negb (Run.interactive rq)
       || Run.kw_truthy (Run.kwargs rq !! "capture_output"%string)
  /\ (Run.kw_truthy ((io ∪ Run.kwargs rq) !! "capture_output"%string)
      && (Run.is_not_none ((io ∪ Run.kwargs rq) !! "stdout"%string)
          || Run.is_not_none ((io ∪ Run.kwargs rq) !! "stderr"%string))
      = false ->
      Run.interactive rq = false ->
      Run.kw_truthy (Run.kwargs rq !! "capture_output"%string) = false).
Proof.
  intros H. destruct (merged_streams rq io H) as [Ho He].
  unfold Run.piped. rewrite (merged_capture rq io H), Ho, He.
  destruct (Run.interactive rq); cbn [Run.is_pipe Run.is_not_none negb orb];
    rewrite ?orb_false_r, ?orb_true_r, ?andb_true_r;
    repeat split; auto; discriminate.
Qed.

(** X11: a call of [run_subprocess] spawns at most one process.  The
    process is checked as [raise_on_error] says, runs through the shell
    exactly when [shell] or a shell type was given, and is given every
    keyword of the caller.  The [stdout] and [stderr] keywords it is given
    are those of the mode, whatever the caller passed under these names; its
    output streams are pipes in captured mode, and in interactive mode
    exactly when the caller set [capture_output]; in captured mode no
    process is spawned for a caller who set [capture_output]. *)
Theorem one_process_per_call (h : host) (rt : Run.runtime) (rq : Run.request)
    (w : Run.world) :
  Run.spawned (snd (Run.run_subprocess h rt rq w)) = Run.spawned w
  \/ exists sp,
       Run.spawned (snd (Run.run_subprocess h rt rq w)) = Run.spawned w ++ [sp]
       /\ Run.check sp = Run.raise_on_error rq
       /\ Run.use_shell sp
          = match Run.shell_type rq with
            | Some _ => true
            | None => Run.shell rq
            end
       /\ Run.call_kwargs sp !! "stdout"%string
          = Some (if Run.interactive rq then Run.KNone else Run.KPipe)
       /\ Run.call_kwargs sp !! "stderr"%string
          = Some (if Run.interactive rq then Run.KNone else Run.KPipe)
       /\ (forall k, is_Some (Run.kwargs rq !! k) ->
           is_Some (Run.call_kwargs sp !! k))
       /\ Run.piped "stdout" (Run.call_kwargs sp)
          = negb (Run.interactive rq)
            || Run.kw_truthy (Run.kwargs rq !! "capture_output"%string)
       /\ Run.piped "stderr" (Run.call_kwargs sp)
          = negb (Run.interactive rq)
            || Run.kw_truthy (Run.kwargs rq !! "capture_output"%string)
       /\ (Run.interactive rq = false ->
           Run.kw_truthy (Run.kwargs rq !! "capture_output"%string) = false).
Proof.
  destruct (run_subprocess_one_spawn h rt rq w)
    as [(e & _ & _ & Hs) | (rewritten & io & final_cmd & _ & Ha & _ & Hone)];
    [left; exact Hs|].
  destruct Hone as [(e & _ & _ & Hs) |
                    (sp & Hs & _ & _ & Hsh & Hck & Htmp & Hkw & _ & Hcap)];
    [left; exact Hs|].
  right. exists sp. split; [exact Hs|]. split; [exact Hck|].
  destruct (merged_streams rq io Ha) as [Ho He].
  destruct (merged_piped rq io Ha) as (Po & Pe & Pc).
  rewrite Hkw.
  split; [|split; [exact Ho | split; [exact He | split;
    [|split; [exact Po | split; [exact Pe | exact (Pc Hcap)]]]]]].
  - rewrite Hsh. unfold spawn_target.
    destruct (Run.shell_type rq) as [sh|]; [|reflexivity].
    destruct Htmp as [Hn | [path ->]]; [discriminate | reflexivity].
  - intros k [v Hv].
    destruct (io !! k) as [v'|] eqn:E.
    + exists v'. apply lookup_union_Some_l. exact E.
    + exists v. rewrite lookup_union_r by exact E. exact Hv.
Qed.

Lemma captured_stdout (h : host) (rt : Run.runtime) (rq : Run.request)
    (w w' : Run.world) (r : Run.CompletedProcess) :
  Run.run_subprocess h rt rq w = (Return r, w') ->
  Run.interactive rq = false ->
  exists out, Run.stdout r = Some out.
Proof.
  intros H Hi.
  destruct (run_subprocess_one_spawn h rt rq w)
    as [(e & He & _) | (rewritten & io & final_cmd & _ & Ha & _ & Hone)];
    rewrite H in *; cbn [fst snd] in *; [discriminate|].
  destruct Hone as [(e & He & _) | (sp & _ & Hc & _ & _ & _ & _ & Hkw & _)];
    [discriminate|].
  symmetry in Hc.
  destruct (communicate_return _ _ _ _ Hc) as (out & err & _ & _ & Ho & _).
  destruct (merged_piped rq io Ha) as (Po & _ & _).
  rewrite Hkw, Po, Hi in Ho. exists out. exact Ho.
Qed.

(** X13: when [run_subprocess] returns, exactly one process was spawned and
    the result carries its exit code, which is zero if [raise_on_error] is
    set.  The result holds both output streams of the process in captured
    mode, where the call returns only for a caller who did not set
    [capture_output]; in interactive mode it holds both when the caller set
    [capture_output] and neither otherwise. *)
Theorem returned_streams (h : host) (rt : Run.runtime) (rq : Run.request)
    (w w' : Run.world) (r : Run.CompletedProcess) :
  Run.run_subprocess h rt rq w = (Return r, w') ->
  exists sp out err,
    Run.spawned w' = Run.spawned w ++ [sp]
    /\ Run.process rt sp = Run.Exits (Run.returncode r) out err
    /\ (Run.raise_on_error rq = true -> Run.returncode r = 0%Z)
    /\ Run.stdout r
       = (if negb (Run.interactive rq)
             || Run.kw_truthy (Run.kwargs rq !! "capture_output"%string)
          then Some out else None)
    /\ Run.stderr r
       = (if negb (Run.interactive rq)
             || Run.kw_truthy (Run.kwargs rq !! "capture_output"%string)
          then Some err else None)
    /\ (Run.interactive rq = false ->
        Run.kw_truthy (Run.kwargs rq !! "capture_output"%string) = false).
Proof.
  intros H.
  destruct (run_subprocess_one_spawn h rt rq w)
    as [(e & He & _) | (rewritten & io & final_cmd & _ & Ha & _ & Hone)];
    rewrite H in *; cbn [fst snd] in *; [discriminate|].
  destruct Hone as [(e & He & _) |
                    (sp & Hs & Hc & _ & _ & Hck & _ & Hkw & _ & Hcap)];
    [discriminate|].
  symmetry in Hc.
  destruct (communicate_return _ _ _ _ Hc) as (out & err & Hp & Hz & Ho & He).
  destruct (merged_piped rq io Ha) as (Po & Pe & Pc).
  rewrite Hkw, Po in Ho. rewrite Hkw, Pe in He. rewrite Hck in Hz.
  exists sp, out, err. repeat split; auto.
Qed.

Lemma returned_streams_witness :
  exists sp out err,
    Run.spawned
      (snd (Run.run_subprocess unix_with_sudo quiet_runtime capturing_request
              empty_world))
    = Run.spawned empty_world ++ [sp]
    /\ Run.process quiet_runtime sp
       = Run.Exits (Run.returncode (Run.Completed 0 (Some []) (Some []))) out err
    /\ (Run.raise_on_error capturing_request = true ->
        Run.returncode (Run.Completed 0 (Some []) (Some [])) = 0%Z)
    /\ Run.stdout (Run.Completed 0 (Some []) (Some []))
       = (if negb (Run.interactive capturing_request)
             || Run.kw_truthy
                  (Run.kwargs capturing_request !! "capture_output"%string)
          then Some out else None)
    /\ Run.stderr (Run.Completed 0 (Some []) (Some []))
       = (if negb (Run.interactive capturing_request)
             || Run.kw_truthy
                  (Run.kwargs capturing_request !! "capture_output"%string)
          then Some err else None)
    /\ (Run.interactive capturing_request = false ->
        Run.kw_truthy (Run.kwargs capturing_request !! "capture_output"%string)
        = false).
Proof.
  apply (returned_streams unix_with_sudo quiet_runtime capturing_request
           empty_world).
  vm_compute. reflexivity.
Defined.














(** X15: when writing the script fails, the temporary file that was created
    for it stays behind: the call ends with an exception before any process
    is spawned and the file is not removed. *)
Theorem write_failure_leaves_script (h : host) (rt : Run.runtime)
    (rq : Run.request) (w : Run.world) (sh : Run.ShellType) (path : pystr) :
  Run.shell_type rq = Some sh ->
  Run.tmp_name rt = Some path ->
  Run.write_ok rt = false ->
  Run.shell rq = true ->
  Run.input rq = None ->
  exists e w',
    Run.run_subprocess h rt rq w = (Raise e, w')
    /\ is_Some (Run.files w' !! path)
    /\ Run.spawned w' = Run.spawned w.
Proof.
  intros Hsh Htmp Hw Hshell Hin.
  unfold Run.run_subprocess. rewrite Pipeline.final_command_eq.
  cbv beta iota. rewrite Hin. cbn [Run.add_input].
  assert (Hsplit : forall c, Run.split_argv c (Run.shell rq) = Return c).
  { intros [s | ws]; unfold Run.split_argv; rewrite ?Hshell; reflexivity. }
  rewrite Hsplit. unfold Run.try_run. rewrite Hsh, Htmp, Hw. cbn [negb].
  eexists _, _. split; [reflexivity|]. cbn [Run.files Run.spawned].
  split; [|reflexivity]. rewrite lookup_insert_eq. eexists. reflexivity.
Qed.

Lemma write_failure_leaves_script_witness :
  exists e w',
    Run.run_subprocess unix_with_sudo
      (Run.Runtime (Some (str "/tmp/tmpab12.sh")) false true
         (fun _ => Run.Exits 0 [] []))
      (script_request false) empty_world
    = (Raise e, w')
    /\ is_Some (Run.files w' !! str "/tmp/tmpab12.sh")
    /\ Run.spawned w' = Run.spawned empty_world.
Proof.
  apply (write_failure_leaves_script unix_with_sudo
           (Run.Runtime (Some (str "/tmp/tmpab12.sh")) false true
              (fun _ => Run.Exits 0 [] []))
           (script_request false) empty_world Run.BASH); reflexivity.
Defined.

(** ** Lines of a script *)

Lemma split_lines_from_nonempty (s : pystr) :
  forall cur, PyText.split_lines_from cur s <> [].
Proof.
  induction s as [|c s IH]; intros cur; simpl; [discriminate|].
  destruct (Py.char_eqb c Py.newline); [discriminate | apply IH].
Qed.

Lemma join_lines_cons (l : pystr) (ls : list pystr) :
  ls <> [] ->
  PyText.join_lines (l :: ls) = l ++ Py.newline :: PyText.join_lines ls.
Proof. destruct ls; [congruence | reflexivity]. Qed.

Lemma join_split_lines_from (s : pystr) :
  forall cur, PyText.join_lines (PyText.split_lines_from cur s) = cur ++ s.
Proof.
  induction s as [|c s IH]; intros cur; simpl.
  - symmetry. apply app_nil_r.
  - destruct (Py.char_eqb c Py.newline) eqn:E.
    + apply PyFacts.char_eqb_eq in E. subst c.
      rewrite join_lines_cons by apply split_lines_from_nonempty.
      rewrite IH. reflexivity.
    + rewrite IH, <- app_assoc. reflexivity.
Qed.

Lemma split_lines_from_line (l : pystr) :
  forall cur rest,
    Py.contains Py.newline l = false ->
    PyText.split_lines_from cur (l ++ rest)
    = PyText.split_lines_from (cur ++ l) rest.
Proof.
  induction l as [|c l IH]; intros cur rest Hl; simpl.
  - rewrite app_nil_r. reflexivity.
  - rewrite PyFacts.contains_cons in Hl. apply orb_false_iff in Hl as [Hc Hl].
    rewrite PyFacts.char_eqb_sym, Hc.
    rewrite IH by exact Hl. rewrite <- app_assoc. reflexivity.
Qed.

Lemma split_lines_from_newline (cur rest : pystr) :
  PyText.split_lines_from cur (Py.newline :: rest)
  = cur :: PyText.split_lines_from [] rest.
Proof.
  cbn [PyText.split_lines_from]. rewrite PyFacts.char_eqb_refl. reflexivity.
Qed.

Lemma split_join_lines (ls : list pystr) :
  forall l cur,
    Forall (fun x => Py.contains Py.newline x = false) (l :: ls) ->
    PyText.split_lines_from cur (PyText.join_lines (l :: ls))
    = (cur ++ l) :: ls.
Proof.
  induction ls as [|l' ls IH]; intros l cur H; inversion H; subst.
  - simpl PyText.join_lines. rewrite <- (app_nil_r l) at 1.
    rewrite split_lines_from_line by assumption. reflexivity.
  - rewrite join_lines_cons by discriminate.
    rewrite split_lines_from_line by assumption.
    rewrite split_lines_from_newline.
    rewrite (IH l' []) by assumption. reflexivity.
Qed.

Lemma split_lines_from_clean (s : pystr) :
  forall cur,
    Py.contains Py.newline cur = false ->
    Forall (fun x => Py.contains Py.newline x = false)
           (PyText.split_lines_from cur s).
Proof.
  induction s as [|c s IH]; intros cur Hc; simpl.
  - constructor; [exact Hc | constructor].
  - destruct (Py.char_eqb c Py.newline) eqn:E.
    + constructor; [exact Hc | apply IH; reflexivity].
    + apply IH. rewrite PyFacts.contains_app, Hc. simpl.
      rewrite PyFacts.char_eqb_sym, E. reflexivity.
Qed.

(** ** Command groups *)

Lemma elevated_clean (self : Command.CommandExecution) (line : pystr) :
  Py.contains Py.newline line = false ->
  Py.contains Py.newline (RunCommands.elevated self line) = false.
Proof.
  intros H. unfold RunCommands.elevated.
  destruct (Command.elevate self); [|exact H].
  rewrite PyFacts.contains_app, H. reflexivity.
Qed.

Section CommandGroups.

Variable substitute_values : OutputStore.outputs -> pystr -> pystr.
Variable os : Run.world -> Run.runtime.
Variable h : host.
Variable p : Helper.platform.

(** X16: on Linux [create_command] keeps the lines of a multi-line script:
    the result has the same lines, each with [sudo ] in front when [elevate]
    is set; without [elevate] it is the script itself.  The arguments and
    the shell command are not used. *)
Theorem script_lines (o : OutputStore.outputs)
    (self : Command.CommandExecution) (shell_command : pystr) :
  RunCommands.is_linux p = true ->
  Py.contains Py.newline (substitute_values o (Command.run self)) = true ->
  PyText.split_lines
    (RunCommands.create_command substitute_values p o self shell_command)
  = map (RunCommands.elevated self)
        (PyText.split_lines (substitute_values o (Command.run self)))
  /\ (Command.elevate self = false ->
      RunCommands.create_command substitute_values p o self shell_command
      = substitute_values o (Command.run self)).
Proof.
  intros Hl Hn. unfold RunCommands.create_command. rewrite Hn, Hl.
  cbn [andb]. unfold PyText.split_lines.
  set (s := substitute_values o (Command.run self)).
  split.
  - pose proof (split_lines_from_clean s [] eq_refl) as Hc.
    destruct (PyText.split_lines_from [] s) as [|l ls] eqn:E;
      [exfalso; exact (split_lines_from_nonempty s [] E)|].
    cbn [map]. apply (split_join_lines _ _ []).
    change (Forall (fun x => Py.contains Py.newline x = false)
              (map (RunCommands.elevated self) (l :: ls))).
    apply List.Forall_map. eapply List.Forall_impl; [|exact Hc].
    intros a. apply elevated_clean.
  - intros He.
    rewrite (List.map_ext (RunCommands.elevated self) (fun x => x)).
    + rewrite List.map_id. apply (join_split_lines_from s []).
    + intros a. unfold RunCommands.elevated. rewrite He. reflexivity.
Qed.

End CommandGroups.

Lemma script_lines_witness :
  PyText.split_lines
    (RunCommands.create_command (fun _ s => s) (Helper.Platform (str "Linux") [])
       ∅ (Command.Execution (str "apt update" ++ Py.newline :: str "apt upgrade")
            None false None None true)
       (str "bash -c"))
  = map (RunCommands.elevated
           (Command.Execution
              (str "apt update" ++ Py.newline :: str "apt upgrade")
              None false None None true))
        (PyText.split_lines
           (str "apt update" ++ Py.newline :: str "apt upgrade"))
  /\ (Command.elevate
        (Command.Execution (str "apt update" ++ Py.newline :: str "apt upgrade")
           None false None None true) = false ->
      RunCommands.create_command (fun _ s => s)
        (Helper.Platform (str "Linux") []) ∅
        (Command.Execution (str "apt update" ++ Py.newline :: str "apt upgrade")
           None false None None true)
        (str "bash -c")
      = str "apt update" ++ Py.newline :: str "apt upgrade").
Proof.
  apply (script_lines (fun _ s => s) (Helper.Platform (str "Linux") []) ∅
           (Command.Execution
              (str "apt update" ++ Py.newline :: str "apt upgrade")
              None false None None true)
           (str "bash -c")); reflexivity.
Defined.

Section CommandLoop.

Variable substitute_values : OutputStore.outputs -> pystr -> pystr.
Variable os : Run.world -> Run.runtime.
Variable h : host.
Variable p : Helper.platform.


Lemma validate_foreign (o : OutputStore.outputs) (c : RunCommands.Command) :
  RunCommands.shell c ∉ host_shells p ->
  RunCommands.validate_shell substitute_values p o c = false.
Proof.
  intros Hn. unfold RunCommands.validate_shell, RunCommands.validate_shell_type.
  fold (host_shells p). cbn [List.filter].
  rewrite (bool_decide_eq_false_2 _ Hn). cbn [nonempty].
  destruct (RunCommands.os_dist c) as [dist|]; [|reflexivity].
  destruct (nonempty _); [apply andb_false_r | reflexivity].
Qed.

(** X19: the shell types accepted on a host are those of its system:
    [cmd], [bat] and [powershell] on Windows, [bash], [sh] and [zsh] on
    Linux, [bash], [zsh] and [fish] on macOS, none on any other system.
    [run_commands] skips every command whose shell is not accepted: it runs
    nothing and changes neither the commands nor the state. *)
Theorem foreign_shell_skipped (commands : list RunCommands.Command)
    (st : RunCommands.state) :
  host_shells p
  = (if Py.eqb (Py.lower (Helper.system p)) (str "windows")
     then [Run.CMD; Run.BAT; Run.POWERSHELL]
     else if Py.eqb (Py.lower (Helper.system p)) (str "linux")
     then [Run.BASH; Run.SH; Run.ZSH]
     else if Py.eqb (Py.lower (Helper.system p)) (str "darwin")
     then [Run.BASH; Run.ZSH; Run.FISH]
     else [])
  /\ (Forall (fun c => RunCommands.shell c ∉ host_shells p) commands ->
      RunCommands.run_commands substitute_values os h p commands st
      = (None, commands, st)).
Proof.
  split.
  - unfold host_shells, Helper.get_host_os.
    destruct (Py.eqb _ (str "windows")); [reflexivity|].
    destruct (Py.eqb _ (str "linux")); [reflexivity|].
    destruct (Py.eqb _ (str "darwin")); reflexivity.
  - induction 1 as [|c commands Hc _ IH]; [reflexivity|].
    cbn [RunCommands.run_commands].
    rewrite (validate_foreign _ c Hc), IH. reflexivity.
Qed.

Lemma save_output_some (self : Command.CommandExecution) (value : pystr)
    (o : OutputStore.outputs) :
  fst (RunCommands.save_output substitute_values self (Some value) o) = None.
Proof.
  unfold RunCommands.save_output.
  destruct (Command.saved_output_name self) as [name|]; [|reflexivity].
  destruct (nonempty _); reflexivity.
Qed.

Lemma run_one_error (sh : Run.ShellType) (cmd_run : Command.CommandExecution)
    (st : RunCommands.state) (e : exn) :
  fst (fst (RunCommands.run_one substitute_values os h p sh cmd_run st))
  <> Some (RunCommands.Raised e).
Proof.
  unfold RunCommands.run_one.
  destruct (Command.accepted_exit_codes cmd_run) as [valid cmd_run'].
  destruct (Run.run_subprocess _ _ _ _) as [[r | e'] w'] eqn:E;
    [|discriminate].
  destruct (Command.is_failure _ _); [discriminate|].
  destruct (captured_stdout _ _ _ _ _ _ E eq_refl) as (out & Ho).
  rewrite Ho.
  pose proof (save_output_some cmd_run' out (RunCommands.store st)) as Hs.
  destruct (RunCommands.save_output _ _ _ _) as [err' o']. cbn [fst] in *.
  rewrite Hs. discriminate.
Qed.

Lemma run_executions_error (sh : Run.ShellType)
    (runs : list Command.CommandExecution) (e : exn) :
  forall st,
    fst (fst (RunCommands.run_executions substitute_values os h p sh runs st))
    <> Some (RunCommands.Raised e).
Proof.
  induction runs as [|cmd_run runs IH]; intros st; [discriminate|].
  cbn [RunCommands.run_executions].
  pose proof (run_one_error sh cmd_run st e) as H1.
  destruct (RunCommands.run_one _ _ _ _ _ _ _) as [[err cmd_run'] st1].
  cbn [fst] in H1. destruct err as [e'|]; [exact H1|].
  specialize (IH st1).
  destruct (RunCommands.run_executions _ _ _ _ _ _ _) as [[err' rest'] st2].
  exact IH.
Qed.

(** X21: the exceptions that end [run_commands].  On the executions of a
    command whose [execute] is a list it never fails on the output it saves:
    the result of every execution carries the standard output of the
    process, so [save_output] never meets [None], and an exception is one of
    [run_subprocess].  A command whose [execute] is a single execution, on a
    host that accepts its shell, ends [run_commands] with [AttributeError]
    before anything is run; no other exception is raised by [run_commands]
    itself. *)
Theorem run_commands_errors (commands : list RunCommands.Command) :
  (forall st,
      fst (fst (RunCommands.run_commands substitute_values os h p commands st))
      = None
      \/ (exists e,
            fst (fst (RunCommands.run_commands substitute_values os h p
                        commands st))
            = Some (RunCommands.Propagated e))
      \/ (fst (fst (RunCommands.run_commands substitute_values os h p
                      commands st))
          = Some (RunCommands.Raised AttributeError)
          /\ Exists (fun c => exists cmd_run,
                         RunCommands.execute c = RunCommands.One cmd_run)
               commands))
  /\ (forall c cmd_run st,
         RunCommands.execute c = RunCommands.One cmd_run ->
         RunCommands.validate_shell substitute_values p
           (RunCommands.store st) c = true ->
         RunCommands.run_commands substitute_values os h p (c :: commands) st
         = (Some (RunCommands.Raised AttributeError), c :: commands, st)).
Proof.
  split.
  - assert (H : forall st e,
               fst (fst (RunCommands.run_commands substitute_values os h p
                           commands st))
               = Some (RunCommands.Raised e) ->
               e = AttributeError
               /\ Exists (fun c => exists cmd_run,
                              RunCommands.execute c = RunCommands.One cmd_run)
                    commands).
    { induction commands as [|c commands IH]; intros st e; [discriminate|].
      cbn [RunCommands.run_commands].
      destruct (RunCommands.validate_shell _ _ _ _).
      - destruct (RunCommands.execute c) as [cmd_run | runs] eqn:Ex.
        + cbn [fst]. intros He. injection He as <-.
          split; [reflexivity|]. constructor. exists cmd_run. exact Ex.
        + pose proof (run_executions_error (RunCommands.shell c) runs e st)
            as H1.
          destruct (RunCommands.run_executions _ _ _ _ _ _ _)
            as [[err runs'] st1].
          cbn [fst] in H1. destruct err as [e'|]; [intros He; contradiction|].
          specialize (IH st1 e).
          destruct (RunCommands.run_commands _ _ _ _ _ _) as [[err' rest'] st2].
          cbn [fst] in *. intros He. destruct (IH He) as [-> Hex].
          split; [reflexivity|]. apply Exists_cons_tl. exact Hex.
      - specialize (IH st e).
        destruct (RunCommands.run_commands _ _ _ _ _ _) as [[err' rest'] st2].
        cbn [fst] in *. intros He. destruct (IH He) as [-> Hex].
        split; [reflexivity|]. apply Exists_cons_tl. exact Hex. }
    intros st. specialize (H st).
    destruct (fst (fst _)) as [[e|e]|].
    + right. left. exists e. reflexivity.
    + right. right. destruct (H e eq_refl) as [-> Hex]. auto.
    + left. reflexivity.
  - intros c cmd_run st Hex Hv. cbn [RunCommands.run_commands].
    rewrite Hv, Hex. reflexivity.
Qed.

End CommandLoop.


Lemma foreign_shell_skipped_witness :
  RunCommands.run_commands (fun _ s => s) (fun _ => quiet_runtime)
    unix_with_sudo (Helper.Platform (str "Linux") (str "ubuntu"))
    [RunCommands.Cmd Run.POWERSHELL None
       (RunCommands.Many
          [Command.Execution (str "dir") None false None None false])]
    (RunCommands.State empty_world ∅)
  = (None,
     [RunCommands.Cmd Run.POWERSHELL None
        (RunCommands.Many
           [Command.Execution (str "dir") None false None None false])],
     RunCommands.State empty_world ∅).
Proof.
  apply (proj2 (foreign_shell_skipped (fun _ s => s) (fun _ => quiet_runtime)
                  unix_with_sudo (Helper.Platform (str "Linux") (str "ubuntu"))
                  [RunCommands.Cmd Run.POWERSHELL None
                     (RunCommands.Many
                        [Command.Execution (str "dir") None false None None
                           false])]
                  (RunCommands.State empty_world ∅))).
  constructor; [|constructor].
  intros Hin. apply list_elem_of_In in Hin. vm_compute in Hin.
  intuition discriminate.
Defined.

Lemma run_commands_errors_witness :
  RunCommands.run_commands (fun _ s => s) (fun _ => quiet_runtime)
    unix_with_sudo (Helper.Platform (str "Linux") (str "ubuntu"))
    [RunCommands.Cmd Run.BASH None
       (RunCommands.One
          (Command.Execution (str "echo hi") None false None None false));
     RunCommands.Cmd Run.BASH None
       (RunCommands.Many
          [Command.Execution (str "ls") None false None None false])]
    (RunCommands.State empty_world ∅)
  = (Some (RunCommands.Raised AttributeError),
     [RunCommands.Cmd Run.BASH None
        (RunCommands.One
           (Command.Execution (str "echo hi") None false None None false));
      RunCommands.Cmd Run.BASH None
        (RunCommands.Many
           [Command.Execution (str "ls") None false None None false])],
     RunCommands.State empty_world ∅).
Proof.
  apply (proj2 (run_commands_errors (fun _ s => s) (fun _ => quiet_runtime)
                  unix_with_sudo (Helper.Platform (str "Linux") (str "ubuntu"))
                  [RunCommands.Cmd Run.BASH None
                     (RunCommands.Many
                        [Command.Execution (str "ls") None false None None
                           false])])
           _ (Command.Execution (str "echo hi") None false None None false));
    reflexivity.
Defined.

(** ** The output store *)

Lemma drop_newlines_spec (l : pystr) :
  exists n,
    l = repeat Py.newline n ++ PyText.drop_newlines l
    /\ match PyText.drop_newlines l with
       | c :: _ => Py.char_eqb c Py.newline = false
       | [] => True
       end.
Proof.
  induction l as [|c l IH]; simpl.
  - exists 0. split; [reflexivity | exact I].
  - destruct (Py.char_eqb c Py.newline) eqn:E.
    + destruct IH as (n & Hl & Hd). exists (S n). split; [|exact Hd].
      apply PyFacts.char_eqb_eq in E. subst c. simpl. f_equal. exact Hl.
    + exists 0. split; [reflexivity | exact E].
Qed.

Lemma rev_newlines (n : nat) :
  rev (repeat Py.newline n) = repeat Py.newline n.
Proof.
  induction n as [|n IH]; [reflexivity|].
  simpl. rewrite IH. symmetry. apply List.repeat_cons.
Qed.

Lemma rstrip_newlines_spec (value : pystr) :
  exists n,
    value = PyText.rstrip_newlines value ++ repeat Py.newline n
    /\ Run.endswith_newline (PyText.rstrip_newlines value) = false.
Proof.
  unfold PyText.rstrip_newlines, Run.endswith_newline.
  destruct (drop_newlines_spec (rev value)) as (n & Hl & Hd).
  exists n. rewrite List.rev_involutive. split.
  - rewrite <- (List.rev_involutive value), Hl at 1.
    rewrite List.rev_app_distr, rev_newlines. reflexivity.
  - destruct (PyText.drop_newlines (rev value)); [reflexivity | exact Hd].
Qed.

(** X20: what [set_output] stores under a key is the value without its
    trailing newlines: [get_output] returns a string that does not end in a
    newline and from which the value is recovered by appending newlines.
    Other keys are not affected, and after [clear] the key is unset. *)
Theorem store_round_trip (key value : pystr) (default : option pystr)
    (o : OutputStore.outputs) :
  exists stored n,
    OutputStore.get_output key default (OutputStore.set_output key value o)
    = Some stored
    /\ value = stored ++ repeat Py.newline n
    /\ Run.endswith_newline stored = false
    /\ (forall key', key' <> key ->
        OutputStore.get_output key' default
          (OutputStore.set_output key value o)
        = OutputStore.get_output key' default o)
    /\ OutputStore.get_output key default
         (OutputStore.clear (OutputStore.set_output key value o))
       = default.
Proof.
  unfold OutputStore.get_output, OutputStore.set_output, OutputStore.clear,
    OutputStore.outputs in *.
  destruct (Run.endswith_newline value) eqn:E; cbv beta iota zeta.
  - destruct (rstrip_newlines_spec value) as (n & Hv & Hs).
    exists (PyText.rstrip_newlines value), n.
    rewrite lookup_insert_eq, lookup_empty.
    repeat split; auto.
    intros key' Hk. rewrite lookup_insert_ne by congruence. reflexivity.
  - exists value, 0. rewrite lookup_insert_eq, lookup_empty.
    repeat split; auto.
    + simpl. symmetry. apply app_nil_r.
    + intros key' Hk. rewrite lookup_insert_ne by congruence. reflexivity.
Qed.

(** ** Package managers *)

Lemma families_disjoint (d : pystr) :
  Py.mem d Helper.debian_dists && Py.mem d Helper.fedora_dists = false
  /\ Py.mem d Helper.debian_dists && Py.mem d Helper.centos_dists = false
  /\ Py.mem d Helper.fedora_dists && Py.mem d Helper.centos_dists = false.
Proof.
  destruct (Py.mem d Helper.debian_dists) eqn:Ed.
  - apply PyFacts.mem_In in Ed. simpl in Ed.
    destruct Ed as [<- | [<- | [<- | [<- | []]]]]; repeat split; reflexivity.
  - destruct (Py.mem d Helper.fedora_dists) eqn:Ef.
    + apply PyFacts.mem_In in Ef. simpl in Ef.
      destruct Ef as [<- | [<- | [<- | []]]]; repeat split; reflexivity.
    + repeat split; reflexivity.
Qed.

(** X22: the default package manager is the last one of the list of
    available managers: [winget] on Windows, [port] on macOS, and on Linux
    [yum] for the Fedora and CentOS families and [flatpak] for every other
    distribution, Debian's included; on any other system
    [get_default_package_manager] raises [ValueError]. *)
Theorem default_manager (p : Helper.platform) :
  PackageManager.get_default_package_manager p
  = (if Py.eqb (Py.lower (Helper.system p)) (str "windows")
     then Return PackageManager.WINGET
     else if Py.eqb (Py.lower (Helper.system p)) (str "linux")
     then (if Py.mem (Helper.get_linux_os_dist p) Helper.fedora_dists
              || Py.mem (Helper.get_linux_os_dist p) Helper.centos_dists
           then Return PackageManager.YUM
           else Return PackageManager.FLATPAK)
     else if Py.eqb (Py.lower (Helper.system p)) (str "darwin")
     then Return PackageManager.PORT
     else Raise (ValueError "No package manager found for OS")).
Proof.
  unfold PackageManager.get_default_package_manager,
    PackageManager.get_available_package_managers, Helper.get_host_os.
  destruct (Py.eqb _ (str "windows")); [reflexivity|].
  destruct (Py.eqb _ (str "linux")).
  - unfold PackageManager.available_step, PackageManager.select_linux.
    generalize (Py.mem (Helper.get_linux_os_dist p) Helper.debian_dists)
               (Py.mem (Helper.get_linux_os_dist p) Helper.fedora_dists)
               (Py.mem (Helper.get_linux_os_dist p) Helper.centos_dists).
    intros [] [] []; reflexivity.
  - destruct (Py.eqb _ (str "darwin")); reflexivity.
Qed.

(** X23: every package manager that [get_available_package_managers]
    reports for the host is accepted for the host's system by
    [get_valid_package_managers_for_os]: filtering the available managers
    through it removes nothing. *)
Theorem available_managers_valid (p : Helper.platform) :
  PackageManager.get_valid_package_managers_for_os p
    (PackageManager.get_available_package_managers p) (Helper.get_host_os p)
  = PackageManager.get_available_package_managers p.
Proof.
  unfold PackageManager.get_valid_package_managers_for_os,
    PackageManager.get_available_package_managers, Helper.get_host_os.
  destruct (Py.eqb _ (str "windows")); [reflexivity|].
  destruct (Py.eqb _ (str "linux")).
  - unfold PackageManager.available_step, PackageManager.select_linux,
      PackageManager.valid_linux.
    destruct (families_disjoint (Helper.get_linux_os_dist p)) as (H1 & H2 & H3).
    revert H1 H2 H3.
    generalize (Py.mem (Helper.get_linux_os_dist p) Helper.debian_dists)
               (Py.mem (Helper.get_linux_os_dist p) Helper.fedora_dists)
               (Py.mem (Helper.get_linux_os_dist p) Helper.centos_dists).
    intros [] [] []; intros; try discriminate; reflexivity.
  - destruct (Py.eqb _ (str "darwin")); reflexivity.
Qed.

(** ** A command given to a shell between double quotes *)

Lemma is_quote_dquote : is_quote Py.dquote = true.
Proof. reflexivity. Qed.



















Lemma clean_plain (w : pystr) : clean_word w -> Forall quotable w.
Proof. intros [_ H]. exact H. Qed.


Section QuotedCommand.

Variable substitute_values : OutputStore.outputs -> pystr -> pystr.
Variable h : host.
Variable p : Helper.platform.


End QuotedCommand.


Section QuotedRun.

Variable substitute_values : OutputStore.outputs -> pystr -> pystr.
Variable h : host.
Variable p : Helper.platform.


End QuotedRun.


(** ** Accepted exit codes across executions *)

(** X25: every execution of a command with a non-empty list of valid exit
    codes appends one more [0] to the list of the model itself: at the
    execution that follows [n] earlier ones the accepted codes are the
    author's codes followed by [n + 1] zeros. *)
Theorem valid_codes_grow (n : nat) :
  forall (cmd_run : Command.CommandExecution) (codes : list Z),
    Command.valid_exit_codes cmd_run = Some codes ->
    codes <> [] ->
    Command.codes_after n cmd_run = codes ++ repeat 0%Z (S n).
Proof.
  induction n as [|n IH]; intros cmd_run codes Hv Hne.
  - cbn [Command.codes_after]. unfold Command.accepted_exit_codes.
    rewrite Hv. destruct codes as [|c codes]; [congruence | reflexivity].
  - cbn [Command.codes_after].
    rewrite (IH _ (codes ++ [0%Z])).
    + rewrite <- app_assoc. reflexivity.
    + unfold Command.accepted_exit_codes. rewrite Hv.
      destruct codes as [|c codes]; [congruence | reflexivity].
    + destruct codes; discriminate.
Qed.

Lemma valid_codes_grow_witness :
  Command.codes_after 2
    (Command.Execution (str "grep x f") None false (Some [1%Z]) None false)
  = [1%Z] ++ repeat 0%Z 3.
Proof.
  apply (valid_codes_grow 2
           (Command.Execution (str "grep x f") None false (Some [1%Z]) None
              false)
           [1%Z]).
  - reflexivity.
  - discriminate.
Defined.

(** ** Commands of the package managers *)







(** ** The availability cache of the package managers *)

(** X26: the answer of [is_installed] is cached for the host system and the
    manager: once a call has returned, a later call for the same target
    returns the same answer without running anything and leaves the state as
    it is, whatever the host would answer then.  The call that fills the
    cache spawns at most one process, and a manager that is not valid for
    the host system is reported as not installed without any process and
    without an entry in the cache. *)
Theorem is_installed_cached (h : host) (rt rt' : Run.runtime)
    (p : Helper.platform) (t : PackageManager.PackageManagerType)
    (target : option Helper.OSType) (st st' : PackageManager.state) (b : bool) :
  PackageManager.is_installed h rt p t target st = (Return b, st') ->
  PackageManager.is_installed h rt' p t target st' = (Return b, st')
  /\ (Run.spawned (PackageManager.world st')
      = Run.spawned (PackageManager.world st)
      \/ exists sp,
           Run.spawned (PackageManager.world st')
           = Run.spawned (PackageManager.world st) ++ [sp])
  /\ (PackageManager.is_valid_for_os t
        (PackageManager.os_name
           (PackageManager.first_active (Helper.get_host_os p))) = false ->
      b = false /\ st' = st).
Proof.
  unfold PackageManager.is_installed.
  destruct (negb (PackageManager.named _)) eqn:E1.
  { intros H. injection H as <- <-. auto. }
  destruct (match target with Some _ => _ | None => false end) eqn:E2.
  { intros H. injection H as <- <-. auto. }
  destruct (negb (PackageManager.is_valid_for_os t _)) eqn:E3.
  { intros H. injection H as <- <-. auto. }
  apply negb_false_iff in E3.
  destruct (PackageManager.cache st !! _) as [answer|] eqn:E4.
  { intros H. injection H as <- <-. rewrite E4.
    split; [reflexivity|]. split; [left; reflexivity|].
    intros Hv. congruence. }
  set (rq := Run.Request _ false None false false None ∅).
  pose proof (run_subprocess_one_spawn h rt rq (PackageManager.world st)) as Hone.
  destruct (Run.run_subprocess h rt rq (PackageManager.world st))
    as [[r | e] w] eqn:E5; [|discriminate].
  intros H. injection H as <- <-.
  cbn [PackageManager.cache PackageManager.world].
  rewrite lookup_insert_eq. split; [reflexivity|]. split.
  - cbn [fst snd] in Hone.
    destruct Hone as [(e & He & _) | (rewritten & io & final_cmd & _ & _ & _ & Hs)];
      [discriminate|].
    destruct Hs as [(e & He & _) | (sp & Hs & _)]; [discriminate|].
    right. exists sp. exact Hs.
  - intros Hv. congruence.
Qed.

Lemma is_installed_cached_witness :
  PackageManager.is_installed unix_with_sudo
    (Run.Runtime None true true (fun _ => Run.Exits 1 [] []))
    (Helper.Platform (str "Linux") (str "ubuntu")) PackageManager.BREW None
    (snd (PackageManager.is_installed unix_with_sudo quiet_runtime
            (Helper.Platform (str "Linux") (str "ubuntu")) PackageManager.BREW
            None (PackageManager.State empty_world ∅)))
  = (Return true,
     snd (PackageManager.is_installed unix_with_sudo quiet_runtime
            (Helper.Platform (str "Linux") (str "ubuntu")) PackageManager.BREW
            None (PackageManager.State empty_world ∅)))
  /\ (Run.spawned
        (PackageManager.world
           (snd (PackageManager.is_installed unix_with_sudo quiet_runtime
                   (Helper.Platform (str "Linux") (str "ubuntu"))
                   PackageManager.BREW None
                   (PackageManager.State empty_world ∅))))
      = Run.spawned (PackageManager.world (PackageManager.State empty_world ∅))
      \/ exists sp,
           Run.spawned
             (PackageManager.world
                (snd (PackageManager.is_installed unix_with_sudo quiet_runtime
                        (Helper.Platform (str "Linux") (str "ubuntu"))
                        PackageManager.BREW None
                        (PackageManager.State empty_world ∅))))
           = Run.spawned
               (PackageManager.world (PackageManager.State empty_world ∅))
             ++ [sp])
  /\ (PackageManager.is_valid_for_os PackageManager.BREW
        (PackageManager.os_name
           (PackageManager.first_active
              (Helper.get_host_os
                 (Helper.Platform (str "Linux") (str "ubuntu"))))) = false ->
      true = false
      /\ snd (PackageManager.is_installed unix_with_sudo quiet_runtime
                (Helper.Platform (str "Linux") (str "ubuntu"))
                PackageManager.BREW None (PackageManager.State empty_world ∅))
         = PackageManager.State empty_world ∅).
Proof.
  apply (is_installed_cached unix_with_sudo quiet_runtime
           (Run.Runtime None true true (fun _ => Run.Exits 1 [] []))
           (Helper.Platform (str "Linux") (str "ubuntu")) PackageManager.BREW
           None (PackageManager.State empty_world ∅)).
  reflexivity.
Defined.
